(** * CourseMatch: the data-normalisation and schedule-conflict engine of
    [src/App.js], embedded as Rocq functions.

    Conventions of the embedding.
    - A JavaScript string is a [string]: a sequence of code units, each below
      256.  The helper functions only ever convert the case of ASCII letters,
      digits and [_], where the conversion is the ASCII one of [JsString];
      the search lowers whole texts, with [toLowerCaseText].
    - [undefined] (a missing field of a row) is [None]; a field that holds a
      string is [Some s].  Fields that the program reads through a
      truthiness test and [parseFloat] are [cell]s: absent, text or number.
    - The minute counts computed from clock times are natural numbers ([N]);
      prices and ratings are [number]s: [NaN], the two infinities, or an
      exact rational (the rounding of binary64 is not modelled).
    - A plain object used as a dictionary is a [gmap] over its string keys.
      The properties a fresh object inherits from [Object.prototype] are
      modelled where the program reads a key it has not written.
    - A [TypeError] is [None] in the result of a fallible function.
    - [Array.prototype.sort] is the sort of the engine.  The language fixes
      its result when the comparison is consistent ([conforming]); the
      table is sorted with the sort of any such engine ([sortedCoursesOn]). *)

From Stdlib Require Import ZArith NArith QArith Ascii String List Lia Bool.
From Stdlib Require Import DecimalString Permutation Sorted.
From stdpp Require Import gmap strings list.

Local Open Scope string_scope.
Local Open Scope bool_scope.

(** String concatenation computes on literals. *)
#[local] Arguments String.append !_ _ / : simpl nomatch.

(** ** Strings of the JavaScript runtime *)

Module JsString.

Definition code (c : ascii) : nat := nat_of_ascii c.

Definition is_digit (c : ascii) : bool := (48 <=? code c)%nat && (code c <=? 57)%nat.
Definition is_upper (c : ascii) : bool := (65 <=? code c)%nat && (code c <=? 90)%nat.
Definition is_lower (c : ascii) : bool := (97 <=? code c)%nat && (code c <=? 122)%nat.
(** [[A-Z]] under the [i] flag, and [[A-Za-z]]. *)
Definition is_alpha (c : ascii) : bool := is_upper c || is_lower c.
(** [[0-9A-Za-z]]. *)
Definition is_alnum (c : ascii) : bool := is_digit c || is_alpha c.
(** [\w]. *)
Definition is_word (c : ascii) : bool := is_alnum c || (code c =? 95)%nat.
(** White space and line terminators removed by [trim]: TAB, LF, VT, FF,
    CR, SP and NBSP. *)
Definition is_space (c : ascii) : bool :=
  ((9 <=? code c)%nat && (code c <=? 13)%nat) || (code c =? 32)%nat || (code c =? 160)%nat.

Definition upper_char (c : ascii) : ascii :=
  if is_lower c then ascii_of_nat (code c - 32) else c.
Definition lower_char (c : ascii) : ascii :=
  if is_upper c then ascii_of_nat (code c + 32) else c.

Fixpoint map (f : ascii -> ascii) (s : string) : string :=
  match s with
  | EmptyString => EmptyString
  | String c t => String (f c) (map f t)
  end.

Fixpoint filter (p : ascii -> bool) (s : string) : string :=
  match s with
  | EmptyString => EmptyString
  | String c t => if p c then String c (filter p t) else filter p t
  end.

Fixpoint forallb (p : ascii -> bool) (s : string) : bool :=
  match s with
  | EmptyString => true
  | String c t => p c && forallb p t
  end.

Definition toUpperCase : string -> string := map upper_char.
Definition toLowerCase : string -> string := map lower_char.

(** [s.includes(c)] for a one-character needle. *)
Fixpoint includes (c : ascii) (s : string) : bool :=
  match s with
  | EmptyString => false
  | String d t => Ascii.eqb c d || includes c t
  end.

(** [s.slice(i)] and [s.slice(0, n)] for in-range non-negative indices. *)
Fixpoint slice_from (i : nat) (s : string) : string :=
  match i, s with
  | O, _ => s
  | S k, String _ t => slice_from k t
  | S _, EmptyString => EmptyString
  end.

Fixpoint slice_to (n : nat) (s : string) : string :=
  match n, s with
  | O, _ => EmptyString
  | S k, String c t => String c (slice_to k t)
  | S _, EmptyString => EmptyString
  end.

(** [s.split(c)]: the pieces between the occurrences of [c]; never empty. *)
Fixpoint split (sep : ascii) (s : string) : list string :=
  match s with
  | EmptyString => [EmptyString]
  | String c t =>
      if Ascii.eqb c sep then EmptyString :: split sep t
      else match split sep t with
           | p :: ps => String c p :: ps
           | [] => [String c EmptyString]
           end
  end.

(** [s.split('')]: the code units of [s]. *)
Definition chars (s : string) : list ascii := list_ascii_of_string s.

Fixpoint trimStart (s : string) : string :=
  match s with
  | EmptyString => EmptyString
  | String c t => if is_space c then trimStart t else s
  end.

(** [trimEnd] keeps a character when it is not a space or something that
    is kept follows it. *)
Fixpoint trimEnd (s : string) : string :=
  match s with
  | EmptyString => EmptyString
  | String c t =>
      match trimEnd t with
      | EmptyString => if is_space c then EmptyString else String c EmptyString
      | r => String c r
      end
  end.

Definition trim (s : string) : string := trimEnd (trimStart s).

(** Truthiness of a string: non-empty. *)
Definition nonempty (s : string) : bool :=
  match s with EmptyString => false | _ => true end.

(** Truthiness of a field that is a string or [undefined]. *)
Definition truthy (o : option string) : bool :=
  match o with Some s => nonempty s | None => false end.

(** [o || ''] for such a field. *)
Definition or_empty (o : option string) : string :=
  match o with Some s => s | None => EmptyString end.

End JsString.

(** ** Regular expressions

    The three patterns of the program use character classes, [{n}], a greedy
    [?] and [+] on a class, concatenation and capture groups.  [run] lists
    the ways a pattern matches a prefix of the input in the order in which a
    backtracking matcher tries them, so the head of the list is the match
    JavaScript reports. *)

Module Regex.

Inductive re : Type :=
| One (p : ascii -> bool)
| Opt (p : ascii -> bool)
| Plus (p : ascii -> bool)
| Exactly (n : nat) (p : ascii -> bool)
| Seq (r1 r2 : re)
| Group (r : re).

(** A way of matching: the text consumed, the groups closed (in the order
    of their opening parentheses) and the rest of the input. *)
Record way : Type := Way { consumed : string; groups : list string; rest : string }.

Definition push (c : ascii) (w : way) : way :=
  Way (String c (consumed w)) (groups w) (rest w).

Fixpoint plus (p : ascii -> bool) (s : string) : list way :=
  match s with
  | String c t =>
      if p c then List.map (push c) (plus p t) ++ [Way (String c EmptyString) [] t]
      else []
  | EmptyString => []
  end.

Fixpoint exactly (n : nat) (p : ascii -> bool) (s : string) : list way :=
  match n with
  | O => [Way EmptyString [] s]
  | S k =>
      match s with
      | String c t => if p c then List.map (push c) (exactly k p t) else []
      | EmptyString => []
      end
  end.

Fixpoint run (r : re) (s : string) : list way :=
  match r with
  | One p =>
      match s with
      | String c t => if p c then [Way (String c EmptyString) [] t] else []
      | EmptyString => []
      end
  | Opt p =>
      match s with
      | String c t =>
          if p c then [Way (String c EmptyString) [] t; Way EmptyString [] s]
          else [Way EmptyString [] s]
      | EmptyString => [Way EmptyString [] s]
      end
  | Plus p => plus p s
  | Exactly n p => exactly n p s
  | Seq r1 r2 =>
      flat_map (fun w1 =>
        List.map (fun w2 => Way (consumed w1 ++ consumed w2)
                                (groups w1 ++ groups w2) (rest w2))
                 (run r2 (rest w1)))
        (run r1 s)
  | Group r1 =>
      List.map (fun w => Way (consumed w) (consumed w :: groups w) (rest w)) (run r1 s)
  end.

(** [s.match(r)] without the [g] flag: the leftmost position at which [r]
    matches; the result is the array [[whole; group 1; group 2; ...]]. *)
Fixpoint exec (r : re) (s : string) : option (list string) :=
  match run r s with
  | w :: _ => Some (consumed w :: groups w)
  | [] =>
      match s with
      | String _ t => exec r t
      | EmptyString => None
      end
  end.

(** [m[i]] on a match array. *)
Definition group (i : nat) (m : list string) : string := nth i m EmptyString.

End Regex.

(** ** Helper functions of [App.js] *)

Import JsString.

(** [/([A-Z]{4})[- ]?([0-9]{4})/i] *)
Definition is_sep (c : ascii) : bool := Ascii.eqb c "-" || Ascii.eqb c " ".

Definition code_pattern : Regex.re :=
  Regex.Seq (Regex.Group (Regex.Exactly 4 is_alpha))
    (Regex.Seq (Regex.Opt is_sep) (Regex.Group (Regex.Exactly 4 is_digit))).

Definition getBaseCourseCode (raw : option string) : string :=
  match raw with
  | None => ""
  | Some s =>
      if negb (nonempty s) then ""
      else
        match Regex.exec code_pattern s with
        | Some m => toUpperCase (Regex.group 1 m) ++ "-" ++ Regex.group 2 m
        | None =>
            let str := toUpperCase (filter is_alnum s) in
            if (String.length str =? 8)%nat then slice_to 4 str ++ "-" ++ slice_from 4 str
            else if (String.length str =? 7)%nat then slice_to 4 str ++ "-" ++ slice_from 3 str
            else str
        end
  end.

(** [getLastName(fullName, lastNameOnly)]; a [fullName] that is not a string
    is [None]. *)
Definition getLastName (fullName lastNameOnly : option string) : string :=
  if truthy lastNameOnly then or_empty lastNameOnly
  else
    match fullName with
    | None => ""
    | Some full =>
        if negb (nonempty (trim full)) then ""
        else
          let trimmedName := trim full in
          if includes "," trimmedName then trim (hd "" (split "," trimmedName))
          else
            let parts := split " " trimmedName in
            List.last parts ""
    end.

(** ** Numbers and cells *)

Inductive number : Type :=
| NaN
| Infinity (negative : bool)
| Finite (q : Q).

Definition number_truthy (x : number) : bool :=
  match x with
  | NaN => false
  | Infinity _ => true
  | Finite q => negb (Qeq_bool q 0)
  end.

(** [x + y] *)
Definition number_add (x y : number) : number :=
  match x, y with
  | NaN, _ | _, NaN => NaN
  | Infinity a, Infinity b => if Bool.eqb a b then Infinity a else NaN
  | Infinity a, Finite _ => Infinity a
  | Finite _, Infinity b => Infinity b
  | Finite p, Finite q => Finite (p + q)
  end.

(** [x < y] *)
Definition number_lt (x y : number) : bool :=
  match x, y with
  | NaN, _ | _, NaN => false
  | Infinity a, Infinity b => a && negb b
  | Infinity a, Finite _ => a
  | Finite _, Infinity b => negb b
  | Finite p, Finite q => match (p ?= q)%Q with Lt => true | _ => false end
  end.

(** [x || 0] on numbers. *)
Definition or_zero (x : number) : number :=
  if number_truthy x then x else Finite 0.

(** The value of a field of a sheet row: missing, text or a number. *)
Inductive cell : Type :=
| Absent
| Text (s : string)
| Numeric (x : number).

Definition cell_truthy (c : cell) : bool :=
  match c with
  | Absent => false
  | Text s => nonempty s
  | Numeric x => number_truthy x
  end.

Fixpoint digit_value (acc : N) (s : string) : N :=
  match s with
  | EmptyString => acc
  | String c t => digit_value (acc * 10 + N.of_nat (code c - 48)) t
  end.

(** [Number(s)] and [parseInt(s)] for a string of decimal digits. *)
Definition Number (s : string) : N := digit_value 0 s.

(** The longest prefix of digits, and what follows it. *)
Fixpoint take_digits (s : string) : string * string :=
  match s with
  | String c t =>
      if is_digit c then let '(d, r) := take_digits t in (String c d, r)
      else (EmptyString, s)
  | EmptyString => (EmptyString, EmptyString)
  end.

Definition parse_sign (s : string) : bool * string :=
  match s with
  | String "-" t => (true, t)
  | String "+" t => (false, t)
  | _ => (false, s)
  end.

(** The exponent part [e±ddd] at the head of [s], or 0 when there is none. *)
Definition parse_exponent (s : string) : Z :=
  match s with
  | String c t =>
      if Ascii.eqb c "e" || Ascii.eqb c "E" then
        let '(neg, t1) := parse_sign t in
        let '(d, _) := take_digits t1 in
        if nonempty d then
          (if neg then - Z.of_N (Number d) else Z.of_N (Number d))%Z
        else 0%Z
      else 0%Z
  | EmptyString => 0%Z
  end.

(** [parseFloat(s)] on text: leading white space is skipped and the longest
    prefix that is a decimal literal is read; [NaN] when there is none. *)
Definition parseFloat_text (s : string) : number :=
  let '(neg, body) := parse_sign (trimStart s) in
  if String.prefix "Infinity" body then Infinity neg
  else
    let '(ip, r1) := take_digits body in
    let '(fp, r2) :=
      match r1 with
      | String "." t => take_digits t
      | _ => (EmptyString, r1)
      end in
    if negb (nonempty ip) && negb (nonempty fp) then NaN
    else
      let m := Z.of_N (Number (ip ++ fp)) in
      let m := (if neg then - m else m)%Z in
      let scale := (parse_exponent r2 - Z.of_nat (String.length fp))%Z in
      if (0 <=? scale)%Z then Finite (m * 10 ^ scale # 1)
      else Finite (m # Z.to_pos (10 ^ (- scale))).

(** [parseFloat(c)]: the argument is first converted to a string, and a
    number reads back as itself. *)
Definition parseFloat (c : cell) : number :=
  match c with
  | Absent => NaN
  | Text s => parseFloat_text s
  | Numeric x => x
  end.

(** [c ? parseFloat(c) : null] *)
Definition parsedOrNull (c : cell) : option number :=
  if cell_truthy c then Some (parseFloat c) else None.

(** ** Objects used as dictionaries

    An object literal [{}] inherits the properties of [Object.prototype];
    reading one of these keys before it has been written yields the
    inherited (truthy) value. *)
Definition prototype_keys : list string :=
  [ "constructor"; "__defineGetter__"; "__defineSetter__"; "hasOwnProperty";
    "__lookupGetter__"; "__lookupSetter__"; "isPrototypeOf";
    "propertyIsEnumerable"; "toString"; "valueOf"; "__proto__";
    "toLocaleString" ].

Definition inherited (k : string) : bool := existsb (String.eqb k) prototype_keys.

(** ** Records of the catalog *)

Module Row.
Record t : Type := {
  Course_ID : option string;
  Title : option string;
  base_course_quality : cell;
  base_instructor_quality : cell;
  base_difficulty : cell;
  base_work_required : cell;
  Section_ID : option string;
  Meetings_Days : option string;
  Meetings_Time : option string;
  Term : option string;
  CU : cell;
  Instructor : option string;
  Instructor_last : option string;
  review_rCourseQuality : cell;
  review_rInstructorQuality : cell;
  review_rDifficulty : cell;
  review_rWorkRequired : cell
}.
End Row.

Module PriceRow.
Record t : Type := { Course_ID : option string; Average_Price : cell }.
End PriceRow.

Module Instructor.
Record t : Type := {
  name : string;
  Course_Quality : option number;
  Instructor_Quality : option number;
  Difficulty : option number;
  Work_Required : option number
}.
End Instructor.

(** A section of a course. *)
Module Sec.
Record t : Type := {
  Session_ID : string;
  Meetings : string;
  Days : option string;
  Time : option string;
  Term : option string;
  Credits : cell;
  instructors : list Instructor.t
}.

(** [instructors.push(i)] *)
Definition push (i : Instructor.t) (s : t) : t :=
  {| Session_ID := Session_ID s; Meetings := Meetings s; Days := Days s;
     Time := Time s; Term := Term s; Credits := Credits s;
     instructors := instructors s ++ [i] |}.
End Sec.

(** A course while the catalog is being built: its sections are an object
    keyed by section id. *)
Module Entry.
Record t : Type := {
  Course_Code : string;
  Title : option string;
  course_rating : option number;
  instructor_rating : option number;
  difficulty_rating : option number;
  work_rating : option number;
  Average_Price : number;
  sections : gmap string Sec.t
}.

Definition with_sections (c : t) (ss : gmap string Sec.t) : t :=
  {| Course_Code := Course_Code c; Title := Title c;
     course_rating := course_rating c; instructor_rating := instructor_rating c;
     difficulty_rating := difficulty_rating c; work_rating := work_rating c;
     Average_Price := Average_Price c; sections := ss |}.
End Entry.

(** A course of the catalog: its sections are an array, and [Terms] and
    [Credits] are the joined labels. *)
Module Course.
Record t : Type := {
  Course_Code : string;
  Title : option string;
  course_rating : option number;
  instructor_rating : option number;
  difficulty_rating : option number;
  work_rating : option number;
  Average_Price : number;
  sections : list Sec.t;
  Terms : string;
  Credits : string
}.
End Course.

(** An entry of the selection list: the fields of the section ([...section])
    and those added by the calculator. *)
Module Selected.
Record t : Type := {
  section : Sec.t;
  Course_Code : string;
  Instructor : string;
  Price : number;
  isConflicting : bool
}.

Definition flag (e : t) : t :=
  {| section := section e; Course_Code := Course_Code e;
     Instructor := Instructor e; Price := Price e; isConflicting := true |}.
End Selected.

(** ** Conflict detection *)

(** [s.startsWith(c)] *)
Definition startsWith (c : ascii) (s : string) : bool :=
  match s with
  | String d _ => Ascii.eqb d c
  | EmptyString => false
  end.

Definition is_colon (c : ascii) : bool := Ascii.eqb c ":".

(** The pattern [(\d+:\d+)(\w+)] of [convertToMinutes]. *)
Definition clock_pattern : Regex.re :=
  Regex.Seq
    (Regex.Group (Regex.Seq (Regex.Plus is_digit)
                    (Regex.Seq (Regex.One is_colon) (Regex.Plus is_digit))))
    (Regex.Group (Regex.Plus is_word)).

Definition convertToMinutes (t : string) : N :=
  match Regex.exec clock_pattern t with
  | None => 0
  | Some m =>
      let time := Regex.group 1 m in
      let period := Regex.group 2 m in
      let fields := List.map Number (split ":" time) in
      let hours := nth 0 fields 0%N in
      let minutes := nth 1 fields 0%N in
      let hours :=
        if startsWith "p" (toLowerCase period) && negb (hours =? 12)%N
        then (hours + 12)%N else hours in
      let hours :=
        if startsWith "a" (toLowerCase period) && (hours =? 12)%N
        then 0%N else hours in
      (hours * 60 + minutes)%N
  end.

Record TimeRange : Type := { range_start : N; range_end : N }.

Definition parseTime (timeStr : option string) : TimeRange :=
  match timeStr with
  | None => {| range_start := 0; range_end := 0 |}
  | Some s =>
      if negb (nonempty s) || negb (includes "-" s)
      then {| range_start := 0; range_end := 0 |}
      else
        let parts := split "-" s in
        let startTime := nth 0 parts "" in
        let endTime := nth 1 parts "" in
        {| range_start := convertToMinutes startTime;
           range_end := convertToMinutes endTime |}
  end.

(** [daysA.some(day => daysB.includes(day))] *)
Definition dayConflict (daysA daysB : string) : bool :=
  existsb (fun day => includes day daysB) (chars daysA).

(** [timeA.start < timeB.end && timeB.start < timeA.end] *)
Definition overlaps (a b : TimeRange) : bool :=
  (range_start a <? range_end b)%N && (range_start b <? range_end a)%N.

Definition checkConflict (sectionA sectionB : Sec.t) : bool :=
  if negb (truthy (Sec.Days sectionA)) || negb (truthy (Sec.Time sectionA))
     || negb (truthy (Sec.Days sectionB)) || negb (truthy (Sec.Time sectionB))
  then false
  else
    let daysA := or_empty (Sec.Days sectionA) in
    let daysB := or_empty (Sec.Days sectionB) in
    if negb (dayConflict daysA daysB) then false
    else overlaps (parseTime (Sec.Time sectionA)) (parseTime (Sec.Time sectionB)).

(** ** Catalog builder *)

(** [priceMap]: the last price row of a code wins; a price that is not a
    number, or is zero, is stored as 0. *)
Definition price_step (acc : gmap string number) (r : PriceRow.t) : gmap string number :=
  let code := getBaseCourseCode (PriceRow.Course_ID r) in
  if nonempty code then <[code := or_zero (parseFloat (PriceRow.Average_Price r))]> acc
  else acc.

Definition priceMap (rows : list PriceRow.t) : gmap string number :=
  fold_left price_step rows ∅.

(** [priceMap[code] || 0] *)
Definition price_of (prices : gmap string number) (code : string) : number :=
  match prices !! code with
  | Some p => or_zero p
  | None => Finite 0
  end.

Definition new_course (prices : gmap string number) (code : string) (row : Row.t) : Entry.t :=
  {| Entry.Course_Code := code;
     Entry.Title := Row.Title row;
     Entry.course_rating := parsedOrNull (Row.base_course_quality row);
     Entry.instructor_rating := parsedOrNull (Row.base_instructor_quality row);
     Entry.difficulty_rating := parsedOrNull (Row.base_difficulty row);
     Entry.work_rating := parsedOrNull (Row.base_work_required row);
     Entry.Average_Price := price_of prices code;
     Entry.sections := ∅ |}.

Definition new_section (row : Row.t) : Sec.t :=
  {| Sec.Session_ID := or_empty (Row.Section_ID row);
     Sec.Meetings := trim (or_empty (Row.Meetings_Days row) ++ " "
                           ++ or_empty (Row.Meetings_Time row));
     Sec.Days := Row.Meetings_Days row;
     Sec.Time := Row.Meetings_Time row;
     Sec.Term := Row.Term row;
     Sec.Credits := Row.CU row;
     Sec.instructors := [] |}.

Definition new_instructor (row : Row.t) : Instructor.t :=
  {| Instructor.name := getLastName (Row.Instructor row) (Row.Instructor_last row);
     Instructor.Course_Quality := parsedOrNull (Row.review_rCourseQuality row);
     Instructor.Instructor_Quality := parsedOrNull (Row.review_rInstructorQuality row);
     Instructor.Difficulty := parsedOrNull (Row.review_rDifficulty row);
     Instructor.Work_Required := parsedOrNull (Row.review_rWorkRequired row) |}.

(** The section that receives the instructor of [row]: the one stored under
    the id, a new one when the id is free, and a [TypeError] when the id
    names an inherited property (the inherited value is truthy, so no section
    is created, and it has no [instructors]). *)
Definition section_for (ss : gmap string Sec.t) (row : Row.t) : option Sec.t :=
  let id := or_empty (Row.Section_ID row) in
  match ss !! id with
  | Some s => Some s
  | None => if inherited id then None else Some (new_section row)
  end.

(** The body of the reduction over the listing rows. *)
Definition course_step (prices : gmap string number)
    (acc : gmap string Entry.t) (row : Row.t) : option (gmap string Entry.t) :=
  let code := getBaseCourseCode (Row.Course_ID row) in
  if negb (nonempty code) then Some acc
  else
    let course :=
      match acc !! code with
      | Some c => c
      | None => new_course prices code row
      end in
    if truthy (Row.Section_ID row) then
      match section_for (Entry.sections course) row with
      | Some s =>
          let id := or_empty (Row.Section_ID row) in
          let s' := Sec.push (new_instructor row) s in
          Some (<[code := Entry.with_sections course (<[id := s']> (Entry.sections course))]> acc)
      | None => None
      end
    else Some (<[code := course]> acc).

(** [rows.reduce(f, acc)] for a body that may throw. *)
Fixpoint reduce {A R : Type} (f : A -> R -> option A) (acc : A) (rows : list R) : option A :=
  match rows with
  | [] => Some acc
  | r :: rs =>
      match f acc r with
      | Some acc' => reduce f acc' rs
      | None => None
      end
  end.

(** The reduction over the listing rows.  The pass that follows it in the
    program, which lists the sections of each course and joins their terms
    and credits, reads the result and changes none of the fields below. *)
Definition courseMap (prices : gmap string number) (rows : list Row.t)
  : option (gmap string Entry.t) :=
  reduce (course_step prices) ∅ rows.

(** ** Selection list, conflicts and total *)

(** [selectedSessions[id]] as a condition. *)
Definition isSelected (selectedSessions : gmap string bool) (id : string) : bool :=
  match selectedSessions !! id with
  | Some b => b
  | None => inherited id
  end.

Definition instructorText (s : Sec.t) : string :=
  match Sec.instructors s with
  | [] => "N/A"
  | [i] => Instructor.name i
  | _ :: _ :: _ => "Multiple Instructors"
  end.

(** The [list] filled by the two nested [forEach]. *)
Definition selection (courses : list Course.t) (selectedSessions : gmap string bool)
  : list Selected.t :=
  flat_map (fun course =>
    flat_map (fun s =>
      if isSelected selectedSessions (Sec.Session_ID s)
      then [ {| Selected.section := s;
                Selected.Course_Code := Course.Course_Code course;
                Selected.Instructor := instructorText s;
                Selected.Price := Course.Average_Price course;
                Selected.isConflicting := false |} ]
      else [])
      (Course.sections course))
    courses.

(** The body of the inner loop at indices [i] and [j]. *)
Definition check_pair (i : nat) (checkedList : list Selected.t) (j : nat) : list Selected.t :=
  match checkedList !! i, checkedList !! j with
  | Some a, Some b =>
      if checkConflict (Selected.section a) (Selected.section b)
      then alter Selected.flag j (alter Selected.flag i checkedList)
      else checkedList
  | _, _ => checkedList
  end.

(** [for (j = i + 1; j < length; j++)] *)
Definition inner_loop (checkedList : list Selected.t) (i : nat) : list Selected.t :=
  fold_left (check_pair i) (seq (S i) (length checkedList - S i)) checkedList.

(** [for (i = 0; i < length; i++)] *)
Definition markConflicts (checkedList : list Selected.t) : list Selected.t :=
  fold_left inner_loop (seq 0 (length checkedList)) checkedList.

Definition selectedList (courses : list Course.t) (selectedSessions : gmap string bool)
  : list Selected.t :=
  markConflicts (selection courses selectedSessions).

(** [checkedList.reduce((sum, s) => s.isConflicting ? sum : sum + s.Price, 0)] *)
Definition totalPrice (checkedList : list Selected.t) : number :=
  fold_left (fun sum s =>
               if Selected.isConflicting s then sum else number_add sum (Selected.Price s))
            checkedList (Finite 0).

Definition total (courses : list Course.t) (selectedSessions : gmap string bool) : number :=
  totalPrice (selectedList courses selectedSessions).

(** ** Calendar events *)

Module Event.
Record t : Type := {
  title : string;
  daysOfWeek : list nat;
  startTime : string;
  endTime : string;
  allDay : bool;
  color : string
}.
End Event.

Definition dayMap (day : ascii) : option nat :=
  if Ascii.eqb day "M" then Some 1
  else if Ascii.eqb day "T" then Some 2
  else if Ascii.eqb day "W" then Some 3
  else if Ascii.eqb day "R" then Some 4
  else if Ascii.eqb day "F" then Some 5
  else None.

Definition termColors (term : string) : option string :=
  if String.eqb term "Full" then Some "#3788d8"
  else if String.eqb term "Q1" then Some "#4caf50"
  else if String.eqb term "Q2" then Some "#ff9800"
  else None.

(** The pattern [(\d+):(\d+)(\w+)] of [formatTime]. *)
Definition clock_fields_pattern : Regex.re :=
  Regex.Seq (Regex.Group (Regex.Plus is_digit))
    (Regex.Seq (Regex.One is_colon)
       (Regex.Seq (Regex.Group (Regex.Plus is_digit)) (Regex.Group (Regex.Plus is_word)))).

(** [String(n)] for a natural number. *)
Definition N_to_string (n : N) : string :=
  NilEmpty.string_of_uint (N.to_uint n).

(** [s.padStart(2, '0')] *)
Definition padStart2 (s : string) : string :=
  match String.length s with
  | 0 => "00"
  | 1 => "0" ++ s
  | _ => s
  end.

Definition formatTime (timeStr : string) : string :=
  match Regex.exec clock_fields_pattern timeStr with
  | None => "00:00"
  | Some m =>
      let hours := Number (Regex.group 1 m) in
      let minutes := Regex.group 2 m in
      let period := Regex.group 3 m in
      let hours :=
        if startsWith "p" (toLowerCase period) && negb (hours =? 12)%N
        then (hours + 12)%N else hours in
      let hours :=
        if startsWith "a" (toLowerCase period) && (hours =? 12)%N
        then 0%N else hours in
      padStart2 (N_to_string hours) ++ ":" ++ minutes ++ ":00"
  end.

Definition termsToShow (calendarView : string) : list string :=
  if String.eqb calendarView "Overall" then ["Full"; "Q1"; "Q2"]
  else if String.eqb calendarView "Q1" then ["Full"; "Q1"]
  else ["Full"; "Q2"].

(** [terms.includes(term)] for a term that may be [undefined]. *)
Definition includesTerm (terms : list string) (term : option string) : bool :=
  match term with
  | Some t => existsb (String.eqb t) terms
  | None => false
  end.

(** The predicate of the [filter]. *)
Definition shown (calendarView : string) (s : Selected.t) : bool :=
  truthy (Sec.Time (Selected.section s))
  && truthy (Sec.Days (Selected.section s))
  && negb (Selected.isConflicting s)
  && includesTerm (termsToShow calendarView) (Sec.Term (Selected.section s)).

(** [days.split('').map(day => dayMap[day]).filter(Boolean)] *)
Definition weekdays (days : string) : list nat :=
  flat_map (fun day => match dayMap day with Some d => [d] | None => [] end) (chars days).

(** The body of the [flatMap]. *)
Definition eventsOf (s : Selected.t) : list Event.t :=
  let sec := Selected.section s in
  let parts := split "-" (or_empty (Sec.Time sec)) in
  let startTime := nth 0 parts "" in
  match nth_error parts 1 with
  | None => []
  | Some endTime =>
      if negb (nonempty startTime) || negb (nonempty endTime) then []
      else
        let days := weekdays (or_empty (Sec.Days sec)) in
        if (length days =? 0)%nat then []
        else
          [ {| Event.title := Selected.Course_Code s;
               Event.daysOfWeek := days;
               Event.startTime := formatTime startTime;
               Event.endTime := formatTime endTime;
               Event.allDay := false;
               Event.color :=
                 match termColors (or_empty (Sec.Term sec)) with
                 | Some c => c
                 | None => "#808080"
                 end |} ]
  end.

Definition calendarEvents (selectedList : list Selected.t) (calendarView : string)
  : list Event.t :=
  flat_map eventsOf (List.filter (shown calendarView) selectedList).

(** ** Sorting the filtered courses *)

(** The fields a sort can be requested on, by the kind of value they hold. *)
Inductive column : Type :=
| Strings (f : Course.t -> string)
| OptionalStrings (f : Course.t -> option string)
| Numbers (f : Course.t -> number)
| NullableNumbers (f : Course.t -> option number).

(** [course[key]] for the keys of the table header. *)
Definition column_of (key : string) : option column :=
  if String.eqb key "Course_Code" then Some (Strings Course.Course_Code)
  else if String.eqb key "Title" then Some (OptionalStrings Course.Title)
  else if String.eqb key "Average_Price" then Some (Numbers Course.Average_Price)
  else if String.eqb key "Terms" then Some (Strings Course.Terms)
  else if String.eqb key "Credits" then Some (Strings Course.Credits)
  else if String.eqb key "course_rating" then Some (NullableNumbers Course.course_rating)
  else if String.eqb key "instructor_rating" then Some (NullableNumbers Course.instructor_rating)
  else if String.eqb key "difficulty_rating" then Some (NullableNumbers Course.difficulty_rating)
  else if String.eqb key "work_rating" then Some (NullableNumbers Course.work_rating)
  else None.

(** [null] converts to 0 in a comparison. *)
Definition null_to_zero (o : option number) : number :=
  match o with Some x => x | None => Finite 0 end.

(** [a[key] < b[key]]: strings compare by code units, numbers by value, and
    a comparison with [undefined] or [NaN] is false. *)
Definition less (key : string) (a b : Course.t) : bool :=
  match column_of key with
  | Some (Strings f) => String.ltb (f a) (f b)
  | Some (OptionalStrings f) =>
      match f a, f b with
      | Some x, Some y => String.ltb x y
      | _, _ => false
      end
  | Some (Numbers f) => number_lt (f a) (f b)
  | Some (NullableNumbers f) => number_lt (null_to_zero (f a)) (null_to_zero (f b))
  | None => false
  end.

Record SortConfig : Type := { key : string; direction : string }.

(** The comparison function passed to [sort]. *)
Definition compareCourses (sortConfig : SortConfig) (a b : Course.t) : Z :=
  if less (key sortConfig) a b
  then (if String.eqb (direction sortConfig) "ascending" then -1 else 1)%Z
  else if less (key sortConfig) b a
  then (if String.eqb (direction sortConfig) "ascending" then 1 else -1)%Z
  else 0%Z.

(** [Array.prototype.sort(comparefn)].  The language fixes the result when
    [comparefn] is a consistent comparison function for the elements of the
    array: the sort is then stable, and its result is that of [sort], the
    insertion sort that moves an element to the right only past elements it
    compares greater than.  For a comparison that is not consistent, such
    as one of keys that hold [NaN], the language leaves the order to the
    engine, which still returns the elements of the array. *)
Fixpoint insert {A : Type} (comparefn : A -> A -> Z) (x : A) (l : list A) : list A :=
  match l with
  | [] => [x]
  | y :: t => if (0 <? comparefn x y)%Z then y :: insert comparefn x t else x :: y :: t
  end.

Fixpoint sort {A : Type} (comparefn : A -> A -> Z) (l : list A) : list A :=
  match l with
  | [] => []
  | x :: t => insert comparefn x (sort comparefn t)
  end.

(** [comparefn] is a consistent comparison function for the elements of
    [l]: it is reflexive and symmetric where it answers 0, and the three
    answers (negative, 0, positive) are each transitive. *)
Definition consistent {A : Type} (comparefn : A -> A -> Z) (l : list A) : Prop :=
  forall a b c, In a l -> In b l -> In c l ->
    comparefn a a = 0%Z
    /\ (comparefn a b = 0%Z -> comparefn b a = 0%Z)
    /\ (comparefn a b = 0%Z -> comparefn b c = 0%Z -> comparefn a c = 0%Z)
    /\ ((comparefn a b < 0)%Z -> (comparefn b c < 0)%Z -> (comparefn a c < 0)%Z)
    /\ ((0 < comparefn a b)%Z -> (0 < comparefn b c)%Z -> (0 < comparefn a c)%Z).

(** What the language asks of the sort of an engine: the result holds the
    elements of the array, and it is the stable sort when the comparison is
    consistent. *)
Definition conforming {A : Type} (arraySort : (A -> A -> Z) -> list A -> list A) : Prop :=
  forall comparefn l,
    Permutation l (arraySort comparefn l)
    /\ (consistent comparefn l -> arraySort comparefn l = sort comparefn l).

(** *** The sort of V8 on a short array

    On an array of fewer than 64 elements the sort of V8, the engine of Node
    and Chrome ([ArrayTimSort] of [builtins/array-sort.tq]), makes one run of
    the whole array: [CountAndMakeRun] finds the run the array begins with,
    reversing it when it descends, and [BinaryInsertionSort] inserts the
    remaining elements one by one at the place a binary search gives.  (On a
    longer array V8 merges several such runs; [shortArraySort] sorts every
    array the short way.) *)

(** The loop of [CountAndMakeRun]: the run goes on while the order of an
    element and the previous one is that of the run. *)
Fixpoint runAfter {A : Type} (comparefn : A -> A -> Z) (isDescending : bool)
    (previousElement : A) (l : list A) : list A * list A :=
  match l with
  | [] => ([], [])
  | currentElement :: t =>
      let order := comparefn currentElement previousElement in
      if (if isDescending then (0 <=? order)%Z else (order <? 0)%Z) then ([], l)
      else
        let '(run, rest) := runAfter comparefn isDescending currentElement t in
        (currentElement :: run, rest)
  end.

(** The run made, and the elements after it. *)
Definition countAndMakeRun {A : Type} (comparefn : A -> A -> Z) (l : list A)
  : list A * list A :=
  match l with
  | elementHigh :: elementLow :: t =>
      let isDescending := (comparefn elementLow elementHigh <? 0)%Z in
      let '(run, rest) := runAfter comparefn isDescending elementLow t in
      let whole := elementHigh :: elementLow :: run in
      (if isDescending then rev whole else whole, rest)
  | _ => (l, [])
  end.

(** The binary search of [BinaryInsertionSort], [while (left < right)]; the
    distance of [left] and [right] shrinks at every turn, so [right - left]
    turns are enough. *)
Fixpoint binarySearch {A : Type} (turns : nat) (comparefn : A -> A -> Z) (pivot : A)
    (a : list A) (left right : nat) : nat :=
  match turns with
  | O => left
  | S turns' =>
      if (left <? right)%nat then
        let mid := (left + (right - left) / 2)%nat in
        match a !! mid with
        | Some x =>
            if (comparefn pivot x <? 0)%Z
            then binarySearch turns' comparefn pivot a left mid
            else binarySearch turns' comparefn pivot a (S mid) right
        | None => left
        end
      else left
  end.

(** One turn of the outer loop: the pivot is put at the index found in the
    elements before it, which move one place to the right. *)
Definition binaryInsert {A : Type} (comparefn : A -> A -> Z) (sorted : list A) (pivot : A)
  : list A :=
  let left := binarySearch (length sorted) comparefn pivot sorted 0 (length sorted) in
  (take left sorted ++ pivot :: drop left sorted)%list.

Definition binaryInsertionSort {A : Type} (comparefn : A -> A -> Z) (run rest : list A)
  : list A :=
  fold_left (binaryInsert comparefn) rest run.

Definition shortArraySort {A : Type} (comparefn : A -> A -> Z) (l : list A) : list A :=
  let '(run, rest) := countAndMakeRun comparefn l in
  binaryInsertionSort comparefn run rest.

(** Arrays live in a heap. [[...a]] allocates a copy and [a.sort(f)] sorts
    the array at its address in place, with the sort of the engine. *)
Abbreviation heap := (gmap nat (list Course.t)) (only parsing).

Definition sortedCoursesOn (arraySort : (Course.t -> Course.t -> Z) -> list Course.t -> list Course.t)
    (filteredCourses : nat) (sortConfig : SortConfig) (h : heap) : option (nat * heap) :=
  match h !! filteredCourses with
  | None => None
  | Some l =>
      let arr := fresh (dom h) in
      let h1 := <[arr := l]> h in
      let h2 := alter (arraySort (compareCourses sortConfig)) arr h1 in
      Some (arr, h2)
  end.

(** [sortedCourses] on an engine whose sort is [sort]. *)
Definition sortedCourses (filteredCourses : nat) (sortConfig : SortConfig) (h : heap)
  : option (nat * heap) :=
  sortedCoursesOn sort filteredCourses sortConfig h.

(** ** State updates and derived views of [App]

    The functions below are the remaining handlers and memoised views of
    [App.js].  [String(x)] on a number is a function of the runtime that the
    exact-rational model of numbers cannot compute; the views that call it
    take it as the parameter [numberToString]. *)

(** [toggleSession(id)]: the update [prev => ({...prev, [id]: !prev[id]})]. *)
Definition toggleSession (id : string) (prev : gmap string bool) : gmap string bool :=
  <[id := negb (isSelected prev id)]> prev.

(** [requestSort(key)]: the update of the sort configuration. *)
Definition requestSort (k : string) (prev : SortConfig) : SortConfig :=
  {| key := k;
     direction :=
       if String.eqb (key prev) k && String.eqb (direction prev) "ascending"
       then "descending" else "ascending" |}.

(** The initial sort configuration. *)
Definition initialSort : SortConfig := {| key := "Course_Code"; direction := "ascending" |}.

Module Filters.
Record t : Type := {
  dept : string;
  day : string;
  time : string;
  term : string;
  credits : string
}.
End Filters.

(** The initial filters, also set by [resetFilters]. *)
Definition noFilters : Filters.t :=
  {| Filters.dept := ""; Filters.day := ""; Filters.time := "";
     Filters.term := ""; Filters.credits := "" |}.

(** [resetFilters()]: the new filters and the new search query. *)
Definition resetFilters : Filters.t * string := (noFilters, "").

(** [handleFilterChange(e)] for [e.target.name = name] and
    [e.target.value = value]; a name that is none of the five fields adds a
    property that nothing reads. *)
Definition handleFilterChange (name value : string) (prev : Filters.t) : Filters.t :=
  if String.eqb name "dept" then
    {| Filters.dept := value; Filters.day := Filters.day prev; Filters.time := Filters.time prev;
       Filters.term := Filters.term prev; Filters.credits := Filters.credits prev |}
  else if String.eqb name "day" then
    {| Filters.dept := Filters.dept prev; Filters.day := value; Filters.time := Filters.time prev;
       Filters.term := Filters.term prev; Filters.credits := Filters.credits prev |}
  else if String.eqb name "time" then
    {| Filters.dept := Filters.dept prev; Filters.day := Filters.day prev; Filters.time := value;
       Filters.term := Filters.term prev; Filters.credits := Filters.credits prev |}
  else if String.eqb name "term" then
    {| Filters.dept := Filters.dept prev; Filters.day := Filters.day prev;
       Filters.time := Filters.time prev; Filters.term := value;
       Filters.credits := Filters.credits prev |}
  else if String.eqb name "credits" then
    {| Filters.dept := Filters.dept prev; Filters.day := Filters.day prev;
       Filters.time := Filters.time prev; Filters.term := Filters.term prev;
       Filters.credits := value |}
  else prev.

(** [toLowerCase] on any string of code units below 256: the upper-case
    letters are A-Z and the letters from 192 to 222 other than the
    multiplication sign 215; each has its lower-case form 32 above. *)
Definition lower_latin1 (c : ascii) : ascii :=
  if is_upper c
     || ((192 <=? code c)%nat && (code c <=? 222)%nat && negb (code c =? 215)%nat)
  then ascii_of_nat (code c + 32) else c.

Definition toLowerCaseText : string -> string := JsString.map lower_latin1.

(** [hay.includes(needle)] *)
Fixpoint includesText (needle hay : string) : bool :=
  String.prefix needle hay
  || match hay with
     | String _ t => includesText needle t
     | EmptyString => false
     end.

(** [o === v] for a field [o] that is a string or [undefined] and a string
    [v]. *)
Definition strictEq (o : option string) (v : string) : bool :=
  match o with
  | Some s => String.eqb s v
  | None => false
  end.

(** [array.filter(f)] for a callback that may throw. *)
Fixpoint filter_throwing {A : Type} (f : A -> option bool) (l : list A) : option (list A) :=
  match l with
  | [] => Some []
  | x :: t =>
      match f x with
      | None => None
      | Some b =>
          match filter_throwing f t with
          | None => None
          | Some r => Some (if b then x :: r else r)
          end
      end
  end.

(** [matchesSearch]: the title is lowered only when the query is not empty
    and the code does not contain it; a missing title then throws. *)
Definition matchesSearch (lowerCaseQuery : string) (c : Course.t) : option bool :=
  if String.eqb lowerCaseQuery "" then Some true
  else if includesText lowerCaseQuery (toLowerCaseText (Course.Course_Code c)) then Some true
  else
    match Course.Title c with
    | None => None
    | Some title => Some (includesText lowerCaseQuery (toLowerCaseText title))
    end.

Section Views.

Variable numberToString : number -> string.

(** [String(c)] *)
Definition cellToString (c : cell) : string :=
  match c with
  | Absent => "undefined"
  | Text s => s
  | Numeric x => numberToString x
  end.

(** The conditions of [filteredCourses] after the search. *)
Definition matchesFilters (filters : Filters.t) (c : Course.t) : bool :=
  (negb (nonempty (Filters.dept filters))
   || String.prefix (Filters.dept filters) (Course.Course_Code c))
  && (negb (nonempty (Filters.day filters))
      || existsb (fun s => strictEq (Sec.Days s) (Filters.day filters)) (Course.sections c))
  && (negb (nonempty (Filters.time filters))
      || existsb (fun s => strictEq (Sec.Time s) (Filters.time filters)) (Course.sections c))
  && (negb (nonempty (Filters.term filters))
      || existsb (fun s => strictEq (Sec.Term s) (Filters.term filters)) (Course.sections c))
  && (negb (nonempty (Filters.credits filters))
      || existsb (fun s => String.eqb (cellToString (Sec.Credits s)) (Filters.credits filters))
           (Course.sections c)).

Definition filteredCourses (courses : list Course.t) (filters : Filters.t)
    (searchQuery : string) : option (list Course.t) :=
  let lowerCaseQuery := toLowerCaseText searchQuery in
  filter_throwing
    (fun c =>
       match matchesSearch lowerCaseQuery c with
       | None => None
       | Some found => Some (found && matchesFilters filters c)
       end)
    courses.

(** [isMatch] of the section table. *)
Definition isMatch (filters : Filters.t) (s : Sec.t) : bool :=
  (negb (nonempty (Filters.day filters)) || strictEq (Sec.Days s) (Filters.day filters))
  && (negb (nonempty (Filters.time filters)) || strictEq (Sec.Time s) (Filters.time filters))
  && (negb (nonempty (Filters.term filters)) || strictEq (Sec.Term s) (Filters.term filters))
  && (negb (nonempty (Filters.credits filters))
      || String.eqb (cellToString (Sec.Credits s)) (Filters.credits filters)).

End Views.

(** [[...new Set(l)]]: the distinct values of [l], each at its first
    occurrence. *)
Fixpoint setOf {A : Type} (eqb : A -> A -> bool) (l : list A) : list A :=
  match l with
  | [] => []
  | x :: t => x :: List.filter (fun y => negb (eqb x y)) (setOf eqb t)
  end.

(** Equality of two values that are strings or [undefined]. *)
Definition sameValue (a b : option string) : bool :=
  match a, b with
  | Some x, Some y => String.eqb x y
  | None, None => true
  | _, _ => false
  end.

(** The comparison of [sort()] without an argument, on strings. *)
Definition compareStrings (a b : string) : Z :=
  if String.ltb a b then (-1)%Z else if String.ltb b a then 1%Z else 0%Z.

(** [l.filter(Boolean)] on values that are strings or [undefined]. *)
Definition truthyStrings (l : list (option string)) : list string :=
  flat_map (fun o => if truthy o then [or_empty o] else []) l.

(** [[...new Set(values)].filter(Boolean).sort()] *)
Definition sortedOptions (values : list (option string)) : list string :=
  sort compareStrings (truthyStrings (setOf sameValue values)).

(** [courses.flatMap(c => c.sections || [])] *)
Definition allSections (courses : list Course.t) : list Sec.t :=
  flat_map Course.sections courses.

(** The fields of [filterOptions] that hold strings as they are. *)
Definition depts (courses : list Course.t) : list string :=
  sort compareStrings
    (setOf String.eqb (List.map (fun c => slice_to 4 (Course.Course_Code c)) courses)).

Definition uniqueDays (courses : list Course.t) : list string :=
  sortedOptions (List.map Sec.Days (allSections courses)).

Definition uniqueTimes (courses : list Course.t) : list string :=
  sortedOptions (List.map Sec.Time (allSections courses)).

Definition uniqueTerms (courses : list Course.t) : list string :=
  sortedOptions (List.map Sec.Term (allSections courses)).

(** [l.join(sep)] *)
Fixpoint join (sep : string) (l : list string) : string :=
  match l with
  | [] => ""
  | [x] => x
  | x :: t => x ++ sep ++ join sep t
  end.

(** The term labels of a course, [[...new Set(allTerms)].filter(Boolean)],
    and its [Terms]. *)
Definition termLabels (sectionsArray : list Sec.t) : list string :=
  truthyStrings (setOf sameValue (List.map Sec.Term sectionsArray)).

Definition joinedTerms (sectionsArray : list Sec.t) : string :=
  join ", " (termLabels sectionsArray).

(** [courses.find(c => c.Course_Code === detailCode)]; [detailCode] is
    [null] until a row is clicked. *)
Definition detailCourse (courses : list Course.t) (detailCode : option string)
  : option Course.t :=
  List.find (fun c => strictEq detailCode (Course.Course_Code c)) courses.

(** ** Notions used to state the properties *)

(** [s] begins with four letters, an optional hyphen or space, and four
    digits. *)
Definition code_here (s dept num : string) : Prop :=
  exists sep post,
    s = dept ++ sep ++ num ++ post
    /\ String.length dept = 4 /\ forallb is_alpha dept = true
    /\ (sep = "" \/ sep = "-" \/ sep = " ")
    /\ String.length num = 4 /\ forallb is_digit num = true.

(** [s] contains such a pattern. *)
Definition code_occurrence (s dept num : string) : Prop :=
  exists pre t, s = pre ++ t /\ code_here t dept num.

Definition has_code (s : string) : Prop := exists dept num, code_occurrence s dept num.

(** The text of [s] before the first occurrence of [c] (all of [s] when
    there is none). *)
Fixpoint before_first (c : ascii) (s : string) : string :=
  match s with
  | EmptyString => EmptyString
  | String d t => if Ascii.eqb d c then EmptyString else String d (before_first c t)
  end.

(** Two sections share a day letter. *)
Definition share_day (a b : Sec.t) : Prop :=
  exists day, In day (chars (or_empty (Sec.Days a))) /\ In day (chars (or_empty (Sec.Days b))).

(** The parsed time ranges of two sections overlap, end points excluded. *)
Definition ranges_overlap (a b : Sec.t) : Prop :=
  (range_start (parseTime (Sec.Time a)) < range_end (parseTime (Sec.Time b)))%N
  /\ (range_start (parseTime (Sec.Time b)) < range_end (parseTime (Sec.Time a)))%N.

(** Both the days and the time of a section are present. *)
Definition scheduled (a : Sec.t) : bool := truthy (Sec.Days a) && truthy (Sec.Time a).

(** What an entry of the selection list says apart from its flag. *)
Definition info (e : Selected.t) : Sec.t * string * string * number :=
  (Selected.section e, Selected.Course_Code e, Selected.Instructor e, Selected.Price e).

(** The flag of the entry at index [k] ([false] out of range). *)
Definition flagAt (l : list Selected.t) (k : nat) : bool :=
  match l !! k with
  | Some e => Selected.isConflicting e
  | None => false
  end.

(** The entries at indices [i] and [j] exist and conflict. *)
Definition conflictAt (l : list Selected.t) (i j : nat) : bool :=
  match l !! i, l !! j with
  | Some a, Some b => checkConflict (Selected.section a) (Selected.section b)
  | _, _ => false
  end.

(** A section with the given id, days, time and term, for examples. *)
Definition example_section (id : string) (days time term : option string) : Sec.t :=
  {| Sec.Session_ID := id;
     Sec.Meetings := trim (or_empty days ++ " " ++ or_empty time);
     Sec.Days := days; Sec.Time := time; Sec.Term := term;
     Sec.Credits := Numeric (Finite 1); Sec.instructors := [] |}.

(** No entry of the list is flagged. *)
Definition unflagged (l : list Selected.t) : Prop :=
  forall k e, l !! k = Some e -> Selected.isConflicting e = false.

(** The sum, from left to right, of the prices of the entries that are not
    flagged. *)
Definition sum_unflagged (l : list Selected.t) : number :=
  fold_left number_add
    (List.map Selected.Price (List.filter (fun e => negb (Selected.isConflicting e)) l))
    (Finite 0).

(** The sections of the catalog that are selected, in catalog order. *)
Definition selected_sections (courses : list Course.t) (selectedSessions : gmap string bool)
  : list Sec.t :=
  flat_map (fun c =>
    List.filter (fun s => isSelected selectedSessions (Sec.Session_ID s)) (Course.sections c))
    courses.

(** A course with one section, for examples. *)
Definition example_course (code : string) (price : Q) (s : Sec.t) : Course.t :=
  {| Course.Course_Code := code; Course.Title := Some code;
     Course.course_rating := None; Course.instructor_rating := None;
     Course.difficulty_rating := None; Course.work_rating := None;
     Course.Average_Price := Finite price; Course.sections := [s];
     Course.Terms := or_empty (Sec.Term s); Course.Credits := "1" |}.

(** Three courses priced 100, 200 and 300; the sections of the first two
    overlap on Wednesday. *)
Definition example_catalog : list Course.t :=
  [ example_course "ACCT-6110" 100
      (example_section "ACCT6110001" (Some "MW") (Some "9:00am-10:30am") (Some "Full"));
    example_course "FNCE-6130" 200
      (example_section "FNCE6130002" (Some "W") (Some "10:00am-11:00am") (Some "Q1"));
    example_course "MGMT-6110" 300
      (example_section "MGMT6110003" (Some "F") (Some "1:00pm-2:00pm") (Some "Q2")) ].

Definition example_choice : gmap string bool :=
  <["ACCT6110001" := true]> (<["FNCE6130002" := true]> (<["MGMT6110003" := true]> ∅)).

(** The conditions of the calendar filter: time and days present (and not
    empty), no conflict flag, term within the terms of the view. *)
Definition eligible (calendarView : string) (s : Selected.t) : Prop :=
  truthy (Sec.Time (Selected.section s)) = true
  /\ truthy (Sec.Days (Selected.section s)) = true
  /\ Selected.isConflicting s = false
  /\ exists term, Sec.Term (Selected.section s) = Some term
                  /\ In term (termsToShow calendarView).

(** The time has non-empty text before its first hyphen and between the
    first hyphen and the next one (or the end). *)
Definition well_timed (s : Selected.t) : Prop :=
  exists startTime endTime more,
    split "-" (or_empty (Sec.Time (Selected.section s))) = startTime :: endTime :: more
    /\ startTime <> "" /\ endTime <> "".

(** One of the day letters is a weekday letter. *)
Definition has_weekday (s : Selected.t) : Prop :=
  exists day, In day (chars (or_empty (Sec.Days (Selected.section s))))
              /\ In day ["M"; "T"; "W"; "R"; "F"]%char.

(** An unflagged entry of the selection list, for examples. *)
Definition example_entry (code : string) (days time term : option string) : Selected.t :=
  {| Selected.section := example_section code days time term;
     Selected.Course_Code := code; Selected.Instructor := "N/A";
     Selected.Price := Finite 100; Selected.isConflicting := false |}.

(** The canonical code of a listing row. *)
Definition code_of (row : Row.t) : string := getBaseCourseCode (Row.Course_ID row).

(** The row carries the section id [id] of the course [code]. *)
Definition targets (code id : string) (row : Row.t) : bool :=
  nonempty (code_of row)
  && String.eqb (code_of row) code
  && truthy (Row.Section_ID row)
  && String.eqb (or_empty (Row.Section_ID row)) id.

(** Two states of a course agree on what it was created with. *)
Definition same_course (c c' : Entry.t) : Prop :=
  Entry.Course_Code c' = Entry.Course_Code c
  /\ Entry.Title c' = Entry.Title c
  /\ Entry.course_rating c' = Entry.course_rating c
  /\ Entry.instructor_rating c' = Entry.instructor_rating c
  /\ Entry.difficulty_rating c' = Entry.difficulty_rating c
  /\ Entry.work_rating c' = Entry.work_rating c
  /\ Entry.Average_Price c' = Entry.Average_Price c.

(** Two states of a section agree on what it was created with. *)
Definition same_section (s s' : Sec.t) : Prop :=
  Sec.Session_ID s' = Sec.Session_ID s
  /\ Sec.Days s' = Sec.Days s
  /\ Sec.Time s' = Sec.Time s
  /\ Sec.Term s' = Sec.Term s
  /\ Sec.Credits s' = Sec.Credits s
  /\ Sec.Meetings s' = Sec.Meetings s.

(** The last price row whose canonical code is [code]. *)
Definition last_price_row (rows : list PriceRow.t) (code : string) : option PriceRow.t :=
  List.find (fun r => String.eqb (getBaseCourseCode (PriceRow.Course_ID r)) code) (rev rows).

(** A character that is neither a lower-case letter nor an underscore. *)
Definition plain (c : ascii) : bool := negb (is_lower c) && negb (code c =? 95)%nat.

(** A listing row, for examples: the course quality is given, the other
    ratings are missing. *)
Definition example_row (id section instructor : option string) (quality : cell) : Row.t :=
  {| Row.Course_ID := id; Row.Title := Some "Financial Accounting";
     Row.base_course_quality := quality; Row.base_instructor_quality := Absent;
     Row.base_difficulty := Text "N/A"; Row.base_work_required := Numeric (Finite 0);
     Row.Section_ID := section;
     Row.Meetings_Days := Some "MW"; Row.Meetings_Time := Some "9:00am-10:30am";
     Row.Term := Some "Full"; Row.CU := Numeric (Finite 1);
     Row.Instructor := instructor; Row.Instructor_last := None;
     Row.review_rCourseQuality := Text "3.1"; Row.review_rInstructorQuality := Absent;
     Row.review_rDifficulty := Absent; Row.review_rWorkRequired := Absent |}.

Definition example_prices : list PriceRow.t :=
  [ {| PriceRow.Course_ID := Some "ACCT 6110"; PriceRow.Average_Price := Numeric (Finite 1500) |};
    {| PriceRow.Course_ID := Some "FNCE 6130"; PriceRow.Average_Price := Text "n/a" |} ].

(** The first row of ACCT-6110 and a later row of the same section with a
    second instructor. *)
Definition example_first_row : Row.t :=
  example_row (Some "ACCT 6110") (Some "ACCT6110001") (Some "Smith, John") (Text "0").

Definition example_later_row : Row.t :=
  example_row (Some "acct6110") (Some "ACCT6110001") (Some "Jane Jones") (Text "3.5").

(** The accumulator after the first row. *)
Definition example_acc : gmap string Entry.t :=
  match course_step (priceMap example_prices) ∅ example_first_row with
  | Some acc => acc
  | None => ∅
  end.

(** An occurrence of [a] comes before an occurrence of [b] in [l]. *)
Definition before {A : Type} (a b : A) (l : list A) : Prop := sublist [a; b] l.

(** Consecutive elements are in the order of the comparison function. *)
Definition ordered {A : Type} (comparefn : A -> A -> Z) (l : list A) : Prop :=
  forall i x y, l !! i = Some x -> l !! S i = Some y -> (comparefn x y <= 0)%Z.

(** Three courses with the same price, and one cheaper, for examples. *)
Definition example_filtered : list Course.t :=
  [ example_course "MGMT-6110" 300 (example_section "M1" None None None);
    example_course "ACCT-6110" 300 (example_section "A1" None None None);
    example_course "STAT-6130" 100 (example_section "S1" None None None);
    example_course "FNCE-6130" 300 (example_section "F1" None None None) ].

Definition example_heap : heap := <[7%nat := example_filtered]> ∅.

(** A section of the catalog has the id of an inherited property. *)
Definition inherited_id (courses : list Course.t) : Prop :=
  exists s, In s (allSections courses) /\ inherited (Sec.Session_ID s) = true.

(** The time of the entry has no hyphen. *)
Definition hyphenless (e : Selected.t) : Prop :=
  includes "-" (or_empty (Sec.Time (Selected.section e))) = false.

(** The sum, from left to right, of the prices of all entries. *)
Definition sum_prices (l : list Selected.t) : number :=
  fold_left number_add (List.map Selected.Price l) (Finite 0).

(** The course makes the search throw: the lowered query is not empty, the
    lowered code does not contain it, and the title is missing. *)
Definition search_throws (searchQuery : string) (c : Course.t) : Prop :=
  toLowerCaseText searchQuery <> ""
  /\ includesText (toLowerCaseText searchQuery) (toLowerCaseText (Course.Course_Code c)) = false
  /\ Course.Title c = None.

(** Each element is less than the next one. *)
Definition ascending (l : list string) : Prop :=
  forall i x y, l !! i = Some x -> l !! S i = Some y -> String.ltb x y = true.

(** The section stored under [id] in the course stored under [code]. *)
Definition sectionAt (acc : gmap string Entry.t) (code id : string) : option Sec.t :=
  match acc !! code with
  | Some c => Entry.sections c !! id
  | None => None
  end.

(** What a course of the accumulator says apart from its sections. *)
Definition courseInfo (c : Entry.t)
  : string * option string * option number * option number * option number
    * option number * number :=
  (Entry.Course_Code c, Entry.Title c, Entry.course_rating c, Entry.instructor_rating c,
   Entry.difficulty_rating c, Entry.work_rating c, Entry.Average_Price c).

(** The row has the non-empty canonical code [code]. *)
Definition bears (code : string) (row : Row.t) : bool :=
  nonempty (code_of row) && String.eqb (code_of row) code.

(** The section made of the rows [rs] that name it: created from the first
    one, with one instructor entry per row, in order. *)
Definition section_of_rows (rs : list Row.t) : option Sec.t :=
  match rs with
  | [] => None
  | r :: _ =>
      Some (fold_left (fun s r' => Sec.push (new_instructor r') s) rs (new_section r))
  end.

(** No section of the accumulator is stored under the name of an inherited
    property. *)
Definition own_sections (acc : gmap string Entry.t) : Prop :=
  forall code id s, sectionAt acc code id = Some s -> inherited id = false.

(** The row makes the build throw. *)
Definition throwing_row (row : Row.t) : Prop :=
  code_of row <> "" /\ inherited (or_empty (Row.Section_ID row)) = true.

(** A character of a canonical code: an upper-case letter, a digit or a
    hyphen. *)
Definition code_char (c : ascii) : bool := is_upper c || is_digit c || Ascii.eqb c "-".

(** A way of matching [(\d+):(\d+)(\w+)] seen as one of [(\d+:\d+)(\w+)]:
    the first two groups and the colon between them make one group. *)
Definition merge_fields (w : Regex.way) : Regex.way :=
  Regex.Way (Regex.consumed w)
    (match Regex.groups w with
     | [h; m; p] => [h ++ ":" ++ m; p]
     | g => g
     end)
    (Regex.rest w).

(** No two courses of [l] tie under the sort key: one value is less than
    the other. *)
Definition no_ties (key : string) (l : list Course.t) : Prop :=
  ForallOrdPairs (fun a b => less key a b = true \/ less key b a = true) l.

(** The insertion that puts [x] after the elements it is not less than: the
    place the binary search finds in a sorted list. *)
Fixpoint insertAfter {A : Type} (comparefn : A -> A -> Z) (x : A) (l : list A) : list A :=
  match l with
  | [] => [x]
  | y :: t =>
      if (comparefn x y <? 0)%Z then x :: y :: t else y :: insertAfter comparefn x t
  end.

(** The elements of [l] are in the order of the comparison, also those
    that are not neighbours. *)
Definition sortedBy {A : Type} (comparefn : A -> A -> Z) (l : list A) : Prop :=
  StronglySorted (fun a b => (comparefn a b <= 0)%Z) l.

(** The value of the course under the sort key is neither [undefined] nor
    [NaN]. *)
Definition keyed (key : string) (c : Course.t) : bool :=
  match column_of key with
  | Some (Strings _) => true
  | Some (OptionalStrings f) => match f c with Some _ => true | None => false end
  | Some (Numbers f) => match f c with NaN => false | _ => true end
  | Some (NullableNumbers f) => match f c with Some NaN => false | _ => true end
  | None => false
  end.

(** A course with a rating, for examples. *)
Definition rated (code : string) (rating : number) : Course.t :=
  {| Course.Course_Code := code; Course.Title := Some code;
     Course.course_rating := Some rating; Course.instructor_rating := None;
     Course.difficulty_rating := None; Course.work_rating := None;
     Course.Average_Price := Finite 0; Course.sections := [];
     Course.Terms := ""; Course.Credits := "" |}.

(** Four courses rated 2, 1, [NaN] (the rating text was not a number) and
    1. *)
Definition example_rated : list Course.t :=
  [ rated "ACCT-6110" (Finite 2); rated "FNCE-6130" (Finite 1);
    rated "MGMT-6110" NaN; rated "STAT-6130" (Finite 1) ].

(** * Properties *)

(** ** The embedding at work *)

Example clock_match :
  Regex.exec clock_pattern "at 9:05pm" = Some ["9:05pm"; "9:05"; "pm"].
Proof. reflexivity. Qed.

(** Without a word character after the minutes, the last digit of the
    minutes is given up to the second group. *)
Example clock_backtracks :
  Regex.exec clock_pattern "9:05 pm" = Some ["9:05"; "9:0"; "5"].
Proof. reflexivity. Qed.

Example minutes_after_noon : convertToMinutes "12:15pm" = 735%N.
Proof. reflexivity. Qed.

Example minutes_after_midnight : convertToMinutes "12:15am" = 15%N.
Proof. reflexivity. Qed.

Example minutes_unparsed : convertToMinutes "noon" = 0%N.
Proof. reflexivity. Qed.

Example parseTime_range :
  parseTime (Some "1:30pm-3:00pm") = {| range_start := 810; range_end := 900 |}.
Proof. reflexivity. Qed.

Example parseFloat_prefix : parseFloat_text " 3.25 stars" = Finite 3.25.
Proof. reflexivity. Qed.

Example parseFloat_exponent : parseFloat_text "-1.5e2" = Finite (-150).
Proof. reflexivity. Qed.

Example formatTime_evening : formatTime "9:05pm" = "21:05:00".
Proof. reflexivity. Qed.

Example normalize_four_letters : getBaseCourseCode (Some "see acct6110x") = "ACCT-6110".
Proof. reflexivity. Qed.

Example normalize_eight : getBaseCourseCode (Some "AB-12/34cd") = "AB12-34CD".
Proof. reflexivity. Qed.

(** A section id that names an inherited property makes the build throw. *)
Example inherited_section_id_throws :
  course_step ∅ ∅ (example_row (Some "ACCT 6110") (Some "toString") None Absent) = None.
Proof. vm_compute. reflexivity. Qed.

Example sort_by_price_ascending :
  List.map Course.Course_Code
    (sort (compareCourses {| key := "Average_Price"; direction := "ascending" |})
       example_filtered)
  = ["STAT-6130"; "MGMT-6110"; "ACCT-6110"; "FNCE-6130"].
Proof. vm_compute. reflexivity. Qed.

Example sort_by_price_descending :
  List.map Course.Course_Code
    (sort (compareCourses {| key := "Average_Price"; direction := "descending" |})
       example_filtered)
  = ["MGMT-6110"; "ACCT-6110"; "FNCE-6130"; "STAT-6130"].
Proof. vm_compute. reflexivity. Qed.

Example calendar_event :
  calendarEvents
    [example_entry "ACCT-6110" (Some "MWS") (Some "9:00am-10:30am") (Some "Q1")] "Q1"
  = [ {| Event.title := "ACCT-6110"; Event.daysOfWeek := [1; 3]%nat;
         Event.startTime := "09:00:00"; Event.endTime := "10:30:00";
         Event.allDay := false; Event.color := "#4caf50" |} ].
Proof. reflexivity. Qed.

(** ** The course code pattern *)

Lemma sep_not_digit c : is_sep c = true -> is_digit c = false.
Proof.
  unfold is_sep. intros H. apply orb_true_iff in H as [H|H];
    apply Ascii.eqb_eq in H; subst; reflexivity.
Qed.

Lemma digit_not_sep c : is_digit c = true -> is_sep c = false.
Proof.
  intros H. destruct (is_sep c) eqn:E; [|reflexivity].
  apply sep_not_digit in E. congruence.
Qed.

Lemma is_sep_cases c : is_sep c = true -> String c "" = "-" \/ String c "" = " ".
Proof.
  unfold is_sep. intros H. apply orb_true_iff in H as [H|H];
    apply Ascii.eqb_eq in H; subst; auto.
Qed.

Ltac class_step s p :=
  destruct s as [|? s]; [cbn; intros; discriminate|];
  cbn;
  match goal with |- context [p ?a] => destruct (p a) eqn:?; cbn; [|intros; discriminate] end.

Ltac all_true :=
  cbn; repeat match goal with H : _ = true |- _ => rewrite H; clear H end; reflexivity.

Lemma run_code_head s w ws :
  Regex.run code_pattern s = w :: ws ->
  exists dept num, Regex.groups w = [dept; num] /\ code_here s dept num.
Proof.
  unfold code_pattern.
  do 4 class_step s is_alpha.
  destruct s as [|c5 s]; [cbn; intros; discriminate|].
  cbn. destruct (is_sep c5) eqn:Hsep; cbn.
  - rewrite (sep_not_digit _ Hsep). cbn.
    do 4 class_step s is_digit.
    intros H. injection H as <- _. cbn. do 2 eexists. split; [reflexivity|].
    exists (String c5 ""), s. 
    repeat split; try reflexivity; try all_true.
    destruct (is_sep_cases _ Hsep) as [->| ->]; auto.
  - destruct (is_digit c5) eqn:Hd5; cbn; [|intros; discriminate].
    do 3 class_step s is_digit.
    intros H. injection H as <- _. cbn. do 2 eexists. split; [reflexivity|].
    exists "", s. repeat split; try reflexivity; try all_true. auto.
Qed.

Ltac four s :=
  match goal with H : String.length s = 4 |- _ =>
    destruct s as [|? [|? [|? [|? [|? ?]]]]]; try discriminate H; clear H end.

Lemma run_code_nil s dept num :
  Regex.run code_pattern s = [] -> ~ code_here s dept num.
Proof.
  intros H (sep & post & -> & Hd & Ad & Hs & Hn & Dn).
  four dept. four num. cbn in Ad, Dn.
  repeat match goal with H : _ && _ = true |- _ => apply andb_true_iff in H as [? H] end.
  unfold code_pattern in H.
  destruct Hs as [->|[->| ->]]; cbn in H;
  repeat match goal with E : is_alpha _ = true |- _ => rewrite E in H; clear E end; cbn in H;
  try match goal with E : is_digit ?c = true |- _ => rewrite (digit_not_sep c E) in H end;
  cbn in H;
  repeat match goal with E : is_digit ?c = true |- _ => rewrite E in H; clear E end;
  cbn in H; discriminate.
Qed.

Lemma exec_code_some s m :
  Regex.exec code_pattern s = Some m ->
  exists dept num, Regex.group 1 m = dept /\ Regex.group 2 m = num /\ code_occurrence s dept num.
Proof.
  induction s as [|c s IH]; intros H.
  - cbn in H. discriminate.
  - cbn [Regex.exec] in H. destruct (Regex.run code_pattern (String c s)) as [|w ws] eqn:E.
    + destruct (IH H) as (d & n & H1 & H2 & pre & t & -> & Hh).
      exists d, n. repeat split; auto. exists (String c pre), t. split; [reflexivity|done].
    + injection H as <-. destruct (run_code_head _ _ _ E) as (d & n & Hg & Hh).
      exists d, n. unfold Regex.group. rewrite Hg. cbn. repeat split.
      exists "", (String c s). split; [reflexivity|done].
Qed.

Lemma exec_code_none s dept num :
  Regex.exec code_pattern s = None -> ~ code_occurrence s dept num.
Proof.
  induction s as [|c s IH]; intros H (pre & t & E & Hh).
  - destruct pre; [|discriminate]. cbn in E. subst t.
    apply (run_code_nil "" dept num); [reflexivity|done].
  - cbn [Regex.exec] in H.
    destruct (Regex.run code_pattern (String c s)) as [|w ws] eqn:R; [|discriminate].
    destruct pre as [|c' pre].
    + cbn in E. subst t. exact (run_code_nil _ _ _ R Hh).
    + cbn in E. injection E as -> ->. apply (IH H). exists pre, t. done.
Qed.

Lemma upper_char_alpha c : is_alpha c = true -> is_upper (upper_char c) = true.
Proof.
  destruct c as [[] [] [] [] [] [] [] []]; vm_compute; intros H;
    first [reflexivity | discriminate H].
Qed.

Lemma toUpperCase_alpha s :
  forallb is_alpha s = true -> forallb is_upper (toUpperCase s) = true.
Proof.
  induction s as [|c s IH]; cbn; [reflexivity|].
  intros H. apply andb_true_iff in H as [Hc Hs].
  rewrite (upper_char_alpha _ Hc). cbn. auto.
Qed.

Lemma has_code_exec s :
  has_code s <-> Regex.exec code_pattern s <> None.
Proof.
  split.
  - intros (d & n & H) E. exact (exec_code_none _ _ _ E H).
  - destruct (Regex.exec code_pattern s) as [m|] eqn:E; [|congruence].
    intros _. destruct (exec_code_some _ _ E) as (d & n & _ & _ & H). exists d, n. exact H.
Qed.

(** C4 (amended): the normaliser returns the empty string for an absent or
    empty identifier; for an identifier that contains four letters, an
    optional hyphen or space and four digits it returns the letters in upper
    case, a hyphen and the digits of such an occurrence; otherwise it cleans
    the identifier (alphanumerics only, upper case) and splits a result of 8
    characters as [0:4]-[4:8], one of 7 characters as [0:4]-[3:7], and
    returns any other result as it is.  "ACCT 6110", "acct6110" and
    "ACCT-6110" all give "ACCT-6110"; "CIS 1200", "cis1200" and "CIS-1200",
    whose department has three letters, all give "CIS1-1200". *)
Theorem getBaseCourseCode_tiers :
  (getBaseCourseCode None = "" /\ getBaseCourseCode (Some "") = "")
  /\ (forall s, has_code s ->
        exists dept num,
          code_occurrence s dept num
          /\ getBaseCourseCode (Some s) = toUpperCase dept ++ "-" ++ num
          /\ forallb is_upper (toUpperCase dept) = true)
  /\ (forall s, ~ has_code s ->
        let str := toUpperCase (filter is_alnum s) in
        (String.length str = 8 ->
           getBaseCourseCode (Some s) = slice_to 4 str ++ "-" ++ slice_from 4 str)
        /\ (String.length str = 7 ->
           getBaseCourseCode (Some s) = slice_to 4 str ++ "-" ++ slice_from 3 str)
        /\ (String.length str <> 8 -> String.length str <> 7 ->
           getBaseCourseCode (Some s) = str))
  /\ (getBaseCourseCode (Some "ACCT 6110") = "ACCT-6110"
      /\ getBaseCourseCode (Some "acct6110") = "ACCT-6110"
      /\ getBaseCourseCode (Some "ACCT-6110") = "ACCT-6110")
  /\ (getBaseCourseCode (Some "CIS 1200") = "CIS1-1200"
      /\ getBaseCourseCode (Some "cis1200") = "CIS1-1200"
      /\ getBaseCourseCode (Some "CIS-1200") = "CIS1-1200").
Proof.
  split; [split; reflexivity|].
  split.
  { intros s Hs. pose proof (proj1 (has_code_exec s) Hs) as Hx.
    destruct (Regex.exec code_pattern s) as [m|] eqn:E; [|congruence].
    destruct (exec_code_some _ _ E) as (d & n & H1 & H2 & Ho).
    exists d, n. split; [exact Ho|]. split.
    - unfold getBaseCourseCode. destruct s as [|c s]; [cbn in E; discriminate|].
      cbn [nonempty negb]. rewrite E, H1, H2. reflexivity.
    - destruct Ho as (pre & t & _ & sep & post & _ & _ & Ha & _).
      apply toUpperCase_alpha, Ha. }
  split.
  { intros s Hs str.
    assert (E : Regex.exec code_pattern s = None).
    { destruct (Regex.exec code_pattern s) eqn:E; [|reflexivity].
      exfalso. apply Hs, has_code_exec. congruence. }
    unfold getBaseCourseCode. destruct s as [|c s].
    - repeat split; intros; try reflexivity; discriminate.
    - cbn [nonempty negb]. rewrite E. fold str.
      repeat split.
      + intros ->. reflexivity.
      + intros ->. reflexivity.
      + intros H8 H7. apply Nat.eqb_neq in H8, H7. rewrite H8, H7. reflexivity. }
  repeat split; reflexivity.
Qed.

Lemma getBaseCourseCode_tiers_witness :
  (exists dept num,
     code_occurrence "see acct 6110" dept num
     /\ getBaseCourseCode (Some "see acct 6110") = toUpperCase dept ++ "-" ++ num
     /\ forallb is_upper (toUpperCase dept) = true)
  /\ getBaseCourseCode (Some "CIS 1200") = "CIS1-1200".
Proof.
  split.
  - apply (proj1 (proj2 getBaseCourseCode_tiers)).
    exists "acct", "6110", "see ", "acct 6110". split; [reflexivity|].
    exists " ", "". repeat split; auto.
  - refine (proj1 (proj2 (proj1 (proj2 (proj2 getBaseCourseCode_tiers)) "CIS 1200" _)) _).
    + intros (d & n & H). revert H. apply exec_code_none. reflexivity.
    + reflexivity.
Defined.

(** C4, as stated, fails: the three identifiers of the claim normalise to
    "CIS1-1200", not to "CIS-1200". *)
Lemma getBaseCourseCode_CIS_not_hyphenated :
  ~ (getBaseCourseCode (Some "CIS 1200") = "CIS-1200"
     /\ getBaseCourseCode (Some "cis1200") = "CIS-1200"
     /\ getBaseCourseCode (Some "CIS-1200") = "CIS-1200").
Proof.
  intros [H _]. vm_compute in H. discriminate H.
Qed.

(** ** The name resolver *)

Lemma split_hd c s : hd "" (split c s) = before_first c s.
Proof.
  induction s as [|d t IH]; cbn; [reflexivity|].
  destruct (Ascii.eqb d c); [reflexivity|].
  destruct (split c t) as [|p ps]; cbn in *; congruence.
Qed.

Lemma trimEnd_cons c t :
  is_space c = false -> trimEnd (String c t) = String c (trimEnd t).
Proof.
  intros H. cbn. rewrite H. destruct (trimEnd t); reflexivity.
Qed.

Lemma includes_trimEnd c s :
  is_space c = false -> includes c (trimEnd s) = includes c s.
Proof.
  intros Hc. induction s as [|d t IH]; [reflexivity|].
  cbn. destruct (trimEnd t) as [|r0 r] eqn:E.
  - cbn in IH. rewrite <- IH, orb_false_r.
    destruct (is_space d) eqn:Hd; cbn.
    + destruct (Ascii.eqb_spec c d) as [->|]; [congruence|reflexivity].
    + apply orb_false_r.
  - cbn [includes]. rewrite <- IH. reflexivity.
Qed.

Lemma includes_trimStart c s :
  is_space c = false -> includes c (trimStart s) = includes c s.
Proof.
  intros Hc. induction s as [|d t IH]; [reflexivity|].
  cbn. destruct (is_space d) eqn:Hd; [|reflexivity].
  rewrite IH. destruct (Ascii.eqb_spec c d) as [->|]; [congruence|reflexivity].
Qed.

Lemma includes_trim c s : is_space c = false -> includes c (trim s) = includes c s.
Proof.
  intros Hc. unfold trim. rewrite includes_trimEnd, includes_trimStart; auto.
Qed.

Lemma before_first_trimEnd c s :
  is_space c = false -> includes c s = true ->
  before_first c (trimEnd s) = before_first c s.
Proof.
  intros Hc. induction s as [|d t IH]; [reflexivity|].
  intros Hi. cbn [before_first]. destruct (Ascii.eqb_spec d c) as [->|Hne].
  - rewrite trimEnd_cons by assumption. cbn. rewrite Ascii.eqb_refl. reflexivity.
  - cbn in Hi. destruct (Ascii.eqb_spec c d) as [->|_]; [congruence|]. cbn in Hi.
    pose proof (includes_trimEnd c t Hc) as Ht. rewrite Hi in Ht.
    cbn [trimEnd]. destruct (trimEnd t) as [|r0 r] eqn:E; [cbn in Ht; discriminate|].
    cbn [before_first]. destruct (Ascii.eqb_spec d c) as [->|_]; [congruence|].
    f_equal. apply IH, Hi.
Qed.

Lemma trim_before_first_trimStart c s :
  is_space c = false ->
  trim (before_first c (trimStart s)) = trim (before_first c s).
Proof.
  intros Hc. induction s as [|d t IH]; [reflexivity|].
  cbn [trimStart]. destruct (is_space d) eqn:Hd; [|reflexivity].
  rewrite IH. cbn [before_first].
  destruct (Ascii.eqb_spec d c) as [->|_]; [congruence|].
  unfold trim. cbn [trimStart]. rewrite Hd. reflexivity.
Qed.

Lemma trim_before_first c s :
  is_space c = false -> includes c s = true ->
  trim (before_first c (trim s)) = trim (before_first c s).
Proof.
  intros Hc Hi. unfold trim at 2.
  rewrite before_first_trimEnd by (rewrite ?includes_trimStart; auto).
  apply trim_before_first_trimStart, Hc.
Qed.

(** C9 (amended): an override that is present and not empty is returned
    as it is; without one, a full name that contains a comma gives the text
    before its first comma, trimmed; a full name without a comma is trimmed
    and gives the last of the tokens between its single spaces; an absent or
    blank full name gives the empty string. *)
Theorem getLastName_contract (fullName lastNameOnly : option string) :
  (forall o, lastNameOnly = Some o -> o <> "" -> getLastName fullName lastNameOnly = o)
  /\ (truthy lastNameOnly = false ->
      (forall f, fullName = Some f -> includes "," f = true ->
         getLastName fullName lastNameOnly = trim (before_first "," f))
      /\ (forall f, fullName = Some f -> includes "," f = false ->
         getLastName fullName lastNameOnly = List.last (split " " (trim f)) "")
      /\ (fullName = None \/ (exists f, fullName = Some f /\ trim f = "") ->
         getLastName fullName lastNameOnly = ""))
  /\ (getLastName (Some "Smith, John") (Some "") = "Smith"
      /\ getLastName (Some "John Smith") (Some "") = "Smith"
      /\ getLastName (Some "John Smith") (Some "Jones") = "Jones").
Proof.
  split; [|split; [|repeat split; reflexivity]].
  - intros o -> Ho. unfold getLastName. destruct o; [congruence|reflexivity].
  - intros Hov. unfold getLastName. rewrite Hov. repeat split.
    + intros f -> Hi.
      assert (Hs : is_space "," = false) by reflexivity.
      pose proof (includes_trim "," f Hs) as Ht. rewrite Hi in Ht.
      destruct (trim f) as [|c r] eqn:E; [cbn in Ht; discriminate|].
      cbn [nonempty negb]. rewrite Ht, split_hd, <- E.
      apply trim_before_first; auto.
    + intros f -> Hi.
      assert (Hs : is_space "," = false) by reflexivity.
      pose proof (includes_trim "," f Hs) as Ht. rewrite Hi in Ht.
      destruct (trim f) as [|c r] eqn:E; [reflexivity|].
      cbn [nonempty negb]. rewrite Ht. reflexivity.
    + intros [->|(f & -> & E)]; [reflexivity|]. rewrite E. reflexivity.
Qed.

Lemma getLastName_contract_witness :
  getLastName (Some " Smith , John ") (Some "Jones") = "Jones"
  /\ getLastName (Some " Smith , John ") None = trim (before_first "," " Smith , John ")
  /\ getLastName (Some "Dr. John Smith ") None = List.last (split " " (trim "Dr. John Smith ")) ""
  /\ getLastName (Some "   ") None = "".
Proof.
  split; [|split; [|split]].
  - apply (proj1 (getLastName_contract (Some " Smith , John ") (Some "Jones")) "Jones");
      [reflexivity|discriminate].
  - apply (proj1 (proj1 (proj2 (getLastName_contract (Some " Smith , John ") None))
                    eq_refl) " Smith , John "); reflexivity.
  - apply (proj1 (proj2 (proj1 (proj2 (getLastName_contract (Some "Dr. John Smith ") None))
                    eq_refl)) "Dr. John Smith "); reflexivity.
  - apply (proj2 (proj2 (proj1 (proj2 (getLastName_contract (Some "   ") None)) eq_refl))).
    right. exists "   ". split; reflexivity.
Defined.

(** C9, as stated, fails: a full name that ends with a space is trimmed
    before it is split, so the result is its last word and not the empty
    last token of the name itself. *)
Lemma getLastName_trailing_space :
  getLastName (Some "John Smith ") (Some "") = "Smith"
  /\ List.last (split " " "John Smith ") "" = ""
  /\ getLastName (Some "John Smith ") (Some "") <> List.last (split " " "John Smith ") "".
Proof.
  split; [reflexivity|]. split; [reflexivity|]. vm_compute. discriminate.
Qed.

(** ** Conflicts between two sections *)

Lemma includes_In c s : includes c s = true <-> In c (chars s).
Proof.
  induction s as [|d t IH]; cbn.
  - split; [discriminate|tauto].
  - rewrite orb_true_iff, IH. unfold chars. cbn.
    destruct (Ascii.eqb_spec c d) as [->|Hne]; split; auto.
    + intros [H|H]; [discriminate|auto].
    + intros [H|H]; [congruence|auto].
Qed.

Lemma dayConflict_share daysA daysB :
  dayConflict daysA daysB = true <->
  exists day, In day (chars daysA) /\ In day (chars daysB).
Proof.
  unfold dayConflict. rewrite existsb_exists.
  split; intros (d & H1 & H2); exists d; split; auto; apply includes_In; auto.
Qed.

Lemma parseTime_falsy t : truthy t = false -> parseTime t = {| range_start := 0; range_end := 0 |}.
Proof.
  destruct t as [[|c s]|]; cbn; intros H; first [reflexivity | discriminate H].
Qed.

Lemma chars_falsy d : truthy d = false -> chars (or_empty d) = [].
Proof.
  destruct d as [[|c s]|]; cbn; intros H; first [reflexivity | discriminate H].
Qed.

Lemma checkConflict_iff A B :
  checkConflict A B = true <-> share_day A B /\ ranges_overlap A B.
Proof.
  unfold checkConflict, share_day, ranges_overlap.
  destruct (truthy (Sec.Days A)) eqn:DA; cbn [negb orb].
  2:{ rewrite (chars_falsy _ DA). split; [discriminate|]. intros [(d & [] & _) _]. }
  destruct (truthy (Sec.Time A)) eqn:TA; cbn [negb orb].
  2:{ rewrite (parseTime_falsy _ TA). cbn. split; [discriminate|]. intros [_ [_ H]]. lia. }
  destruct (truthy (Sec.Days B)) eqn:DB; cbn [negb orb].
  2:{ rewrite (chars_falsy _ DB). split; [discriminate|]. intros [(d & _ & []) _]. }
  destruct (truthy (Sec.Time B)) eqn:TB; cbn [negb orb].
  2:{ rewrite (parseTime_falsy _ TB). cbn. split; [discriminate|]. intros [_ [H _]]. lia. }
  destruct (dayConflict _ _) eqn:DC; cbn [negb].
  - apply dayConflict_share in DC. unfold overlaps.
    rewrite andb_true_iff, !N.ltb_lt. tauto.
  - split; [discriminate|]. intros [H _]. apply dayConflict_share in H. congruence.
Qed.

(** C1: two sections conflict exactly when they share a day letter and
    their parsed time ranges overlap under [startA < endB && startB < endA];
    a section whose days or time are absent conflicts with nothing; ranges
    that only touch (9:00am-10:00am and 10:00am-11:00am) do not conflict, and
    9:00am-10:30am conflicts with 10:00am-11:00am on a shared day. *)
Theorem checkConflict_spec :
  (forall A B, checkConflict A B = true <-> share_day A B /\ ranges_overlap A B)
  /\ (forall A B, scheduled A && scheduled B = false -> checkConflict A B = false)
  /\ (forall A B,
        Sec.Time A = Some "9:00am-10:00am" -> Sec.Time B = Some "10:00am-11:00am" ->
        checkConflict A B = false /\ checkConflict B A = false)
  /\ (forall A B,
        share_day A B ->
        Sec.Time A = Some "9:00am-10:30am" -> Sec.Time B = Some "10:00am-11:00am" ->
        checkConflict A B = true).
Proof.
  split; [exact checkConflict_iff|]. split; [|split].
  - intros A B H. unfold checkConflict, scheduled in *.
    destruct (truthy (Sec.Days A)), (truthy (Sec.Time A)),
      (truthy (Sec.Days B)), (truthy (Sec.Time B)); try reflexivity; discriminate H.
  - intros A B HA HB.
    split; apply not_true_is_false; rewrite checkConflict_iff;
      unfold ranges_overlap; rewrite HA, HB; vm_compute;
      intros [_ [H1 H2]]; first [discriminate H1 | discriminate H2].
  - intros A B Hd HA HB. apply checkConflict_iff. split; [exact Hd|].
    unfold ranges_overlap. rewrite HA, HB. vm_compute. split; reflexivity.
Qed.

Lemma checkConflict_spec_witness :
  checkConflict (example_section "a" (Some "MW") (Some "1:30pm-3:00pm") None)
                (example_section "b" (Some "WF") (Some "2:00pm-4:00pm") None) = true
  /\ checkConflict (example_section "a" None (Some "1:30pm-3:00pm") None)
                   (example_section "b" (Some "WF") (Some "2:00pm-4:00pm") None) = false
  /\ checkConflict (example_section "a" (Some "MW") (Some "9:00am-10:00am") None)
                   (example_section "b" (Some "W") (Some "10:00am-11:00am") None) = false
  /\ checkConflict (example_section "a" (Some "MW") (Some "9:00am-10:30am") None)
                   (example_section "b" (Some "W") (Some "10:00am-11:00am") None) = true.
Proof.
  split; [|split; [|split]].
  - apply (proj1 checkConflict_spec). split.
    + exists "W"%char. split; cbn; auto.
    + split; vm_compute; reflexivity.
  - apply (proj1 (proj2 checkConflict_spec)). reflexivity.
  - exact (proj1 (proj1 (proj2 (proj2 checkConflict_spec))
                    (example_section "a" (Some "MW") (Some "9:00am-10:00am") None)
                    (example_section "b" (Some "W") (Some "10:00am-11:00am") None)
                    eq_refl eq_refl)).
  - apply (proj2 (proj2 (proj2 checkConflict_spec))); [|reflexivity|reflexivity].
    exists "W"%char. split; cbn; auto.
Defined.

(** ** Conflicts within the selection list *)

Lemma checkConflict_sym A B : checkConflict A B = checkConflict B A.
Proof.
  apply eq_true_iff_eq. rewrite !checkConflict_iff.
  unfold share_day, ranges_overlap. split.
  - intros [(d & H1 & H2) [H3 H4]]. split; [exists d|]; auto.
  - intros [(d & H1 & H2) [H3 H4]]. split; [exists d|]; auto.
Qed.

Lemma conflictAt_sym l i j : conflictAt l i j = conflictAt l j i.
Proof.
  unfold conflictAt. destruct (l !! i), (l !! j); auto using checkConflict_sym.
Qed.

Lemma info_lookup l l' k :
  List.map info l = List.map info l' -> info <$> (l !! k) = info <$> (l' !! k).
Proof.
  intros H. rewrite <- !list_lookup_fmap. unfold fmap, list_fmap.
  change (List.map info l !! k = List.map info l' !! k). rewrite H. reflexivity.
Qed.

Lemma conflictAt_info l l' i j :
  List.map info l = List.map info l' -> conflictAt l i j = conflictAt l' i j.
Proof.
  intros H. unfold conflictAt.
  pose proof (info_lookup _ _ i H) as Hi. pose proof (info_lookup _ _ j H) as Hj.
  destruct (l !! i) as [a|], (l' !! i) as [a'|]; cbn in Hi; try discriminate; auto.
  destruct (l !! j) as [b|], (l' !! j) as [b'|]; cbn in Hj; try discriminate; auto.
  unfold info in *. congruence.
Qed.

Lemma map_info_alter_flag i l :
  List.map info (alter Selected.flag i l) = List.map info l.
Proof.
  revert i. induction l as [|e l IH]; intros [|i]; cbn; try reflexivity.
  f_equal. apply IH.
Qed.

Lemma flagAt_alter_flag i l k :
  flagAt (alter Selected.flag i l) k =
  flagAt l k || ((k =? i)%nat && (i <? length l)%nat).
Proof.
  unfold flagAt. destruct (Nat.eqb_spec k i) as [->|Hne].
  - rewrite list_lookup_alter_eq. destruct (l !! i) as [e|] eqn:E; cbn -[Nat.ltb].
    + apply lookup_lt_Some in E. apply Nat.ltb_lt in E. rewrite E, orb_true_r. reflexivity.
    + apply lookup_ge_None in E. apply Nat.ltb_ge in E. rewrite E. reflexivity.
  - rewrite list_lookup_alter_ne by auto. cbn. rewrite orb_false_r. reflexivity.
Qed.

Lemma existsb_ext {A : Type} (f g : A -> bool) (l : list A) :
  (forall x, f x = g x) -> existsb f l = existsb g l.
Proof.
  intros H. induction l as [|x l IH]; cbn; [reflexivity|]. rewrite H, IH. reflexivity.
Qed.

Lemma conflictAt_range l i j :
  conflictAt l i j = true -> (i < length l)%nat /\ (j < length l)%nat.
Proof.
  unfold conflictAt. destruct (l !! i) eqn:Ei; [|discriminate].
  destruct (l !! j) eqn:Ej; [|discriminate]. intros _.
  split; eapply lookup_lt_Some; eauto.
Qed.

Lemma check_pair_spec i j l :
  List.map info (check_pair i l j) = List.map info l
  /\ forall k, flagAt (check_pair i l j) k =
               flagAt l k || (((k =? i)%nat || (k =? j)%nat) && conflictAt l i j).
Proof.
  unfold check_pair.
  destruct (conflictAt l i j) eqn:C.
  - destruct (conflictAt_range _ _ _ C) as [Hi Hj].
    unfold conflictAt in C.
    destruct (l !! i) as [a|]; [|discriminate]. destruct (l !! j) as [b|]; [|discriminate].
    rewrite C. split.
    + rewrite !map_info_alter_flag. reflexivity.
    + intros k. rewrite !flagAt_alter_flag, length_alter.
      apply Nat.ltb_lt in Hi, Hj. rewrite Hi, Hj, !andb_true_r.
      rewrite <- orb_assoc. reflexivity.
  - unfold conflictAt in C.
    assert (E : match l !! i, l !! j with
                | Some a, Some b =>
                    if checkConflict (Selected.section a) (Selected.section b)
                    then alter Selected.flag j (alter Selected.flag i l) else l
                | _, _ => l
                end = l).
    { destruct (l !! i); [|reflexivity]. destruct (l !! j); [|reflexivity].
      rewrite C. reflexivity. }
    rewrite E. split; [reflexivity|]. intros k. rewrite andb_false_r, orb_false_r. reflexivity.
Qed.

Lemma fold_check_pair i js l :
  List.map info (fold_left (check_pair i) js l) = List.map info l
  /\ forall k, flagAt (fold_left (check_pair i) js l) k =
               flagAt l k
               || existsb (fun j => ((k =? i)%nat || (k =? j)%nat) && conflictAt l i j) js.
Proof.
  revert l. induction js as [|j js IH]; intros l; cbn.
  - split; [reflexivity|]. intros k. rewrite orb_false_r. reflexivity.
  - destruct (check_pair_spec i j l) as [Hm Hf].
    destruct (IH (check_pair i l j)) as [IHm IHf].
    split; [congruence|]. intros k. rewrite IHf, Hf, <- orb_assoc. f_equal. f_equal.
    apply existsb_ext. intros j'. f_equal. apply conflictAt_info, Hm.
Qed.

Lemma map_info_length l l' : List.map info l = List.map info l' -> length l = length l'.
Proof.
  intros H. apply (f_equal (@length _)) in H. rewrite !length_map in H. exact H.
Qed.

(** The pairs examined for the member [k]. *)
Lemma fold_inner_loop ixs l :
  List.map info (fold_left inner_loop ixs l) = List.map info l
  /\ forall k, flagAt (fold_left inner_loop ixs l) k =
               flagAt l k
               || existsb (fun i =>
                    existsb (fun j => ((k =? i)%nat || (k =? j)%nat) && conflictAt l i j)
                            (seq (S i) (length l - S i))) ixs.
Proof.
  revert l. induction ixs as [|i ixs IH]; intros l; cbn.
  - split; [reflexivity|]. intros k. rewrite orb_false_r. reflexivity.
  - unfold inner_loop at 2 4.
    destruct (fold_check_pair i (seq (S i) (length l - S i)) l) as [Hm Hf].
    destruct (IH (fold_left (check_pair i) (seq (S i) (length l - S i)) l)) as [IHm IHf].
    split; [congruence|]. intros k. rewrite IHf, Hf, <- orb_assoc. f_equal. f_equal.
    apply existsb_ext. intros i'. rewrite (map_info_length _ _ Hm).
    apply existsb_ext. intros j'. f_equal. apply conflictAt_info, Hm.
Qed.

Lemma markConflicts_info l : List.map info (markConflicts l) = List.map info l.
Proof. apply fold_inner_loop. Qed.

Lemma markConflicts_flag l k :
  flagAt (markConflicts l) k = true <->
  flagAt l k = true \/ exists j, j <> k /\ conflictAt l k j = true.
Proof.
  unfold markConflicts. rewrite (proj2 (fold_inner_loop _ l) k), orb_true_iff.
  apply or_iff_compat_l. rewrite existsb_exists. split.
  - intros (i & Hi & H). apply existsb_exists in H as (j & Hj & H).
    apply in_seq in Hi, Hj. apply andb_true_iff in H as [Hk C].
    apply orb_true_iff in Hk as [Hk|Hk]; apply Nat.eqb_eq in Hk; subst k.
    + exists j. split; [lia|exact C].
    + exists i. split; [lia|]. rewrite conflictAt_sym. exact C.
  - intros (j & Hne & C). destruct (conflictAt_range _ _ _ C) as [Hk Hj].
    destruct (Nat.lt_ge_cases k j) as [Hlt|Hge].
    + exists k. split; [apply in_seq; lia|]. apply existsb_exists. exists j.
      split; [apply in_seq; lia|]. rewrite Nat.eqb_refl, C. reflexivity.
    + exists j. split; [apply in_seq; lia|]. apply existsb_exists. exists k.
      split; [apply in_seq; lia|]. rewrite Nat.eqb_refl, orb_true_r, conflictAt_sym, C.
      reflexivity.
Qed.

Lemma selection_unflagged courses sel : unflagged (selection courses sel).
Proof.
  intros k e H. apply list_elem_of_lookup_2, list_elem_of_In in H.
  unfold selection in H. apply in_flat_map in H as (c & _ & H).
  apply in_flat_map in H as (s & _ & H).
  destruct (isSelected sel (Sec.Session_ID s)); [|destruct H].
  destruct H as [<-|[]]. reflexivity.
Qed.

Lemma markConflicts_entry l k e :
  unflagged l -> markConflicts l !! k = Some e ->
  (Selected.isConflicting e = true <->
   exists j e', j <> k /\ markConflicts l !! j = Some e'
                /\ checkConflict (Selected.section e) (Selected.section e') = true).
Proof.
  intros Hl He.
  assert (Hf : flagAt (markConflicts l) k = Selected.isConflicting e).
  { unfold flagAt. rewrite He. reflexivity. }
  rewrite <- Hf, markConflicts_flag.
  assert (H0 : flagAt l k = false).
  { unfold flagAt. destruct (l !! k) eqn:E; [eapply Hl; eauto|reflexivity]. }
  rewrite H0. split.
  - intros [H|(j & Hne & C)]; [discriminate|].
    rewrite <- (conflictAt_info _ _ k j (markConflicts_info l)) in C.
    unfold conflictAt in C. rewrite He in C.
    destruct (markConflicts l !! j) as [e'|] eqn:Ej; [|discriminate]. eauto.
  - intros (j & e' & Hne & Ej & C). right. exists j. split; [exact Hne|].
    rewrite <- (conflictAt_info _ _ k j (markConflicts_info l)).
    unfold conflictAt. rewrite He, Ej. exact C.
Qed.

(** C2: [checkConflict] is symmetric, and in the selection list an entry is
    flagged exactly when it conflicts with an entry at another index,
    whichever of the two comes first. *)
Theorem conflict_symmetric_and_flagged :
  (forall A B, checkConflict A B = checkConflict B A)
  /\ (forall checkedList k e,
        unflagged checkedList -> markConflicts checkedList !! k = Some e ->
        (Selected.isConflicting e = true <->
         exists j e', j <> k /\ markConflicts checkedList !! j = Some e'
                      /\ checkConflict (Selected.section e) (Selected.section e') = true))
  /\ (forall courses selectedSessions k e,
        selectedList courses selectedSessions !! k = Some e ->
        (Selected.isConflicting e = true <->
         exists j e', j <> k /\ selectedList courses selectedSessions !! j = Some e'
                      /\ checkConflict (Selected.section e) (Selected.section e') = true)).
Proof.
  split; [exact checkConflict_sym|]. split; [exact markConflicts_entry|].
  intros courses sel k e. apply markConflicts_entry, selection_unflagged.
Qed.

Lemma conflict_symmetric_and_flagged_witness :
  exists e,
    selectedList example_catalog example_choice !! 1%nat = Some e
    /\ Selected.Course_Code e = "FNCE-6130"
    /\ (Selected.isConflicting e = true <->
        exists j e', j <> 1%nat /\ selectedList example_catalog example_choice !! j = Some e'
                     /\ checkConflict (Selected.section e) (Selected.section e') = true).
Proof.
  eexists. split; [vm_compute; reflexivity|]. split; [reflexivity|].
  apply (proj2 (proj2 conflict_symmetric_and_flagged) example_catalog example_choice 1%nat).
  vm_compute. reflexivity.
Defined.

(** ** The total *)

Lemma totalPrice_fold l acc :
  fold_left (fun sum s =>
               if Selected.isConflicting s then sum else number_add sum (Selected.Price s))
            l acc
  = fold_left number_add
      (List.map Selected.Price (List.filter (fun e => negb (Selected.isConflicting e)) l))
      acc.
Proof.
  revert acc. induction l as [|e l IH]; intros acc; cbn; [reflexivity|].
  destruct (Selected.isConflicting e); cbn; apply IH.
Qed.

Lemma selection_sections courses sel :
  List.map Selected.section (selection courses sel) = selected_sections courses sel.
Proof.
  unfold selection, selected_sections.
  induction courses as [|c cs IH]; cbn; [reflexivity|].
  rewrite List.map_app, IH. f_equal.
  induction (Course.sections c) as [|s ss IHs]; cbn; [reflexivity|].
  destruct (isSelected sel (Sec.Session_ID s)); cbn; rewrite IHs; reflexivity.
Qed.

Lemma map_info_section l l' :
  List.map info l = List.map info l' ->
  List.map Selected.section l = List.map Selected.section l'
  /\ List.map Selected.Price l = List.map Selected.Price l'.
Proof.
  revert l'. induction l as [|e l IH]; intros [|e' l'] H; try discriminate; [split; reflexivity|].
  cbn in H. injection H as Hs Hc Hi Hp H. destruct (IH _ H) as [H1 H2].
  cbn. split; f_equal; assumption.
Qed.

(** C3: the total is the sum of the prices of the entries of the selection
    list that are not flagged; the selection list holds every selected
    section, flagged or not, with the price of its course; with three
    selected sections priced 100, 200 and 300 of which the first two
    conflict, the list has three entries and the total is 300. *)
Theorem total_excludes_conflicts :
  (forall courses selectedSessions,
     total courses selectedSessions = sum_unflagged (selectedList courses selectedSessions)
     /\ List.map Selected.section (selectedList courses selectedSessions)
        = selected_sections courses selectedSessions)
  /\ (List.map Selected.Price (selectedList example_catalog example_choice)
        = [Finite 100; Finite 200; Finite 300]
      /\ List.map Selected.isConflicting (selectedList example_catalog example_choice)
        = [true; true; false]
      /\ total example_catalog example_choice = Finite 300).
Proof.
  split.
  - intros courses sel. split.
    + unfold total, totalPrice, sum_unflagged. apply totalPrice_fold.
    + unfold selectedList.
      rewrite (proj1 (map_info_section _ _ (markConflicts_info _))).
      apply selection_sections.
  - repeat split; vm_compute; reflexivity.
Qed.

(** ** Calendar events *)

Lemma calendarEvents_app l1 l2 view :
  calendarEvents (l1 ++ l2)%list view = (calendarEvents l1 view ++ calendarEvents l2 view)%list.
Proof.
  unfold calendarEvents. rewrite List.filter_app, flat_map_app. reflexivity.
Qed.

Lemma calendarEvents_one s view :
  calendarEvents [s] view = if shown view s then eventsOf s else [].
Proof.
  unfold calendarEvents. cbn. destruct (shown view s); cbn; [apply app_nil_r|reflexivity].
Qed.

Lemma nonempty_true s : nonempty s = true <-> s <> "".
Proof. destruct s; cbn; split; congruence. Qed.

Lemma shown_eligible view s : shown view s = true <-> eligible view s.
Proof.
  unfold shown, eligible. rewrite !andb_true_iff, negb_true_iff.
  assert (H : includesTerm (termsToShow view) (Sec.Term (Selected.section s)) = true <->
              exists term, Sec.Term (Selected.section s) = Some term
                           /\ In term (termsToShow view)).
  { unfold includesTerm. destruct (Sec.Term (Selected.section s)) as [t|].
    - rewrite existsb_exists. split.
      + intros (x & Hx & E). apply String.eqb_eq in E. subst x. eauto.
      + intros (x & [= <-] & Hx). exists t. split; [exact Hx|apply String.eqb_refl].
    - split; [discriminate|]. intros (x & E & _). discriminate. }
  rewrite H. tauto.
Qed.

Lemma dayMap_weekday day :
  dayMap day <> None <-> In day ["M"; "T"; "W"; "R"; "F"]%char.
Proof.
  unfold dayMap. cbn [In].
  destruct (Ascii.eqb_spec day "M"); [split; [auto|discriminate]|].
  destruct (Ascii.eqb_spec day "T"); [split; [auto|discriminate]|].
  destruct (Ascii.eqb_spec day "W"); [split; [auto|discriminate]|].
  destruct (Ascii.eqb_spec day "R"); [split; [auto 6|discriminate]|].
  destruct (Ascii.eqb_spec day "F"); [split; [auto 6|discriminate]|].
  split; [congruence|]. intros [H|[H|[H|[H|[H|[]]]]]]; congruence.
Qed.

Lemma weekdays_nonempty days :
  weekdays days <> [] <->
  exists day, In day (chars days) /\ In day ["M"; "T"; "W"; "R"; "F"]%char.
Proof.
  unfold weekdays. induction (chars days) as [|d ds IH]; cbn [flat_map In].
  - split; [congruence|]. intros (d & [] & _).
  - destruct (dayMap d) as [n|] eqn:E.
    + split; [|discriminate]. intros _. exists d. split; [auto|].
      apply dayMap_weekday. congruence.
    + cbn [app]. rewrite IH. split.
      * intros (x & H1 & H2). exists x. auto.
      * intros (x & [->|H1] & H2); [|eauto].
        apply dayMap_weekday in H2. congruence.
Qed.

Lemma eventsOf_nonempty s : eventsOf s <> [] <-> well_timed s /\ has_weekday s.
Proof.
  unfold eventsOf, well_timed, has_weekday.
  rewrite <- weekdays_nonempty.
  destruct (split "-" (or_empty (Sec.Time (Selected.section s)))) as [|p0 [|p1 ps]];
    cbn [nth nth_error].
  - split; [congruence|]. intros [(a & b & m & E & _) _]. discriminate.
  - split; [congruence|]. intros [(a & b & m & E & _) _]. discriminate.
  - destruct (nonempty p0) eqn:N0; cbn [negb orb].
    2:{ split; [congruence|]. intros [(a & b & m & [= <- <- <-] & Ha & _) _].
        destruct p0; cbn in N0; congruence. }
    destruct (nonempty p1) eqn:N1; cbn [negb orb].
    2:{ split; [congruence|]. intros [(a & b & m & [= <- <- <-] & _ & Hb) _].
        destruct p1; cbn in N1; congruence. }
    apply nonempty_true in N0, N1.
    destruct (weekdays (or_empty (Sec.Days (Selected.section s)))) as [|d ds] eqn:W;
      cbn [length Nat.eqb].
    + split; [congruence|]. intros [_ H]. congruence.
    + split; [|discriminate]. intros _. split; [|discriminate].
      exists p0, p1, ps. auto.
Qed.

(** C5 (amended): an entry of the selection list yields a calendar event
    exactly when its time and days are present and not empty, it is not
    flagged conflicting, its term is among the terms of the view (Overall:
    Full, Q1, Q2; Q1: Full, Q1; Q2: Full, Q2), its time has non-empty text on
    both sides of its first hyphen, and one of its day letters is M, T, W, R
    or F.  The events of a list are those of its entries, in order.  An
    entry of term Full yields the same events under the three views; an
    entry of term Q1 yields under Q1 what it yields under Overall, and
    nothing under Q2. *)
Theorem calendarEvents_scope :
  (termsToShow "Overall" = ["Full"; "Q1"; "Q2"]
   /\ termsToShow "Q1" = ["Full"; "Q1"]
   /\ termsToShow "Q2" = ["Full"; "Q2"])
  /\ (forall l1 l2 view,
        calendarEvents (l1 ++ l2)%list view
        = (calendarEvents l1 view ++ calendarEvents l2 view)%list)
  /\ (forall s view,
        calendarEvents [s] view <> [] <-> eligible view s /\ well_timed s /\ has_weekday s)
  /\ (forall s,
        Sec.Term (Selected.section s) = Some "Full" ->
        calendarEvents [s] "Q1" = calendarEvents [s] "Overall"
        /\ calendarEvents [s] "Q2" = calendarEvents [s] "Overall")
  /\ (forall s,
        Sec.Term (Selected.section s) = Some "Q1" ->
        calendarEvents [s] "Q1" = calendarEvents [s] "Overall"
        /\ calendarEvents [s] "Q2" = []).
Proof.
  split; [repeat split; reflexivity|].
  split; [exact calendarEvents_app|].
  split; [|split].
  - intros s view. rewrite calendarEvents_one, <- shown_eligible.
    destruct (shown view s).
    + rewrite eventsOf_nonempty. tauto.
    + split; [congruence|]. intros [H _]. discriminate.
  - intros s Ht. rewrite !calendarEvents_one. unfold shown. rewrite Ht. split; reflexivity.
  - intros s Ht. rewrite !calendarEvents_one. unfold shown. rewrite Ht. split; [reflexivity|].
    cbn. rewrite andb_false_r. reflexivity.
Qed.

Lemma calendarEvents_scope_witness :
  calendarEvents [example_entry "ACCT-6110" (Some "MW") (Some "9:00am-10:30am") (Some "Q1")]
                 "Overall" <> []
  /\ calendarEvents [example_entry "FNCE-6130" (Some "TR") (Some "1:30pm-3:00pm") (Some "Full")]
                    "Q2"
     = calendarEvents [example_entry "FNCE-6130" (Some "TR") (Some "1:30pm-3:00pm") (Some "Full")]
                      "Overall"
  /\ calendarEvents [example_entry "ACCT-6110" (Some "MW") (Some "9:00am-10:30am") (Some "Q1")]
                    "Q2" = [].
Proof.
  split; [|split].
  - apply (proj1 (proj2 (proj2 calendarEvents_scope))). split; [|split].
    + repeat split; try reflexivity. exists "Q1". split; [reflexivity|]. cbn. auto.
    + exists "9:00am", "10:30am", []. split; [reflexivity|split; discriminate].
    + exists "M"%char. split; cbn; auto.
  - apply (proj1 (proj2 (proj2 (proj2 calendarEvents_scope)))). reflexivity.
  - apply (proj2 (proj2 (proj2 (proj2 calendarEvents_scope)))). reflexivity.
Defined.

(** C5, as stated, fails: a section that meets on Saturday only passes the
    three conditions of the claim and yields no calendar event. *)
Lemma calendarEvents_saturday :
  ~ (calendarEvents
       [example_entry "MGMT-6110" (Some "S") (Some "9:00am-12:00pm") (Some "Full")] "Overall"
     <> []
     <-> eligible "Overall"
           (example_entry "MGMT-6110" (Some "S") (Some "9:00am-12:00pm") (Some "Full"))).
Proof.
  intros [_ H]. apply H; [|reflexivity].
  repeat split; try reflexivity. exists "Full". split; [reflexivity|]. cbn. auto.
Qed.

(** ** The catalog builder *)

Lemma same_course_refl c : same_course c c.
Proof. repeat split. Qed.

Lemma same_section_refl s : same_section s s.
Proof. repeat split. Qed.

Lemma course_step_dropped prices acc row :
  code_of row = "" -> course_step prices acc row = Some acc.
Proof.
  unfold course_step, code_of. intros ->. reflexivity.
Qed.

(** The only way for a step to throw. *)
Lemma course_step_throws prices acc row :
  course_step prices acc row = None ->
  inherited (or_empty (Row.Section_ID row)) = true.
Proof.
  unfold course_step.
  destruct (negb (nonempty _)); [discriminate|].
  destruct (truthy (Row.Section_ID row)); [|discriminate].
  unfold section_for.
  destruct (_ !! or_empty (Row.Section_ID row)); [discriminate|].
  destruct (inherited _); [reflexivity|discriminate].
Qed.

Lemma course_step_created prices acc row acc' :
  acc !! code_of row = None -> code_of row <> "" ->
  course_step prices acc row = Some acc' ->
  exists c, acc' !! code_of row = Some c /\ same_course (new_course prices (code_of row) row) c.
Proof.
  unfold course_step, code_of. intros Hnone Hne.
  destruct (getBaseCourseCode (Row.Course_ID row)) as [|c0 code] eqn:E; [congruence|].
  cbn [nonempty negb]. rewrite Hnone.
  destruct (truthy (Row.Section_ID row)).
  - destruct (section_for _ row); [|discriminate]. intros [= <-].
    rewrite lookup_insert_eq. eexists. split; [reflexivity|]. repeat split.
  - intros [= <-]. rewrite lookup_insert_eq. eexists. split; [reflexivity|]. repeat split.
Qed.

Lemma frame_unchanged (acc' : gmap string Entry.t) code c row :
  acc' !! code = Some c -> (forall id, targets code id row = false) ->
  exists c', acc' !! code = Some c' /\ same_course c c'
    /\ forall id s, Entry.sections c !! id = Some s ->
         exists s', Entry.sections c' !! id = Some s' /\ same_section s s'
           /\ Sec.instructors s' =
              (Sec.instructors s
               ++ (if targets code id row then [new_instructor row] else []))%list.
Proof.
  intros Hc' Hb. exists c. split; [exact Hc'|]. split; [apply same_course_refl|].
  intros id s Hs. exists s. split; [exact Hs|]. split; [apply same_section_refl|].
  rewrite Hb, app_nil_r. reflexivity.
Qed.

Lemma course_step_frame prices acc row acc' code c :
  course_step prices acc row = Some acc' -> acc !! code = Some c ->
  exists c', acc' !! code = Some c' /\ same_course c c'
    /\ forall id s, Entry.sections c !! id = Some s ->
         exists s', Entry.sections c' !! id = Some s' /\ same_section s s'
           /\ Sec.instructors s' =
              (Sec.instructors s
               ++ (if targets code id row then [new_instructor row] else []))%list.
Proof.
  intros Hstep Hc.
  unfold course_step in Hstep. fold (code_of row) in Hstep.
  destruct (nonempty (code_of row)) eqn:Hn; cbn [negb] in Hstep.
  2:{ injection Hstep as <-. apply frame_unchanged; [exact Hc|].
      intros id. unfold targets. rewrite Hn. reflexivity. }
  destruct (String.eqb_spec (code_of row) code) as [E|NE].
  2:{ apply frame_unchanged.
      - destruct (truthy (Row.Section_ID row)).
        + destruct (section_for _ row); [|discriminate]. injection Hstep as <-.
          rewrite lookup_insert_ne by exact NE. exact Hc.
        + injection Hstep as <-. rewrite lookup_insert_ne by exact NE. exact Hc.
      - intros id. unfold targets.
        destruct (String.eqb_spec (code_of row) code); [contradiction|].
        rewrite andb_false_r. reflexivity. }
  rewrite E, Hc in Hstep.
  destruct (truthy (Row.Section_ID row)) eqn:Ht.
  2:{ injection Hstep as <-. apply frame_unchanged; [apply lookup_insert_eq|].
      intros id. unfold targets. rewrite Ht, andb_false_r. reflexivity. }
  assert (Htg : forall id, targets code id row = String.eqb (or_empty (Row.Section_ID row)) id).
  { intros id. unfold targets. rewrite Hn, Ht, E, String.eqb_refl. reflexivity. }
  unfold section_for in Hstep.
  set (sid := or_empty (Row.Section_ID row)) in *.
  destruct (Entry.sections c !! sid) as [s0|] eqn:Es.
  - injection Hstep as <-. rewrite lookup_insert_eq. eexists. split; [reflexivity|].
    split; [repeat split|]. intros id s Hs. cbn [Entry.with_sections Entry.sections].
    rewrite Htg. destruct (String.eqb_spec sid id) as [<-|Hne].
    + rewrite lookup_insert_eq. eexists. split; [reflexivity|].
      assert (s0 = s) as -> by congruence. split; [repeat split|reflexivity].
    + rewrite lookup_insert_ne by exact Hne. exists s. split; [exact Hs|].
      split; [apply same_section_refl|]. rewrite app_nil_r. reflexivity.
  - destruct (inherited sid); [discriminate|].
    injection Hstep as <-. rewrite lookup_insert_eq. eexists. split; [reflexivity|].
    split; [repeat split|]. intros id s Hs. cbn [Entry.with_sections Entry.sections].
    rewrite Htg. destruct (String.eqb_spec sid id) as [<-|Hne]; [congruence|].
    rewrite lookup_insert_ne by exact Hne. exists s. split; [exact Hs|].
    split; [apply same_section_refl|]. rewrite app_nil_r. reflexivity.
Qed.

Lemma same_course_trans a b c : same_course a b -> same_course b c -> same_course a c.
Proof.
  unfold same_course. intros (?&?&?&?&?&?&?) (?&?&?&?&?&?&?). repeat split; congruence.
Qed.

Lemma same_section_trans a b c : same_section a b -> same_section b c -> same_section a c.
Proof.
  unfold same_section. intros (?&?&?&?&?&?) (?&?&?&?&?&?). repeat split; congruence.
Qed.

Lemma reduce_frame prices rows : forall acc acc' code c,
  reduce (course_step prices) acc rows = Some acc' -> acc !! code = Some c ->
  exists c', acc' !! code = Some c' /\ same_course c c'
    /\ forall id s, Entry.sections c !! id = Some s ->
         exists s', Entry.sections c' !! id = Some s' /\ same_section s s'
           /\ Sec.instructors s' =
              (Sec.instructors s
               ++ List.map new_instructor (List.filter (targets code id) rows))%list.
Proof.
  induction rows as [|row rows IH]; intros acc acc' code c Hred Hc; cbn in Hred.
  - injection Hred as <-. exists c. split; [exact Hc|]. split; [apply same_course_refl|].
    intros id s Hs. exists s. split; [exact Hs|]. split; [apply same_section_refl|].
    cbn. rewrite app_nil_r. reflexivity.
  - destruct (course_step prices acc row) as [acc1|] eqn:Hstep; [|discriminate].
    destruct (course_step_frame _ _ _ _ _ _ Hstep Hc) as (c1 & Hc1 & Hsame1 & Hsec1).
    destruct (IH _ _ _ _ Hred Hc1) as (c' & Hc' & Hsame & Hsec).
    exists c'. split; [exact Hc'|]. split; [eapply same_course_trans; eauto|].
    intros id s Hs.
    destruct (Hsec1 id s Hs) as (s1 & Hs1 & Hss1 & Hi1).
    destruct (Hsec id s1 Hs1) as (s' & Hs' & Hss & Hi).
    exists s'. split; [exact Hs'|]. split; [eapply same_section_trans; eauto|].
    rewrite Hi, Hi1, <- app_assoc. f_equal. cbn [List.filter].
    destruct (targets code id row); reflexivity.
Qed.

(** C10: a row leaves the title, the four ratings and the price of a
    course that exists unchanged, and leaves the id, days, time, term,
    credits and meetings of each of its sections unchanged; it appends its
    one instructor entry to the section it names and nothing to the others.
    Over any sequence of later rows, a section gains exactly the instructor
    entries of the rows that name it, in order. *)
Theorem later_rows_frame :
  (forall prices acc row acc' code c,
     course_step prices acc row = Some acc' -> acc !! code = Some c ->
     exists c', acc' !! code = Some c' /\ same_course c c'
       /\ forall id s, Entry.sections c !! id = Some s ->
            exists s', Entry.sections c' !! id = Some s' /\ same_section s s'
              /\ Sec.instructors s' =
                 (Sec.instructors s
                  ++ (if targets code id row then [new_instructor row] else []))%list)
  /\ (forall prices rows acc acc' code c,
        reduce (course_step prices) acc rows = Some acc' -> acc !! code = Some c ->
        exists c', acc' !! code = Some c' /\ same_course c c'
          /\ forall id s, Entry.sections c !! id = Some s ->
               exists s', Entry.sections c' !! id = Some s' /\ same_section s s'
                 /\ Sec.instructors s' =
                    (Sec.instructors s
                     ++ List.map new_instructor (List.filter (targets code id) rows))%list).
Proof.
  split.
  - exact course_step_frame.
  - intros prices rows. apply reduce_frame.
Qed.

(** C7: a row whose identifier normalises to the empty string leaves the
    accumulator as it is, without throwing, so the catalog is the one built
    from the other rows. *)
Theorem empty_code_row_dropped :
  (forall prices acc row, code_of row = "" -> course_step prices acc row = Some acc)
  /\ (forall prices before row after,
        code_of row = "" ->
        courseMap prices (before ++ row :: after)%list = courseMap prices (before ++ after)%list).
Proof.
  split; [exact course_step_dropped|].
  intros prices before row after Hrow. unfold courseMap.
  generalize (∅ : gmap string Entry.t).
  induction before as [|r rs IH]; intros acc; cbn.
  - rewrite (course_step_dropped _ _ _ Hrow). reflexivity.
  - destruct (course_step prices acc r); [apply IH|reflexivity].
Qed.

Lemma or_zero_idem x : or_zero (or_zero x) = or_zero x.
Proof.
  unfold or_zero. destruct (number_truthy x) eqn:E; [rewrite E|]; reflexivity.
Qed.

Lemma or_zero_not_NaN x : or_zero x <> NaN.
Proof.
  unfold or_zero. destruct x; cbn; try discriminate.
  destruct (negb (Qeq_bool q 0)); discriminate.
Qed.

Lemma priceMap_snoc rows r : priceMap (rows ++ [r])%list = price_step (priceMap rows) r.
Proof. unfold priceMap. rewrite fold_left_app. reflexivity. Qed.

Lemma priceMap_lookup rows code :
  code <> "" ->
  priceMap rows !! code =
  (fun r => or_zero (parseFloat (PriceRow.Average_Price r))) <$> last_price_row rows code.
Proof.
  intros Hne. induction rows as [|r rows IH] using rev_ind.
  - reflexivity.
  - rewrite priceMap_snoc. unfold last_price_row. rewrite rev_app_distr. cbn [rev app List.find].
    unfold price_step.
    destruct (String.eqb_spec (getBaseCourseCode (PriceRow.Course_ID r)) code) as [E|NE].
    + rewrite E. destruct code; [congruence|]. cbn [nonempty].
      rewrite lookup_insert_eq. reflexivity.
    + destruct (nonempty _); [rewrite lookup_insert_ne by exact NE|]; exact IH.
Qed.

Lemma price_of_priceMap rows code :
  code <> "" ->
  price_of (priceMap rows) code =
  match last_price_row rows code with
  | Some r => or_zero (parseFloat (PriceRow.Average_Price r))
  | None => Finite 0
  end.
Proof.
  intros Hne. unfold price_of. rewrite priceMap_lookup by exact Hne.
  destruct (last_price_row rows code); cbn; [apply or_zero_idem|reflexivity].
Qed.

Lemma course_step_total prices acc row :
  inherited (or_empty (Row.Section_ID row)) = false ->
  exists acc', course_step prices acc row = Some acc'.
Proof.
  intros H. destruct (course_step prices acc row) as [acc'|] eqn:E; [eauto|].
  apply course_step_throws in E. congruence.
Qed.

Lemma courseMap_total prices rows :
  (forall row, In row rows -> inherited (or_empty (Row.Section_ID row)) = false) ->
  exists catalog, courseMap prices rows = Some catalog.
Proof.
  unfold courseMap. generalize (∅ : gmap string Entry.t).
  induction rows as [|row rows IH]; intros acc H; cbn.
  - eauto.
  - destruct (course_step_total prices acc row) as (acc' & ->); [apply H; left; reflexivity|].
    apply IH. intros r Hr. apply H. right. exact Hr.
Qed.

(** C6: the course created from the first row of a code takes each rating
    from its field: absent ([None]) when the field is missing or falsy, the
    parsed number otherwise (the text "0" gives 0, the number 0 gives
    absent); its price is the one stored for its code.  The price stored for
    a code is that of its last price row, and is 0 when the code has no
    price row or when the price of that row parses to [NaN] or to 0.  A step
    of the builder throws only on a section id that names an inherited
    property, so no numeric field makes the build throw. *)
Theorem course_created_from_first_row :
  (forall prices acc row acc',
     acc !! code_of row = None -> code_of row <> "" ->
     course_step prices acc row = Some acc' ->
     exists c, acc' !! code_of row = Some c
       /\ Entry.course_rating c =
          (if cell_truthy (Row.base_course_quality row)
           then Some (parseFloat (Row.base_course_quality row)) else None)
       /\ Entry.instructor_rating c =
          (if cell_truthy (Row.base_instructor_quality row)
           then Some (parseFloat (Row.base_instructor_quality row)) else None)
       /\ Entry.difficulty_rating c =
          (if cell_truthy (Row.base_difficulty row)
           then Some (parseFloat (Row.base_difficulty row)) else None)
       /\ Entry.work_rating c =
          (if cell_truthy (Row.base_work_required row)
           then Some (parseFloat (Row.base_work_required row)) else None)
       /\ Entry.Average_Price c = price_of prices (code_of row))
  /\ (forall rows code,
        code <> "" ->
        (last_price_row rows code = None -> price_of (priceMap rows) code = Finite 0)
        /\ (forall r, last_price_row rows code = Some r ->
              (number_truthy (parseFloat (PriceRow.Average_Price r)) = true ->
               price_of (priceMap rows) code = parseFloat (PriceRow.Average_Price r))
              /\ (number_truthy (parseFloat (PriceRow.Average_Price r)) = false ->
                  price_of (priceMap rows) code = Finite 0)))
  /\ (number_truthy NaN = false /\ parseFloat Absent = NaN /\ parseFloat (Text "n/a") = NaN)
  /\ (forall prices acc row,
        course_step prices acc row = None ->
        inherited (or_empty (Row.Section_ID row)) = true)
  /\ (forall prices rows,
        (forall row, In row rows -> inherited (or_empty (Row.Section_ID row)) = false) ->
        exists catalog, courseMap prices rows = Some catalog)
  /\ (cell_truthy Absent = false /\ cell_truthy (Text "") = false
      /\ cell_truthy (Numeric (Finite 0)) = false /\ cell_truthy (Numeric NaN) = false
      /\ parsedOrNull (Text "0") = Some (Finite 0)
      /\ parsedOrNull (Text "3.5") = Some (Finite 3.5)).
Proof.
  split; [|split; [|split; [|split; [|split]]]].
  - intros prices acc row acc' Hnone Hne Hstep.
    destruct (course_step_created _ _ _ _ Hnone Hne Hstep) as (c & Hc & H).
    exists c. split; [exact Hc|]. destruct H as (_ & _ & H1 & H2 & H3 & H4 & H5).
    cbn in H1, H2, H3, H4, H5. unfold parsedOrNull in *. repeat split; assumption.
  - intros rows code Hne. rewrite (price_of_priceMap _ _ Hne). split.
    + intros ->. reflexivity.
    + intros r ->. unfold or_zero. split; intros ->; reflexivity.
  - repeat split; reflexivity.
  - exact course_step_throws.
  - exact courseMap_total.
  - repeat split; reflexivity.
Qed.

Lemma course_created_from_first_row_witness :
  (exists c, example_acc !! "ACCT-6110" = Some c
     /\ Entry.course_rating c = Some (Finite 0)
     /\ Entry.instructor_rating c = None
     /\ Entry.difficulty_rating c = Some NaN
     /\ Entry.work_rating c = None
     /\ Entry.Average_Price c = Finite 1500)
  /\ price_of (priceMap example_prices) "FNCE-6130" = Finite 0
  /\ price_of (priceMap example_prices) "MGMT-6110" = Finite 0
  /\ (exists catalog,
        courseMap (priceMap example_prices) [example_first_row; example_later_row]
        = Some catalog).
Proof.
  split; [|split; [|split]].
  - destruct (proj1 course_created_from_first_row (priceMap example_prices) ∅
                example_first_row example_acc) as (c & Hc & H1 & H2 & H3 & H4 & H5).
    + reflexivity.
    + vm_compute. discriminate.
    + vm_compute. reflexivity.
    + exists c. split; [exact Hc|]. repeat split; assumption.
  - refine (proj2 (proj2 (proj1 (proj2 course_created_from_first_row)
                            example_prices "FNCE-6130" _)
                     {| PriceRow.Course_ID := Some "FNCE 6130";
                        PriceRow.Average_Price := Text "n/a" |} _) _).
    + discriminate.
    + reflexivity.
    + reflexivity.
  - refine (proj1 (proj1 (proj2 course_created_from_first_row)
                     example_prices "MGMT-6110" _) _).
    + discriminate.
    + reflexivity.
  - apply (proj1 (proj2 (proj2 (proj2 (proj2 course_created_from_first_row))))).
    intros row [<-|[<-|[]]]; reflexivity.
Defined.

Lemma later_rows_frame_witness :
  exists acc' c c' s s',
    course_step (priceMap example_prices) example_acc example_later_row = Some acc'
    /\ example_acc !! "ACCT-6110" = Some c
    /\ acc' !! "ACCT-6110" = Some c'
    /\ same_course c c'
    /\ Entry.sections c !! "ACCT6110001" = Some s
    /\ Entry.sections c' !! "ACCT6110001" = Some s'
    /\ same_section s s'
    /\ Sec.instructors s' = (Sec.instructors s ++ [new_instructor example_later_row])%list.
Proof.
  destruct (course_step (priceMap example_prices) example_acc example_later_row)
    as [acc'|] eqn:Hstep; [|vm_compute in Hstep; discriminate Hstep].
  destruct (example_acc !! "ACCT-6110") as [c|] eqn:Hc; [|vm_compute in Hc; discriminate Hc].
  destruct (proj1 later_rows_frame _ _ _ _ _ _ Hstep Hc) as (c' & Hc' & Hsame & Hsec).
  destruct (Entry.sections c !! "ACCT6110001") as [s|] eqn:Hs.
  2:{ exfalso. vm_compute in Hc. injection Hc as <-. vm_compute in Hs. discriminate Hs. }
  destruct (Hsec _ _ Hs) as (s' & Hs' & Hss & Hi).
  exists acc', c, c', s, s'. repeat split; try assumption; try apply Hsame; try apply Hss.
Defined.

Lemma empty_code_row_dropped_witness :
  courseMap (priceMap example_prices)
    ([example_first_row]
     ++ example_row (Some "--") (Some "X1") (Some "Nobody") Absent :: [example_later_row])%list
  = courseMap (priceMap example_prices) ([example_first_row] ++ [example_later_row])%list.
Proof.
  apply (proj2 empty_code_row_dropped). reflexivity.
Defined.

(** ** Canonical codes as keys

    A canonical code has no lower-case letter and no underscore, so it is
    never the name of an inherited property: reading [acc[code]] and
    [priceMap[code]] yields what the program stored there, or [undefined]. *)

Lemma forallb_append p a b : forallb p (a ++ b) = forallb p a && forallb p b.
Proof.
  induction a as [|c a IH]; cbn; [reflexivity|]. rewrite IH, andb_assoc. reflexivity.
Qed.

Lemma forallb_slice_to p n s : forallb p s = true -> forallb p (slice_to n s) = true.
Proof.
  revert s. induction n as [|n IH]; intros [|c s]; cbn; try reflexivity.
  intros H. apply andb_true_iff in H as [-> H]. cbn. auto.
Qed.

Lemma forallb_slice_from p n s : forallb p s = true -> forallb p (slice_from n s) = true.
Proof.
  revert s. induction n as [|n IH]; intros [|c s]; cbn; try reflexivity; try (intros H; exact H).
  intros H. apply andb_true_iff in H as [_ H]. auto.
Qed.

Lemma plain_upper_alnum c : is_alnum c = true -> plain (upper_char c) = true.
Proof.
  destruct c as [[] [] [] [] [] [] [] []]; vm_compute; intros H;
    first [reflexivity | discriminate H].
Qed.

Lemma plain_digit c : is_digit c = true -> plain c = true.
Proof.
  destruct c as [[] [] [] [] [] [] [] []]; vm_compute; intros H;
    first [reflexivity | discriminate H].
Qed.

Lemma alpha_alnum c : is_alpha c = true -> is_alnum c = true.
Proof. unfold is_alnum. intros ->. apply orb_true_r. Qed.

Lemma forallb_impl (p q : ascii -> bool) s :
  (forall c, p c = true -> q c = true) -> forallb p s = true -> forallb q s = true.
Proof.
  intros Hpq. induction s as [|c s IH]; cbn; [reflexivity|].
  intros H. apply andb_true_iff in H as [Hc Hs]. rewrite (Hpq _ Hc). cbn. auto.
Qed.

Lemma plain_toUpperCase s : forallb is_alnum s = true -> forallb plain (toUpperCase s) = true.
Proof.
  induction s as [|c s IH]; cbn; [reflexivity|].
  intros H. apply andb_true_iff in H as [Hc Hs]. rewrite (plain_upper_alnum _ Hc). cbn. auto.
Qed.

Lemma forallb_filter p s : forallb p (filter p s) = true.
Proof.
  induction s as [|c s IH]; cbn; [reflexivity|].
  destruct (p c) eqn:E; cbn; [rewrite E|]; auto.
Qed.

Lemma getBaseCourseCode_plain raw : forallb plain (getBaseCourseCode raw) = true.
Proof.
  destruct raw as [s|]; [|reflexivity]. unfold getBaseCourseCode.
  destruct (nonempty s); cbn [negb]; [|reflexivity].
  destruct (Regex.exec code_pattern s) as [m|] eqn:E.
  - destruct (exec_code_some _ _ E)
      as (d & n & -> & -> & pre & t & _ & sep & post & _ & _ & Hd & _ & _ & Hn).
    rewrite !forallb_append. cbn.
    rewrite (plain_toUpperCase d (forallb_impl _ _ _ alpha_alnum Hd)).
    rewrite (forallb_impl _ _ _ plain_digit Hn). reflexivity.
  - pose proof (plain_toUpperCase _ (forallb_filter is_alnum s)) as H.
    destruct (_ =? 8)%nat; [|destruct (_ =? 7)%nat]; [| |exact H].
    + rewrite !forallb_append, forallb_slice_to, forallb_slice_from by exact H. reflexivity.
    + rewrite !forallb_append, forallb_slice_to, forallb_slice_from by exact H. reflexivity.
Qed.

Lemma getBaseCourseCode_own_key raw : inherited (getBaseCourseCode raw) = false.
Proof.
  pose proof (getBaseCourseCode_plain raw) as H.
  destruct (inherited (getBaseCourseCode raw)) eqn:E; [|reflexivity].
  unfold inherited in E. apply existsb_exists in E as (k & Hk & Heq).
  apply String.eqb_eq in Heq. rewrite Heq in H. cbn in Hk.
  repeat (destruct Hk as [<-|Hk]; [vm_compute in H; discriminate H|]). destruct Hk.
Qed.

(** ** Sorting *)

Section Sorting.

Context {A : Type} (comparefn : A -> A -> Z).

Lemma insert_sublist x l : sublist l (insert comparefn x l).
Proof.
  induction l as [|y t IH]; cbn.
  - apply sublist_nil_l.
  - destruct (0 <? comparefn x y)%Z.
    + apply sublist_skip, IH.
    + apply sublist_cons. reflexivity.
Qed.

Lemma insert_perm x l : Permutation (x :: l) (insert comparefn x l).
Proof.
  induction l as [|y t IH]; cbn; [reflexivity|].
  destruct (0 <? comparefn x y)%Z; [|reflexivity].
  rewrite perm_swap. apply perm_skip, IH.
Qed.

Lemma sort_perm l : Permutation l (sort comparefn l).
Proof.
  induction l as [|x t IH]; cbn; [reflexivity|].
  rewrite <- insert_perm. apply perm_skip, IH.
Qed.

Lemma singleton_sublist (b : A) l : In b l -> sublist [b] l.
Proof.
  induction l as [|y t IH]; cbn; [tauto|].
  intros [->|H].
  - apply sublist_skip, sublist_nil_l.
  - apply sublist_cons, IH, H.
Qed.

(** An inserted element stays in front of the elements it does not compare
    greater than. *)
Lemma insert_front x b l :
  In b l -> (comparefn x b <= 0)%Z -> before x b (insert comparefn x l).
Proof.
  unfold before. induction l as [|y t IH]; cbn; [tauto|].
  intros Hin Hle. destruct (0 <? comparefn x y)%Z eqn:E.
  - apply Z.ltb_lt in E. destruct Hin as [->|Hin]; [lia|].
    apply sublist_cons, IH; assumption.
  - apply sublist_skip, singleton_sublist. exact Hin.
Qed.

Lemma sort_stable a b l :
  comparefn a b = 0%Z -> before a b l -> before a b (sort comparefn l).
Proof.
  unfold before. intros Hab. induction l as [|x t IH]; cbn; intros H.
  - apply sublist_nil_r in H. discriminate H.
  - apply sublist_cons_r in H as [H|(l' & [= <- <-] & H)].
    + etrans; [apply IH, H|apply insert_sublist].
    + apply insert_front; [|lia].
      apply (Permutation_in _ (sort_perm t)).
      apply list_elem_of_In. apply (sublist_subseteq _ _ H). apply list_elem_of_here.
Qed.

(** The comparison never says "greater" in both directions. *)
Hypothesis comparefn_anti : forall u v, (0 < comparefn u v)%Z -> (comparefn v u <= 0)%Z.

Lemma insert_ordered x l : ordered comparefn l -> ordered comparefn (insert comparefn x l).
Proof.
  induction l as [|y t IH]; intros Hl; cbn.
  - intros [|i] u v Hu Hv; discriminate Hv.
  - destruct (0 <? comparefn x y)%Z eqn:E.
    + assert (Ht : ordered comparefn t).
      { intros i u v Hu Hv. apply (Hl (S i) u v); assumption. }
      specialize (IH Ht). intros [|i] u v Hu Hv.
      * injection Hu as <-. cbn in Hv. destruct t as [|z t']; cbn in Hv.
        -- injection Hv as <-. apply comparefn_anti, Z.ltb_lt, E.
        -- destruct (0 <? comparefn x z)%Z.
           ++ injection Hv as <-. apply (Hl 0%nat); reflexivity.
           ++ injection Hv as <-. apply comparefn_anti, Z.ltb_lt, E.
      * apply (IH i); assumption.
    + apply Z.ltb_ge in E. intros [|i] u v Hu Hv.
      * injection Hu as <-. injection Hv as <-. exact E.
      * apply (Hl i); assumption.
Qed.

Lemma sort_ordered l : ordered comparefn (sort comparefn l).
Proof.
  induction l as [|x t IH]; cbn.
  - intros i u v Hu. discriminate Hu.
  - apply insert_ordered; assumption.
Qed.

End Sorting.

Lemma string_ltb_asym a b : String.ltb a b = true -> String.ltb b a = false.
Proof.
  unfold String.ltb. rewrite (String.compare_antisym b a).
  destruct (String.compare a b); cbn; congruence.
Qed.

Lemma number_lt_asym x y : number_lt x y = true -> number_lt y x = false.
Proof.
  destruct x as [|[]|p], y as [|[]|q]; cbn; try congruence.
  rewrite <- (Qcompare_antisym p q). destruct (p ?= q)%Q; cbn; congruence.
Qed.

Lemma less_asym key a b : less key a b = true -> less key b a = false.
Proof.
  unfold less. destruct (column_of key) as [[f|f|f|f]|]; try congruence.
  - apply string_ltb_asym.
  - destruct (f a), (f b); try congruence. apply string_ltb_asym.
  - apply number_lt_asym.
  - apply number_lt_asym.
Qed.

Lemma compareCourses_anti cfg u v :
  (0 < compareCourses cfg u v)%Z -> (compareCourses cfg v u <= 0)%Z.
Proof.
  unfold compareCourses.
  destruct (less (key cfg) u v) eqn:Huv.
  - rewrite (less_asym _ _ _ Huv). destruct (String.eqb (direction cfg) "ascending"); lia.
  - destruct (less (key cfg) v u); destruct (String.eqb (direction cfg) "ascending"); lia.
Qed.

(** Two courses compare equal exactly when neither value is less than the
    other. *)
Lemma compareCourses_zero cfg a b :
  compareCourses cfg a b = 0%Z <->
  less (key cfg) a b = false /\ less (key cfg) b a = false.
Proof.
  unfold compareCourses.
  destruct (less (key cfg) a b), (less (key cfg) b a),
    (String.eqb (direction cfg) "ascending");
    split; try lia; try tauto; intros [? ?]; congruence.
Qed.

Lemma string_ltb_total a b : a <> b -> String.ltb a b = true \/ String.ltb b a = true.
Proof.
  intros Hne. unfold String.ltb. rewrite (String.compare_antisym a b).
  destruct (String.compare b a) eqn:E; cbn; auto.
  apply String.compare_eq_iff in E. congruence.
Qed.

Lemma ascii_compare_trans a b c :
  Ascii.compare a b = Lt -> Ascii.compare b c = Lt -> Ascii.compare a c = Lt.
Proof.
  unfold Ascii.compare. rewrite !N.compare_lt_iff. lia.
Qed.

Lemma string_ltb_trans a b c :
  String.ltb a b = true -> String.ltb b c = true -> String.ltb a c = true.
Proof.
  unfold String.ltb.
  assert (H : forall a b c, String.compare a b = Lt -> String.compare b c = Lt ->
                            String.compare a c = Lt).
  { clear. induction a as [|x a IH]; intros [|y b] [|z c]; cbn; try congruence.
    destruct (Ascii.compare x y) eqn:Exy; try discriminate.
    - apply Ascii.compare_eq_iff in Exy as ->.
      destruct (Ascii.compare y z); try congruence. apply IH.
    - destruct (Ascii.compare y z) eqn:Eyz; try discriminate.
      + apply Ascii.compare_eq_iff in Eyz as <-. rewrite Exy. reflexivity.
      + rewrite (ascii_compare_trans _ _ _ Exy Eyz). reflexivity. }
  destruct (String.compare a b) eqn:E1; try discriminate.
  destruct (String.compare b c) eqn:E2; try discriminate.
  rewrite (H _ _ _ E1 E2). reflexivity.
Qed.

Lemma number_lt_trans x y z :
  number_lt x y = true -> number_lt y z = true -> number_lt x z = true.
Proof.
  destruct x as [|[]|p], y as [|[]|q], z as [|[]|r]; cbn; try congruence.
  destruct (p ?= q)%Q eqn:E1; try discriminate.
  destruct (q ?= r)%Q eqn:E2; try discriminate.
  intros _ _. apply Qlt_alt in E1, E2.
  rewrite (proj1 (Qlt_alt p r) (Qlt_trans _ _ _ E1 E2)). reflexivity.
Qed.

Lemma less_trans key a b c :
  less key a b = true -> less key b c = true -> less key a c = true.
Proof.
  unfold less. destruct (column_of key) as [[f|f|f|f]|]; try congruence.
  - apply string_ltb_trans.
  - destruct (f a), (f b), (f c); try congruence. apply string_ltb_trans.
  - apply number_lt_trans.
  - apply number_lt_trans.
Qed.

Lemma sort_In {A : Type} (cmp : A -> A -> Z) l x : In x (sort cmp l) <-> In x l.
Proof.
  split; apply Permutation_in; [symmetry|]; apply sort_perm.
Qed.

Lemma sort_fixed {A : Type} (comparefn : A -> A -> Z) l :
  ordered comparefn l -> sort comparefn l = l.
Proof.
  induction l as [|x t IH]; intros Hl; [reflexivity|].
  cbn. rewrite IH.
  - destruct t as [|y t']; [reflexivity|]. cbn.
    pose proof (Hl 0%nat x y eq_refl eq_refl) as Hxy.
    apply Z.ltb_ge in Hxy. rewrite Hxy. reflexivity.
  - intros i u v Hu Hv. apply (Hl (S i) u v); assumption.
Qed.

(** ** The sort of the engine *)

Lemma sort_conforming {A : Type} : conforming (@sort A).
Proof. intros comparefn l. split; [apply sort_perm|reflexivity]. Qed.

Lemma runAfter_app {A : Type} (comparefn : A -> A -> Z) d l : forall p run rest,
  runAfter comparefn d p l = (run, rest) -> l = (run ++ rest)%list.
Proof.
  induction l as [|x t IH]; intros p run rest H; cbn in H.
  - injection H as <- <-. reflexivity.
  - destruct (if d then _ else _).
    + injection H as <- <-. reflexivity.
    + destruct (runAfter comparefn d x t) as [r1 r2] eqn:E. injection H as <- <-.
      cbn. f_equal. apply (IH x), E.
Qed.

Lemma countAndMakeRun_perm {A : Type} (comparefn : A -> A -> Z) l run rest :
  countAndMakeRun comparefn l = (run, rest) -> Permutation l (run ++ rest).
Proof.
  destruct l as [|x0 [|x1 t]]; cbn; intros H.
  - injection H as <- <-. reflexivity.
  - injection H as <- <-. reflexivity.
  - destruct (runAfter _ _ x1 t) as [r1 r2] eqn:E. injection H as <- <-.
    rewrite (runAfter_app _ _ _ _ _ _ E).
    change (x0 :: x1 :: r1 ++ r2)%list with ((x0 :: x1 :: r1) ++ r2)%list.
    apply Permutation_app_tail.
    destruct (_ <? 0)%Z; [apply Permutation_rev|reflexivity].
Qed.

Lemma binaryInsert_perm {A : Type} (comparefn : A -> A -> Z) p x :
  Permutation (x :: p) (binaryInsert comparefn p x).
Proof.
  unfold binaryInsert.
  set (k := binarySearch _ _ _ _ _ _).
  rewrite <- (take_drop k p) at 1. apply Permutation_middle.
Qed.

Lemma binaryInsertionSort_perm {A : Type} (comparefn : A -> A -> Z) rest : forall run,
  Permutation (run ++ rest) (binaryInsertionSort comparefn run rest).
Proof.
  unfold binaryInsertionSort.
  induction rest as [|x rest IH]; intros run; cbn.
  - rewrite app_nil_r. reflexivity.
  - rewrite <- IH, <- binaryInsert_perm.
    rewrite <- Permutation_middle. reflexivity.
Qed.

Lemma shortArraySort_perm {A : Type} (comparefn : A -> A -> Z) l :
  Permutation l (shortArraySort comparefn l).
Proof.
  unfold shortArraySort. destruct (countAndMakeRun comparefn l) as [run rest] eqn:E.
  rewrite <- binaryInsertionSort_perm. apply (countAndMakeRun_perm comparefn), E.
Qed.

Section ConsistentComparison.

Context {A : Type} (comparefn : A -> A -> Z) (u : list A).

Hypothesis comparefn_consistent : consistent comparefn u.

Lemma consistent_refl a : In a u -> comparefn a a = 0%Z.
Proof. intros Ha. exact (proj1 (comparefn_consistent a a a Ha Ha Ha)). Qed.

Lemma consistent_sym a b : In a u -> In b u -> comparefn a b = 0%Z -> comparefn b a = 0%Z.
Proof. intros Ha Hb. exact (proj1 (proj2 (comparefn_consistent a b a Ha Hb Ha))). Qed.

Lemma consistent_flip a b :
  In a u -> In b u -> ((comparefn a b < 0)%Z <-> (0 < comparefn b a)%Z).
Proof.
  intros Ha Hb.
  pose proof (consistent_refl a Ha). pose proof (consistent_refl b Hb).
  pose proof (consistent_sym a b Ha Hb). pose proof (consistent_sym b a Hb Ha).
  destruct (comparefn_consistent a b a Ha Hb Ha) as (_ & _ & _ & L1 & G1).
  destruct (comparefn_consistent b a b Hb Ha Hb) as (_ & _ & _ & L2 & G2).
  lia.
Qed.

Lemma consistent_lt_le a b c :
  In a u -> In b u -> In c u ->
  (comparefn a b < 0)%Z -> (comparefn b c <= 0)%Z -> (comparefn a c < 0)%Z.
Proof.
  intros Ha Hb Hc Hab Hbc.
  destruct (comparefn_consistent a b c Ha Hb Hc) as (_ & _ & _ & L1 & _).
  destruct (comparefn_consistent c a b Hc Ha Hb) as (_ & _ & _ & L2 & _).
  destruct (comparefn_consistent b c a Hb Hc Ha) as (_ & _ & E3 & _ & _).
  pose proof (consistent_sym b c Hb Hc). pose proof (consistent_sym a c Ha Hc).
  pose proof (consistent_sym b a Hb Ha). pose proof (consistent_flip c a Hc Ha).
  lia.
Qed.

Lemma consistent_le_lt a b c :
  In a u -> In b u -> In c u ->
  (comparefn a b <= 0)%Z -> (comparefn b c < 0)%Z -> (comparefn a c < 0)%Z.
Proof.
  intros Ha Hb Hc Hab Hbc.
  destruct (comparefn_consistent a b c Ha Hb Hc) as (_ & _ & _ & L1 & _).
  destruct (comparefn_consistent b c a Hb Hc Ha) as (_ & _ & _ & L2 & _).
  destruct (comparefn_consistent b a c Hb Ha Hc) as (_ & _ & E3 & _ & _).
  pose proof (consistent_sym a b Ha Hb). pose proof (consistent_flip c a Hc Ha).
  lia.
Qed.

Lemma consistent_le_trans a b c :
  In a u -> In b u -> In c u ->
  (comparefn a b <= 0)%Z -> (comparefn b c <= 0)%Z -> (comparefn a c <= 0)%Z.
Proof.
  intros Ha Hb Hc Hab Hbc.
  pose proof (consistent_lt_le a b c Ha Hb Hc).
  pose proof (consistent_le_lt a b c Ha Hb Hc).
  destruct (comparefn_consistent a b c Ha Hb Hc) as (_ & _ & E & _ & _).
  lia.
Qed.

Lemma consistent_ge_le a b :
  In a u -> In b u -> (comparefn a b <? 0)%Z = false -> (comparefn b a <= 0)%Z.
Proof.
  intros Ha Hb H. apply Z.ltb_ge in H.
  pose proof (consistent_sym a b Ha Hb). pose proof (consistent_flip b a Hb Ha). lia.
Qed.

(** *** The two insertions commute *)

Lemma insertAfter_In x p y : In y (insertAfter comparefn x p) <-> y = x \/ In y p.
Proof.
  induction p as [|z t IH]; cbn; [intuition congruence|].
  destruct (comparefn x z <? 0)%Z; cbn; [intuition congruence|].
  rewrite IH. intuition congruence.
Qed.

Lemma insert_In x p y : In y (insert comparefn x p) <-> y = x \/ In y p.
Proof.
  induction p as [|z t IH]; cbn; [intuition congruence|].
  destruct (0 <? comparefn x z)%Z; cbn; [|intuition congruence].
  rewrite IH. intuition congruence.
Qed.

Lemma insertAfter_insert x z p :
  In x u -> In z u -> Forall (fun y => In y u) p ->
  insertAfter comparefn z (insert comparefn x p)
  = insert comparefn x (insertAfter comparefn z p).
Proof.
  intros Hx Hz Hp. pose proof (consistent_flip z x Hz Hx) as Hzx.
  induction Hp as [|y t Hy _ IH]; cbn.
  - destruct (comparefn z x <? 0)%Z eqn:E1, (0 <? comparefn x z)%Z eqn:E2;
      try reflexivity; exfalso;
      rewrite ?Z.ltb_lt, ?Z.ltb_ge in E1, E2; lia.
  - destruct (0 <? comparefn x y)%Z eqn:Exy, (comparefn z y <? 0)%Z eqn:Ezy; cbn.
    + rewrite Ezy.
      assert (E : (0 <? comparefn x z)%Z = true).
      { apply Z.ltb_lt, Hzx. apply Z.ltb_lt in Exy, Ezy.
        apply (consistent_lt_le z y x Hz Hy Hx Ezy).
        pose proof (consistent_flip y x Hy Hx). lia. }
      rewrite E, Exy. reflexivity.
    + rewrite Ezy, Exy, IH. reflexivity.
    + destruct (comparefn z x <? 0)%Z eqn:E1, (0 <? comparefn x z)%Z eqn:E2;
        rewrite ?Ezy, ?Exy; try reflexivity; exfalso;
        rewrite ?Z.ltb_lt, ?Z.ltb_ge in E1, E2; lia.
    + assert (E : (comparefn z x <? 0)%Z = false).
      { apply Z.ltb_ge. apply Z.ltb_ge in Exy, Ezy.
        destruct (Z.lt_ge_cases (comparefn z x) 0) as [H|H]; [|exact H].
        pose proof (consistent_lt_le z x y Hz Hx Hy H Exy). lia. }
      rewrite E, Ezy, Exy. reflexivity.
Qed.

Lemma insertAfter_members x p :
  In x u -> Forall (fun y => In y u) p ->
  Forall (fun y => In y u) (insertAfter comparefn x p).
Proof.
  intros Hx Hp. rewrite List.Forall_forall in Hp |- *.
  intros y Hy. apply insertAfter_In in Hy as [->|Hy]; auto.
Qed.

Lemma fold_insertAfter_insert x t : forall q,
  In x u -> Forall (fun y => In y u) t -> Forall (fun y => In y u) q ->
  fold_left (fun p z => insertAfter comparefn z p) t (insert comparefn x q)
  = insert comparefn x (fold_left (fun p z => insertAfter comparefn z p) t q).
Proof.
  induction t as [|z t IH]; intros q Hx Ht Hq; cbn; [reflexivity|].
  apply Forall_cons_iff in Ht as [Hz Ht].
  rewrite insertAfter_insert by assumption.
  apply IH; [assumption|assumption|]. apply insertAfter_members; assumption.
Qed.

(** Inserting the elements from left to right, each after the elements it
    is not less than, gives the stable sort. *)
Lemma fold_insertAfter_sort l :
  Forall (fun y => In y u) l ->
  fold_left (fun p z => insertAfter comparefn z p) l [] = sort comparefn l.
Proof.
  induction l as [|x t IH]; intros Hl; cbn; [reflexivity|].
  apply Forall_cons_iff in Hl as [Hx Ht].
  change [x] with (insert comparefn x []).
  rewrite fold_insertAfter_insert by (try assumption; constructor).
  rewrite IH by assumption. reflexivity.
Qed.

(** *** The binary search finds the place of [insertAfter] *)

Lemma insertAfter_sorted x p :
  In x u -> Forall (fun y => In y u) p ->
  sortedBy comparefn p -> sortedBy comparefn (insertAfter comparefn x p).
Proof.
  unfold sortedBy. intros Hx Hp Hs. induction Hp as [|y t Hy Ht IH]; cbn.
  - repeat constructor.
  - apply StronglySorted_inv in Hs as [Hs Hall].
    destruct (comparefn x y <? 0)%Z eqn:E.
    + apply Z.ltb_lt in E. constructor; [constructor; assumption|].
      constructor; [lia|]. rewrite List.Forall_forall in Hall, Ht |- *.
      intros z Hz. pose proof (consistent_lt_le x y z Hx Hy (Ht z Hz) E (Hall z Hz)). lia.
    + constructor; [apply IH, Hs|]. rewrite List.Forall_forall in Hall |- *.
      intros z Hz. apply insertAfter_In in Hz as [->|Hz]; [|apply Hall, Hz].
      apply consistent_ge_le; assumption.
Qed.

Lemma insertAfter_split x p1 p2 :
  Forall (fun y => (comparefn x y <? 0)%Z = false) p1 ->
  Forall (fun y => (comparefn x y <? 0)%Z = true) p2 ->
  insertAfter comparefn x (p1 ++ p2) = (p1 ++ x :: p2)%list.
Proof.
  intros H1 H2. induction H1 as [|y t Hy _ IH]; cbn.
  - destruct H2 as [|y t Hy _]; cbn; [reflexivity|]. rewrite Hy. reflexivity.
  - rewrite Hy, IH. reflexivity.
Qed.

Lemma sortedBy_lookup p i j x y :
  sortedBy comparefn p -> (i < j)%nat -> p !! i = Some x -> p !! j = Some y ->
  (comparefn x y <= 0)%Z.
Proof.
  unfold sortedBy. intros Hs. revert i j. induction Hs as [|z t _ IH Hall]; intros i j Hij Hi Hj.
  - discriminate Hi.
  - destruct j as [|j]; [lia|]. cbn in Hj. destruct i as [|i]; cbn in Hi.
    + injection Hi as <-. rewrite List.Forall_forall in Hall. apply Hall.
      apply list_elem_of_In, (list_elem_of_lookup_2 _ _ _ Hj).
    + apply (IH i j); [lia|assumption|assumption].
Qed.

Lemma binarySearch_place x p :
  In x u -> Forall (fun y => In y u) p -> sortedBy comparefn p ->
  forall turns left right,
    (left <= right <= length p)%nat -> (right - left <= turns)%nat ->
    (forall i y, (i < left)%nat -> p !! i = Some y -> (comparefn x y <? 0)%Z = false) ->
    (forall i y, (right <= i)%nat -> p !! i = Some y -> (comparefn x y <? 0)%Z = true) ->
    let k := binarySearch turns comparefn x p left right in
    (k <= length p)%nat
    /\ (forall i y, (i < k)%nat -> p !! i = Some y -> (comparefn x y <? 0)%Z = false)
    /\ (forall i y, (k <= i)%nat -> p !! i = Some y -> (comparefn x y <? 0)%Z = true).
Proof.
  intros Hx Hp Hs. rewrite List.Forall_forall in Hp.
  assert (Hin : forall i y, p !! i = Some y -> In y u).
  { intros i y Hy. apply Hp, list_elem_of_In, (list_elem_of_lookup_2 _ _ _ Hy). }
  induction turns as [|turns IH]; intros left right Hb Ht Hl Hr; cbn [binarySearch].
  - assert (left = right) by lia. subst right. split; [lia|]. split; assumption.
  - destruct (left <? right)%nat eqn:E.
    2:{ apply Nat.ltb_ge in E. assert (left = right) by lia. subst right.
        split; [lia|]. split; assumption. }
    apply Nat.ltb_lt in E.
    set (mid := (left + (right - left) / 2)%nat).
    assert (Hmid : (left <= mid < right)%nat).
    { unfold mid. pose proof (Nat.div_lt (right - left) 2 ltac:(lia) ltac:(lia)). lia. }
    destruct (p !! mid) as [m|] eqn:Em.
    2:{ apply lookup_ge_None in Em. lia. }
    destruct (comparefn x m <? 0)%Z eqn:Ec.
    + apply IH; [lia|lia|exact Hl|].
      intros i y Hi Hy. destruct (Nat.eq_dec i mid) as [->|Hne]; [congruence|].
      apply Z.ltb_lt. apply Z.ltb_lt in Ec.
      apply (consistent_lt_le x m y Hx (Hin _ _ Em) (Hin _ _ Hy) Ec).
      apply (sortedBy_lookup p mid i); [exact Hs|lia|exact Em|exact Hy].
    + apply IH; [lia|lia| |exact Hr].
      intros i y Hi Hy. destruct (Nat.eq_dec i mid) as [->|Hne]; [congruence|].
      apply Z.ltb_ge. apply Z.ltb_ge in Ec.
      destruct (Z.lt_ge_cases (comparefn x y) 0) as [H|H]; [|exact H].
      pose proof (sortedBy_lookup p i mid y m Hs ltac:(lia) Hy Em) as Hle.
      pose proof (consistent_lt_le x y m Hx (Hin _ _ Hy) (Hin _ _ Em) H Hle). lia.
Qed.

Lemma binaryInsert_insertAfter p x :
  In x u -> Forall (fun y => In y u) p -> sortedBy comparefn p ->
  binaryInsert comparefn p x = insertAfter comparefn x p.
Proof.
  intros Hx Hp Hs. unfold binaryInsert.
  destruct (binarySearch_place x p Hx Hp Hs (length p) 0 (length p))
    as (Hk & Hl & Hr); [lia|lia|intros; lia| |].
  { intros i y Hi Hy. apply lookup_lt_Some in Hy. lia. }
  set (k := binarySearch _ _ _ _ _ _) in *.
  rewrite <- (take_drop k p) at 3. symmetry. apply insertAfter_split.
  - apply Forall_lookup. intros i y Hy. apply lookup_take_Some in Hy as [Hy Hi].
    apply (Hl i y Hi Hy).
  - apply Forall_lookup. intros i y Hy. rewrite lookup_drop in Hy.
    apply (Hr (k + i)%nat y); [lia|exact Hy].
Qed.

Lemma fold_binaryInsert rest : forall q,
  Forall (fun y => In y u) rest -> Forall (fun y => In y u) q -> sortedBy comparefn q ->
  fold_left (binaryInsert comparefn) rest q
  = fold_left (fun p z => insertAfter comparefn z p) rest q.
Proof.
  induction rest as [|x rest IH]; intros q Hr Hq Hs; cbn; [reflexivity|].
  apply Forall_cons_iff in Hr as [Hx Hr].
  rewrite binaryInsert_insertAfter by assumption.
  apply IH; [assumption|apply insertAfter_members; assumption|].
  apply insertAfter_sorted; assumption.
Qed.

Lemma fold_insertAfter_sorted l : forall q,
  Forall (fun y => In y u) l -> Forall (fun y => In y u) q -> sortedBy comparefn q ->
  sortedBy comparefn (fold_left (fun p z => insertAfter comparefn z p) l q)
  /\ Forall (fun y => In y u) (fold_left (fun p z => insertAfter comparefn z p) l q).
Proof.
  induction l as [|x l IH]; intros q Hl Hq Hs; cbn; [split; assumption|].
  apply Forall_cons_iff in Hl as [Hx Hl].
  apply IH; [assumption|apply insertAfter_members; assumption|].
  apply insertAfter_sorted; assumption.
Qed.

(** *** The run that is made is sorted *)

Lemma runAfter_ascending l : forall previousElement q run rest,
  runAfter comparefn false previousElement l = (run, rest) ->
  In previousElement u -> Forall (fun y => In y u) l -> Forall (fun y => In y u) q ->
  Forall (fun y => (comparefn y previousElement <= 0)%Z) q ->
  fold_left (fun p z => insertAfter comparefn z p) run q = (q ++ run)%list.
Proof.
  induction l as [|cur t IH]; intros prev q run rest H Hprev Hl Hq Hle; cbn in H.
  - injection H as <- <-. cbn. rewrite app_nil_r. reflexivity.
  - apply Forall_cons_iff in Hl as [Hcur Hl].
    destruct (comparefn cur prev <? 0)%Z eqn:E.
    + injection H as <- <-. cbn. rewrite app_nil_r. reflexivity.
    + destruct (runAfter comparefn false cur t) as [r1 r2] eqn:Er. injection H as <- <-.
      pose proof (consistent_ge_le cur prev Hcur Hprev E) as Hpc.
      cbn. rewrite <- (app_nil_r q) at 1. rewrite insertAfter_split.
      * rewrite (IH cur (q ++ [cur])%list r1 r2 Er Hcur Hl).
        -- rewrite <- app_assoc. reflexivity.
        -- apply Forall_app. split; [exact Hq|]. constructor; [exact Hcur|constructor].
        -- apply Forall_app. split.
           ++ rewrite List.Forall_forall in Hle, Hq |- *. intros y Hy.
              apply (consistent_le_trans y prev cur (Hq y Hy) Hprev Hcur (Hle y Hy) Hpc).
           ++ constructor; [|constructor]. rewrite (consistent_refl cur Hcur). lia.
      * rewrite List.Forall_forall in Hle, Hq |- *. intros y Hy. apply Z.ltb_ge.
        pose proof (consistent_le_trans y prev cur (Hq y Hy) Hprev Hcur (Hle y Hy) Hpc).
        pose proof (consistent_flip cur y Hcur (Hq y Hy)). lia.
      * constructor.
Qed.

Lemma runAfter_descending l : forall previousElement q run rest,
  runAfter comparefn true previousElement l = (run, rest) ->
  fold_left (fun p z => insertAfter comparefn z p) run (previousElement :: q)
  = (rev run ++ previousElement :: q)%list.
Proof.
  induction l as [|cur t IH]; intros prev q run rest H; cbn in H.
  - injection H as <- <-. reflexivity.
  - destruct (0 <=? comparefn cur prev)%Z eqn:E.
    + injection H as <- <-. reflexivity.
    + destruct (runAfter comparefn true cur t) as [r1 r2] eqn:Er. injection H as <- <-.
      apply Z.leb_gt in E. apply Z.ltb_lt in E. cbn. rewrite E.
      rewrite (IH cur (prev :: q) r1 r2 Er). rewrite <- app_assoc. reflexivity.
Qed.

Lemma countAndMakeRun_sorted l run rest :
  countAndMakeRun comparefn l = (run, rest) ->
  Forall (fun y => In y u) l ->
  exists whole, l = (whole ++ rest)%list
    /\ run = fold_left (fun p z => insertAfter comparefn z p) whole [].
Proof.
  destruct l as [|x0 [|x1 t]]; cbn; intros H Hl.
  - injection H as <- <-. exists []. split; reflexivity.
  - injection H as <- <-. exists [x0]. split; reflexivity.
  - apply Forall_cons_iff in Hl as [H0 Hl]. apply Forall_cons_iff in Hl as [H1 Hl].
    destruct (runAfter comparefn _ x1 t) as [r1 r2] eqn:Er. injection H as <- <-.
    exists (x0 :: x1 :: r1). split; [rewrite (runAfter_app _ _ _ _ _ _ Er); reflexivity|].
    cbn [fold_left insertAfter].
    destruct (comparefn x1 x0 <? 0)%Z eqn:E.
    + rewrite (runAfter_descending t x1 [x0] r1 r2 Er). cbn [rev].
      rewrite <- !app_assoc. reflexivity.
    + rewrite (runAfter_ascending t x1 [x0; x1] r1 r2 Er H1 Hl); [reflexivity| |].
      * repeat constructor; assumption.
      * constructor; [apply consistent_ge_le; assumption|].
        constructor; [|constructor]. rewrite (consistent_refl x1 H1). lia.
Qed.

End ConsistentComparison.

(** Binary insertion is a sort that the language allows. *)
Lemma shortArraySort_conforming {A : Type} : conforming (@shortArraySort A).
Proof.
  intros comparefn l. split; [apply shortArraySort_perm|].
  intros Hc. unfold shortArraySort.
  destruct (countAndMakeRun comparefn l) as [run rest] eqn:E.
  assert (Hl : Forall (fun y => In y l) l) by (apply List.Forall_forall; auto).
  destruct (countAndMakeRun_sorted comparefn l Hc l run rest E Hl) as (whole & Hw & Hrun).
  assert (Hparts : Forall (fun y => In y l) whole /\ Forall (fun y => In y l) rest).
  { apply Forall_app. rewrite <- Hw. exact Hl. }
  destruct Hparts as [Hwhole Hrest].
  destruct (fold_insertAfter_sorted comparefn l Hc whole [] Hwhole) as [Hs Hm];
    [constructor|constructor|].
  unfold binaryInsertionSort.
  rewrite (fold_binaryInsert comparefn l Hc rest run Hrest); [| rewrite Hrun; exact Hm | rewrite Hrun; exact Hs].
  rewrite Hrun, <- fold_left_app, <- Hw.
  apply (fold_insertAfter_sort comparefn l Hc), Hl.
Qed.

(** More turns than the distance of [left] and [right] change nothing: the
    search has ended by then. *)
Lemma binarySearch_turns {A : Type} (comparefn : A -> A -> Z) pivot a :
  forall turns turns' left right,
    (right - left <= turns)%nat -> (turns <= turns')%nat -> (right <= length a)%nat ->
    binarySearch turns' comparefn pivot a left right
    = binarySearch turns comparefn pivot a left right.
Proof.
  induction turns as [|turns IH]; intros turns' left right Ht Hle Hr.
  - destruct turns' as [|turns']; [reflexivity|]. cbn [binarySearch].
    destruct (left <? right)%nat eqn:E; [|reflexivity]. apply Nat.ltb_lt in E. lia.
  - destruct turns' as [|turns']; [lia|]. cbn [binarySearch].
    destruct (left <? right)%nat eqn:E; [|reflexivity]. apply Nat.ltb_lt in E.
    pose proof (Nat.div_lt (right - left) 2 ltac:(lia) ltac:(lia)) as Hd.
    destruct (a !! (left + (right - left) / 2)%nat); [|reflexivity].
    destruct (comparefn pivot a0 <? 0)%Z; apply IH; lia.
Qed.

(** *** Consistency of the comparison of courses *)

Lemma less_irrefl key a : less key a a = false.
Proof.
  destruct (less key a a) eqn:E; [|reflexivity]. rewrite (less_asym _ _ _ E) in E. discriminate E.
Qed.

Lemma string_tie a b : String.ltb a b = false -> String.ltb b a = false -> a = b.
Proof.
  intros H1 H2. destruct (string_dec a b) as [E|E]; [exact E|].
  destruct (string_ltb_total a b E); congruence.
Qed.

Lemma number_tie_trans x y z :
  x <> NaN -> y <> NaN -> z <> NaN ->
  number_lt y x = false -> number_lt z y = false -> number_lt z x = false.
Proof.
  destruct x as [|[]|p], y as [|[]|q], z as [|[]|r]; cbn; try congruence.
  intros _ _ _ H1 H2.
  assert (Hpq : (p <= q)%Q).
  { apply (Qge_alt q p). intros E. rewrite E in H1. discriminate H1. }
  assert (Hqr : (q <= r)%Q).
  { apply (Qge_alt r q). intros E. rewrite E in H2. discriminate H2. }
  destruct (r ?= p)%Q eqn:E3; try reflexivity. exfalso.
  apply (proj1 (Qge_alt r p) (Qle_trans _ _ _ Hpq Hqr)), E3.
Qed.

Lemma less_tie_trans key a b c :
  keyed key a = true -> keyed key b = true -> keyed key c = true ->
  less key b a = false -> less key c b = false -> less key c a = false.
Proof.
  unfold keyed, less. destruct (column_of key) as [[f|f|f|f]|]; try discriminate.
  - intros _ _ _ H1 H2.
    destruct (String.ltb (f c) (f a)) eqn:E; [|reflexivity]. exfalso.
    destruct (string_dec (f b) (f a)) as [Eq|Ne].
    + rewrite Eq in H2. congruence.
    + destruct (string_ltb_total _ _ Ne) as [H|H]; [congruence|].
      rewrite (string_ltb_trans _ _ _ E H) in H2. discriminate H2.
  - destruct (f a) as [x|], (f b) as [y|], (f c) as [z|]; try discriminate.
    intros _ _ _ H1 H2.
    destruct (String.ltb z x) eqn:E; [|reflexivity]. exfalso.
    destruct (string_dec y x) as [Eq|Ne].
    + rewrite Eq in H2. congruence.
    + destruct (string_ltb_total _ _ Ne) as [H|H]; [congruence|].
      rewrite (string_ltb_trans _ _ _ E H) in H2. discriminate H2.
  - intros Ha Hb Hc. apply number_tie_trans; intros E; rewrite E in *; discriminate.
  - intros Ha Hb Hc.
    apply number_tie_trans; destruct (f a) as [[]|], (f b) as [[]|], (f c) as [[]|];
      cbn; try discriminate.
Qed.

Lemma compareCourses_negative cfg a b :
  (compareCourses cfg a b < 0)%Z <->
  (if String.eqb (direction cfg) "ascending" then less (key cfg) a b
   else less (key cfg) b a) = true.
Proof.
  unfold compareCourses.
  destruct (less (key cfg) a b) eqn:Hab.
  - rewrite (less_asym _ _ _ Hab). destruct (String.eqb (direction cfg) "ascending");
      split; intros; try lia; try reflexivity; discriminate.
  - destruct (less (key cfg) b a), (String.eqb (direction cfg) "ascending");
      split; intros; try lia; try reflexivity; discriminate.
Qed.

Lemma compareCourses_positive cfg a b :
  (0 < compareCourses cfg a b)%Z <->
  (if String.eqb (direction cfg) "ascending" then less (key cfg) b a
   else less (key cfg) a b) = true.
Proof.
  unfold compareCourses.
  destruct (less (key cfg) a b) eqn:Hab.
  - rewrite (less_asym _ _ _ Hab). destruct (String.eqb (direction cfg) "ascending");
      split; intros; try lia; try reflexivity; discriminate.
  - destruct (less (key cfg) b a), (String.eqb (direction cfg) "ascending");
      split; intros; try lia; try reflexivity; discriminate.
Qed.

(** The comparison is consistent on courses that all have a value under
    the sort key and none of which is [NaN]. *)
Lemma compareCourses_consistent cfg l :
  (forall c, In c l -> keyed (key cfg) c = true) -> consistent (compareCourses cfg) l.
Proof.
  intros Hk a b c Ha Hb Hc. split; [|split; [|split; [|split]]].
  - apply compareCourses_zero. split; apply less_irrefl.
  - rewrite !compareCourses_zero. tauto.
  - rewrite !compareCourses_zero. intros [H1 H2] [H3 H4]. split.
    + apply (less_tie_trans _ c b a); auto.
    + apply (less_tie_trans _ a b c); auto.
  - rewrite !compareCourses_negative.
    destruct (String.eqb (direction cfg) "ascending"); intros H1 H2;
      eauto using less_trans.
  - rewrite !compareCourses_positive.
    destruct (String.eqb (direction cfg) "ascending"); intros H1 H2;
      eauto using less_trans.
Qed.

(** C8 (amended): sorting copies the filtered list into a new array and
    sorts the copy, so the filtered list and every other array are
    unchanged, and the result is a rearrangement of the filtered list: this
    holds on every engine, for every key and direction.  When the comparison
    is consistent on the list, as it is when every course has a value under
    the sort key and none is [NaN], consecutive courses are in the order of
    the comparison, and two courses that compare equal under the sort key
    keep the order they had in the filtered list. *)
Theorem sortedCourses_stable :
  forall arraySort, conforming arraySort ->
  forall filteredCourses sortConfig (h : heap) l,
    h !! filteredCourses = Some l ->
    exists arr h' sorted,
      sortedCoursesOn arraySort filteredCourses sortConfig h = Some (arr, h')
      /\ arr <> filteredCourses
      /\ h' !! filteredCourses = Some l
      /\ (forall a, a <> arr -> h' !! a = h !! a)
      /\ h' !! arr = Some sorted
      /\ Permutation l sorted
      /\ ((forall c, In c l -> keyed (key sortConfig) c = true) ->
          consistent (compareCourses sortConfig) l)
      /\ (consistent (compareCourses sortConfig) l ->
          ordered (compareCourses sortConfig) sorted
          /\ forall a b,
               less (key sortConfig) a b = false -> less (key sortConfig) b a = false ->
               before a b l -> before a b sorted).
Proof.
  intros arraySort Hconf src cfg h l Hl. unfold sortedCoursesOn. rewrite Hl.
  set (arr := fresh (dom h)).
  assert (Hfresh : arr ∉ dom h) by apply is_fresh.
  assert (Hne : arr <> src).
  { intros ->. apply Hfresh, elem_of_dom. eauto. }
  destruct (Hconf (compareCourses cfg) l) as [Hperm Hsort].
  exists arr, (alter (arraySort (compareCourses cfg)) arr (<[arr := l]> h)),
    (arraySort (compareCourses cfg) l).
  split; [reflexivity|]. split; [exact Hne|]. split; [|split; [|split]].
  - rewrite lookup_alter_ne, lookup_insert_ne by exact Hne. exact Hl.
  - intros a Ha. rewrite lookup_alter_ne, lookup_insert_ne by congruence. reflexivity.
  - rewrite lookup_alter_eq, lookup_insert_eq. reflexivity.
  - split; [exact Hperm|]. split; [apply compareCourses_consistent|].
    intros Hc. rewrite (Hsort Hc). split.
    + apply sort_ordered, compareCourses_anti.
    + intros a b Hab Hba. apply sort_stable, compareCourses_zero. auto.
Qed.

Lemma sortedCourses_stable_witness :
  exists arr h' sorted,
    sortedCourses 7 {| key := "Average_Price"; direction := "ascending" |} example_heap
      = Some (arr, h')
    /\ h' !! 7%nat = Some example_filtered
    /\ h' !! arr = Some sorted
    /\ before (example_course "MGMT-6110" 300 (example_section "M1" None None None))
              (example_course "FNCE-6130" 300 (example_section "F1" None None None))
              sorted.
Proof.
  destruct (sortedCourses_stable sort sort_conforming 7
              {| key := "Average_Price"; direction := "ascending" |}
              example_heap example_filtered)
    as (arr & h' & sorted & H1 & _ & H3 & _ & H5 & _ & Hk & Hst).
  - vm_compute. reflexivity.
  - exists arr, h', sorted. split; [exact H1|]. split; [exact H3|]. split; [exact H5|].
    apply Hst; [|reflexivity|reflexivity|].
    + apply Hk. intros c Hc. cbn in Hc.
      repeat (destruct Hc as [<-|Hc]; [reflexivity|]). destruct Hc.
    + apply sublist_skip, sublist_cons, sublist_cons, sublist_skip, sublist_nil_l.
Defined.

(** C8, as stated, fails.  Binary insertion, the sort of Node on an array
    of fewer than 64 elements, is a sort that the language allows.  On four
    courses rated 2, 1, [NaN] and 1, sorted by course_rating in ascending
    order, it puts the fourth course before the third: the two compare
    equal, for neither rating is less than the other, and they do not keep
    their order. *)
Lemma sortedCourses_NaN_unstable :
  conforming (@shortArraySort Course.t)
  /\ shortArraySort (compareCourses {| key := "course_rating"; direction := "ascending" |})
       example_rated
     = [ rated "FNCE-6130" (Finite 1); rated "STAT-6130" (Finite 1);
         rated "ACCT-6110" (Finite 2); rated "MGMT-6110" NaN ]
  /\ ~ (forall arraySort, conforming arraySort ->
        forall filteredCourses sortConfig (h : heap) l arr h' sorted a b,
          h !! filteredCourses = Some l ->
          sortedCoursesOn arraySort filteredCourses sortConfig h = Some (arr, h') ->
          h' !! arr = Some sorted ->
          less (key sortConfig) a b = false -> less (key sortConfig) b a = false ->
          before a b l -> before a b sorted).
Proof.
  split; [apply shortArraySort_conforming|]. split; [vm_compute; reflexivity|].
  intros H.
  set (cfg := {| key := "course_rating"; direction := "ascending" |}).
  set (h := <[7%nat := example_rated]> (∅ : gmap nat (list Course.t))).
  destruct (sortedCoursesOn shortArraySort 7 cfg h) as [[arr h']|] eqn:E;
    [|vm_compute in E; discriminate E].
  specialize (H shortArraySort shortArraySort_conforming 7%nat cfg h example_rated arr h'
                [ rated "FNCE-6130" (Finite 1); rated "STAT-6130" (Finite 1);
                  rated "ACCT-6110" (Finite 2); rated "MGMT-6110" NaN ]
                (rated "MGMT-6110" NaN) (rated "STAT-6130" (Finite 1))
                eq_refl E).
  assert (Hb : before (rated "MGMT-6110" NaN) (rated "STAT-6130" (Finite 1))
                 [ rated "FNCE-6130" (Finite 1); rated "STAT-6130" (Finite 1);
                   rated "ACCT-6110" (Finite 2); rated "MGMT-6110" NaN ]).
  { apply H; [|reflexivity|reflexivity|].
    - vm_compute in E. injection E as <- <-. vm_compute. reflexivity.
    - apply sublist_cons, sublist_cons, sublist_skip, sublist_skip, sublist_nil_l. }
  unfold before in Hb.
  apply (fmap_sublist Course.Course_Code) in Hb. cbn in Hb.
  apply sublist_cons_r in Hb as [Hb|(l' & Hl & _)]; [|discriminate Hl].
  apply sublist_cons_r in Hb as [Hb|(l' & Hl & _)]; [|discriminate Hl].
  apply sublist_cons_r in Hb as [Hb|(l' & Hl & _)]; [|discriminate Hl].
  apply sublist_cons_r in Hb as [Hb|(l' & Hl & Hb)].
  - apply sublist_nil_r in Hb. discriminate Hb.
  - injection Hl as <-. apply sublist_nil_r in Hb. discriminate Hb.
Qed.

(** * Further properties *)

(** ** Toggling sessions *)

Lemma isSelected_toggle id m id' :
  isSelected (toggleSession id m) id' =
  if String.eqb id id' then negb (isSelected m id) else isSelected m id'.
Proof.
  unfold toggleSession, isSelected at 1.
  destruct (String.eqb_spec id id') as [<-|Hne].
  - rewrite lookup_insert_eq. reflexivity.
  - rewrite lookup_insert_ne by exact Hne. reflexivity.
Qed.

Lemma selection_ext courses m m' :
  (forall id, isSelected m id = isSelected m' id) ->
  selection courses m = selection courses m'.
Proof.
  intros H. unfold selection.
  induction courses as [|c cs IH]; cbn; [reflexivity|]. rewrite IH. f_equal.
  induction (Course.sections c) as [|s ss IHs]; cbn; [reflexivity|].
  rewrite H, IHs. reflexivity.
Qed.

Lemma selected_sections_In courses m s :
  In s (selected_sections courses m) <->
  In s (allSections courses) /\ isSelected m (Sec.Session_ID s) = true.
Proof.
  unfold selected_sections, allSections. rewrite !in_flat_map. split.
  - intros (c & Hc & H). apply filter_In in H as [H1 H2]. split; [exists c; auto|exact H2].
  - intros [(c & Hc & H1) H2]. exists c. split; [exact Hc|]. apply filter_In. auto.
Qed.

Lemma selectedList_sections courses m :
  List.map Selected.section (selectedList courses m) = selected_sections courses m.
Proof.
  unfold selectedList.
  rewrite (proj1 (map_info_section _ _ (markConflicts_info _))).
  apply selection_sections.
Qed.

(** X1: toggling a session twice leaves the selection list and the total
    as they were. *)
Theorem toggleSession_twice courses selectedSessions id :
  selectedList courses (toggleSession id (toggleSession id selectedSessions))
  = selectedList courses selectedSessions
  /\ total courses (toggleSession id (toggleSession id selectedSessions))
     = total courses selectedSessions.
Proof.
  assert (H : selection courses (toggleSession id (toggleSession id selectedSessions))
              = selection courses selectedSessions).
  { apply selection_ext. intros id'. rewrite !isSelected_toggle.
    destruct (String.eqb_spec id id') as [<-|Hne].
    - rewrite String.eqb_refl, negb_involutive. reflexivity.
    - reflexivity. }
  unfold total, selectedList. rewrite H. split; reflexivity.
Qed.

(** X2: after a toggle the selection list holds exactly the sections of
    the catalog that carry the toggled id, if that id was not selected, and
    those of the other ids that were selected; all the sections that share
    the id are toggled together. *)
Theorem toggleSession_selection courses selectedSessions id s :
  In s (List.map Selected.section (selectedList courses (toggleSession id selectedSessions)))
  <-> In s (allSections courses)
      /\ (if String.eqb id (Sec.Session_ID s)
          then isSelected selectedSessions id = false
          else isSelected selectedSessions (Sec.Session_ID s) = true).
Proof.
  rewrite selectedList_sections, selected_sections_In, isSelected_toggle.
  destruct (String.eqb id (Sec.Session_ID s)); [|reflexivity].
  rewrite negb_true_iff. reflexivity.
Qed.

(** X3: before any toggle the selection list is empty and the total is 0,
    unless a section of the catalog has the id of an inherited property:
    such a section counts as selected from the start. *)
Theorem nothing_selected courses :
  (selectedList courses ∅ = [] <-> ~ inherited_id courses)
  /\ (~ inherited_id courses -> total courses ∅ = Finite 0).
Proof.
  assert (H : selectedList courses ∅ = [] <-> ~ inherited_id courses).
  { split.
    - intros E (s & Hs & Hi).
      assert (Hin : In s (List.map Selected.section (selectedList courses ∅))).
      { rewrite selectedList_sections. apply selected_sections_In. split; [exact Hs|].
        unfold isSelected. rewrite lookup_empty. exact Hi. }
      rewrite E in Hin. destruct Hin.
    - intros Hn. pose proof (selectedList_sections courses ∅) as E.
      destruct (selected_sections courses ∅) as [|s ss] eqn:Es.
      + destruct (selectedList courses ∅); [reflexivity|discriminate E].
      + exfalso. apply Hn. exists s.
        assert (Hin : In s (selected_sections courses ∅)) by (rewrite Es; left; reflexivity).
        apply selected_sections_In in Hin as [H1 H2]. split; [exact H1|].
        unfold isSelected in H2. rewrite lookup_empty in H2. exact H2. }
  split; [exact H|]. intros Hn. unfold total. rewrite (proj2 H Hn). reflexivity.
Qed.

Lemma nothing_selected_witness :
  selectedList example_catalog ∅ = [] /\ total example_catalog ∅ = Finite 0.
Proof.
  assert (H : ~ inherited_id example_catalog).
  { intros (s & Hs & Hi). cbn in Hs.
    destruct Hs as [<-|[<-|[<-|[]]]]; vm_compute in Hi; discriminate Hi. }
  split.
  - apply (proj2 (proj1 (nothing_selected example_catalog)) H).
  - apply (proj2 (nothing_selected example_catalog) H).
Defined.

(** ** Conflicts and the total, continued *)

(** X4: conflicts flag entries in pairs: a flagged entry of the selection
    list has a flagged partner at another index with which it conflicts, so
    the list never holds exactly one flagged entry. *)
Theorem flagged_in_pairs courses selectedSessions k e :
  selectedList courses selectedSessions !! k = Some e ->
  Selected.isConflicting e = true ->
  exists j e', j <> k /\ selectedList courses selectedSessions !! j = Some e'
               /\ Selected.isConflicting e' = true
               /\ checkConflict (Selected.section e) (Selected.section e') = true.
Proof.
  intros He Hf. unfold selectedList in *.
  pose proof (selection_unflagged courses selectedSessions) as Hu.
  destruct (proj1 (markConflicts_entry _ _ _ Hu He) Hf) as (j & e' & Hne & He' & Hc).
  exists j, e'. repeat split; try assumption.
  apply (markConflicts_entry _ _ _ Hu He'). exists k, e. repeat split; auto.
  rewrite checkConflict_sym. exact Hc.
Qed.

Lemma flagged_in_pairs_witness :
  exists e j e',
    selectedList example_catalog example_choice !! 0%nat = Some e
    /\ j <> 0%nat /\ selectedList example_catalog example_choice !! j = Some e'
    /\ Selected.isConflicting e' = true
    /\ checkConflict (Selected.section e) (Selected.section e') = true.
Proof.
  destruct (selectedList example_catalog example_choice !! 0%nat) as [e|] eqn:He;
    [|vm_compute in He; discriminate He].
  destruct (flagged_in_pairs example_catalog example_choice 0%nat e He)
    as (j & e' & H1 & H2 & H3 & H4).
  - vm_compute in He. injection He as <-. reflexivity.
  - exists e, j, e'. repeat split; assumption.
Defined.

Lemma hyphenless_never_conflicts A B :
  includes "-" (or_empty (Sec.Time A)) = false ->
  checkConflict A B = false /\ checkConflict B A = false.
Proof.
  intros H.
  assert (Hp : parseTime (Sec.Time A) = {| range_start := 0; range_end := 0 |}).
  { unfold parseTime. destruct (Sec.Time A) as [t|]; [|reflexivity].
    cbn in H. rewrite H, orb_true_r. reflexivity. }
  split; apply not_true_is_false; rewrite checkConflict_iff; unfold ranges_overlap;
    rewrite Hp; cbn; intros [_ [H1 H2]]; lia.
Qed.

Lemma split_no_sep c s : includes c s = false -> split c s = [s].
Proof.
  induction s as [|d t IH]; cbn; [reflexivity|].
  intros H. apply orb_false_iff in H as [Hd Ht].
  rewrite Ascii.eqb_sym, Hd, (IH Ht). reflexivity.
Qed.

(** X5: a selected section whose time has no hyphen cannot be parsed into a
    range: it is never flagged as conflicting, whatever else is selected,
    and it never yields a calendar event. *)
Theorem hyphenless_time courses selectedSessions k e :
  selectedList courses selectedSessions !! k = Some e ->
  hyphenless e ->
  Selected.isConflicting e = false
  /\ forall view, calendarEvents [e] view = [].
Proof.
  intros He Hh. split.
  - apply not_true_is_false. intros Hf.
    unfold selectedList in He.
    destruct (proj1 (markConflicts_entry _ _ _ (selection_unflagged courses selectedSessions) He)
                Hf) as (j & e' & _ & _ & Hc).
    rewrite (proj1 (hyphenless_never_conflicts _ (Selected.section e') Hh)) in Hc.
    discriminate Hc.
  - intros view. rewrite calendarEvents_one. destruct (shown view e); [|reflexivity].
    unfold eventsOf. unfold hyphenless in Hh. rewrite (split_no_sep _ _ Hh). reflexivity.
Qed.

Lemma hyphenless_time_witness :
  exists e,
    selectedList
      [example_course "ACCT-6110" 100 (example_section "A1" (Some "MW") (Some "TBA") (Some "Full"));
       example_course "FNCE-6130" 200
         (example_section "F1" (Some "MW") (Some "9:00am-10:30am") (Some "Full"))]
      (<["A1" := true]> (<["F1" := true]> ∅)) !! 0%nat = Some e
    /\ Selected.isConflicting e = false
    /\ calendarEvents [e] "Overall" = [].
Proof.
  eexists. split; [vm_compute; reflexivity|].
  match goal with |- Selected.isConflicting ?e = _ /\ _ => set (entry := e) end.
  destruct (hyphenless_time
              [example_course "ACCT-6110" 100
                 (example_section "A1" (Some "MW") (Some "TBA") (Some "Full"));
               example_course "FNCE-6130" 200
                 (example_section "F1" (Some "MW") (Some "9:00am-10:30am") (Some "Full"))]
              (<["A1" := true]> (<["F1" := true]> ∅)) 0%nat entry) as [H1 H2].
  - vm_compute. reflexivity.
  - reflexivity.
  - split; [exact H1|apply H2].
Defined.

Lemma entries_eq (l l' : list Selected.t) :
  List.map info l = List.map info l' ->
  (forall k, flagAt l k = flagAt l' k) -> l = l'.
Proof.
  revert l'. induction l as [|e l IH]; intros [|e' l'] Hi Hf; try discriminate Hi; [reflexivity|].
  cbn in Hi. injection Hi as H1 H2 H3 H4 Hi.
  f_equal.
  - pose proof (Hf 0%nat) as H0. unfold flagAt in H0. cbn in H0.
    destruct e, e'. cbn in *. congruence.
  - apply IH; [exact Hi|]. intros k. apply (Hf (S k)).
Qed.

Lemma unflagged_filter l :
  unflagged l -> List.filter (fun e => negb (Selected.isConflicting e)) l = l.
Proof.
  induction l as [|e l IH]; intros H; cbn; [reflexivity|].
  rewrite (H 0%nat e eq_refl). cbn. f_equal. apply IH.
  intros k x Hx. apply (H (S k) x Hx).
Qed.

(** X6: when no two entries of the selection conflict, no entry is flagged
    and the total is the sum of the prices of all selected sections. *)
Theorem conflict_free_total courses selectedSessions :
  (forall i j, i <> j -> conflictAt (selection courses selectedSessions) i j = false) ->
  selectedList courses selectedSessions = selection courses selectedSessions
  /\ total courses selectedSessions = sum_prices (selection courses selectedSessions).
Proof.
  intros Hfree.
  assert (E : selectedList courses selectedSessions = selection courses selectedSessions).
  { unfold selectedList. apply entries_eq; [apply markConflicts_info|].
    intros k. pose proof (selection_unflagged courses selectedSessions) as Hu.
    assert (H0 : flagAt (selection courses selectedSessions) k = false).
    { unfold flagAt. destruct (_ !! k) eqn:Ek; [eapply Hu; eauto|reflexivity]. }
    rewrite H0. apply not_true_is_false. rewrite markConflicts_flag, H0.
    intros [H|(j & Hne & Hc)]; [discriminate H|].
    rewrite Hfree in Hc by auto. discriminate Hc. }
  split; [exact E|].
  unfold total, totalPrice, sum_prices. rewrite E, totalPrice_fold.
  rewrite unflagged_filter by apply selection_unflagged. reflexivity.
Qed.

Lemma conflict_free_total_witness :
  total example_catalog (<["ACCT6110001" := true]> (<["MGMT6110003" := true]> ∅))
  = sum_prices (selection example_catalog
                  (<["ACCT6110001" := true]> (<["MGMT6110003" := true]> ∅))).
Proof.
  apply (conflict_free_total example_catalog).
  intros i j Hne. unfold conflictAt.
  destruct i as [|[|i]], j as [|[|j]]; try reflexivity; congruence.
Defined.

(** ** Calendar events, continued *)

Lemma calendarEvents_cons e l view :
  calendarEvents (e :: l) view
  = ((if shown view e then eventsOf e else []) ++ calendarEvents l view)%list.
Proof.
  unfold calendarEvents. cbn. destruct (shown view e); reflexivity.
Qed.

Lemma weekdays_range days d : In d (weekdays days) -> (1 <= d <= 5)%nat.
Proof.
  unfold weekdays. rewrite in_flat_map. intros (c & _ & H).
  destruct (dayMap c) as [n|] eqn:E; [|destruct H]. destruct H as [<-|[]].
  unfold dayMap in E.
  repeat match type of E with
         | (if ?b then _ else _) = _ => destruct b
         end; first [injection E as <-; lia | discriminate E].
Qed.

Lemma termsToShow_overall view t :
  In t (termsToShow view) -> In t ["Full"; "Q1"; "Q2"].
Proof.
  unfold termsToShow.
  destruct (String.eqb view "Overall"); [auto|].
  destruct (String.eqb view "Q1"); cbn; tauto.
Qed.

(** X7: every calendar event comes from an entry of the list that is not
    flagged; its title is the course code of that entry, its weekdays are a
    non-empty list of numbers from 1 to 5, it is not an all-day event, and
    its colour is one of the three term colours: the grey of the fallback is
    never used. *)
Theorem calendarEvents_wellformed l view ev :
  In ev (calendarEvents l view) ->
  exists e, In e l
    /\ Selected.isConflicting e = false
    /\ Event.title ev = Selected.Course_Code e
    /\ Event.daysOfWeek ev <> []
    /\ (forall d, In d (Event.daysOfWeek ev) -> (1 <= d <= 5)%nat)
    /\ Event.allDay ev = false
    /\ In (Event.color ev) ["#3788d8"; "#4caf50"; "#ff9800"].
Proof.
  unfold calendarEvents. rewrite in_flat_map. intros (e & He & Hev).
  apply filter_In in He as [Hin Hs]. apply shown_eligible in Hs as (_ & _ & Hf & t & Ht & Hv).
  exists e. split; [exact Hin|]. split; [exact Hf|].
  unfold eventsOf in Hev.
  destruct (nth_error _ 1) as [endTime|]; [|destruct Hev].
  destruct (negb _ || negb _); [destruct Hev|].
  destruct (weekdays _) as [|d ds] eqn:W; [destruct Hev|].
  cbn [length Nat.eqb] in Hev. destruct Hev as [<-|[]]. cbn.
  split; [reflexivity|]. split; [discriminate|]. split.
  - intros x Hx. apply (weekdays_range (or_empty (Sec.Days (Selected.section e)))).
    rewrite W. exact Hx.
  - split; [reflexivity|]. rewrite Ht. cbn [or_empty].
    apply termsToShow_overall in Hv. cbn in Hv.
    destruct Hv as [<-|[<-|[<-|[]]]]; cbn; auto.
Qed.

Lemma calendarEvents_wellformed_witness :
  exists ev e,
    In ev (calendarEvents
             [example_entry "ACCT-6110" (Some "MWS") (Some "9:00am-10:30am") (Some "Q1")] "Q1")
    /\ In e [example_entry "ACCT-6110" (Some "MWS") (Some "9:00am-10:30am") (Some "Q1")]
    /\ Event.title ev = Selected.Course_Code e
    /\ Event.daysOfWeek ev <> [].
Proof.
  eexists. 
  assert (Hin : In {| Event.title := "ACCT-6110"; Event.daysOfWeek := [1; 3]%nat;
                      Event.startTime := "09:00:00"; Event.endTime := "10:30:00";
                      Event.allDay := false; Event.color := "#4caf50" |}
                   (calendarEvents
                      [example_entry "ACCT-6110" (Some "MWS") (Some "9:00am-10:30am") (Some "Q1")]
                      "Q1")) by (left; reflexivity).
  destruct (calendarEvents_wellformed _ _ _ Hin) as (e & H1 & _ & H3 & H4 & _).
  exists e. split; [exact Hin|]. repeat split; assumption.
Defined.

Lemma shown_overall view e : shown view e = true -> shown "Overall" e = true.
Proof.
  rewrite !shown_eligible. intros (H1 & H2 & H3 & t & Ht & Hv).
  repeat split; try assumption. exists t. split; [exact Ht|].
  apply termsToShow_overall in Hv. exact Hv.
Qed.

Lemma shown_quarter e :
  shown "Overall" e = true -> shown "Q1" e = true \/ shown "Q2" e = true.
Proof.
  rewrite !shown_eligible. intros (H1 & H2 & H3 & t & Ht & Hv).
  cbn in Hv. destruct Hv as [<-|[<-|[<-|[]]]].
  - left. repeat split; try assumption. exists "Full". split; [exact Ht|cbn; auto].
  - left. repeat split; try assumption. exists "Q1". split; [exact Ht|cbn; auto].
  - right. repeat split; try assumption. exists "Q2". split; [exact Ht|cbn; auto].
Qed.

(** X8: whatever the view, its events are events of the Overall view, in
    the same order; and every event of the Overall view is an event of the
    Q1 view or of the Q2 view. *)
Theorem calendarEvents_views l :
  (forall view, sublist (calendarEvents l view) (calendarEvents l "Overall"))
  /\ (forall ev, In ev (calendarEvents l "Overall") ->
        In ev (calendarEvents l "Q1") \/ In ev (calendarEvents l "Q2")).
Proof.
  split.
  - intros view. induction l as [|e l IH]; [reflexivity|].
    rewrite !calendarEvents_cons. apply sublist_app; [|exact IH].
    destruct (shown view e) eqn:E; [|apply sublist_nil_l].
    rewrite (shown_overall _ _ E). reflexivity.
  - intros ev. unfold calendarEvents. rewrite !in_flat_map.
    intros (e & He & Hev). apply filter_In in He as [Hin Hs].
    destruct (shown_quarter _ Hs) as [H|H]; [left|right];
      exists e; (split; [apply filter_In; auto|exact Hev]).
Qed.

Lemma calendarEvents_views_witness :
  In {| Event.title := "ACCT-6110"; Event.daysOfWeek := [1; 3]%nat;
        Event.startTime := "09:00:00"; Event.endTime := "10:30:00";
        Event.allDay := false; Event.color := "#4caf50" |}
     (calendarEvents
        [example_entry "ACCT-6110" (Some "MWS") (Some "9:00am-10:30am") (Some "Q1")] "Q1")
  \/ In {| Event.title := "ACCT-6110"; Event.daysOfWeek := [1; 3]%nat;
           Event.startTime := "09:00:00"; Event.endTime := "10:30:00";
           Event.allDay := false; Event.color := "#4caf50" |}
        (calendarEvents
           [example_entry "ACCT-6110" (Some "MWS") (Some "9:00am-10:30am") (Some "Q1")] "Q2").
Proof.
  apply (proj2 (calendarEvents_views _)). left. reflexivity.
Defined.

(** ** Sorting, continued *)

(** X9: the comparison of two courses is antisymmetric, and with any
    direction other than "ascending" it is the opposite of the ascending
    comparison on the same key. *)
Theorem compareCourses_opposite sortConfig a b :
  compareCourses sortConfig b a = (- compareCourses sortConfig a b)%Z
  /\ (direction sortConfig <> "ascending" ->
      compareCourses sortConfig a b
      = (- compareCourses {| key := key sortConfig; direction := "ascending" |} a b)%Z).
Proof.
  unfold compareCourses. cbn [key direction]. split.
  - destruct (less (key sortConfig) a b) eqn:Hab.
    + rewrite (less_asym _ _ _ Hab).
      destruct (String.eqb (direction sortConfig) "ascending"); reflexivity.
    + destruct (less (key sortConfig) b a);
        destruct (String.eqb (direction sortConfig) "ascending"); reflexivity.
  - intros Hd. apply String.eqb_neq in Hd. rewrite Hd.
    destruct (less (key sortConfig) a b); [reflexivity|].
    destruct (less (key sortConfig) b a); reflexivity.
Qed.

Lemma compareCourses_opposite_witness :
  compareCourses {| key := "Average_Price"; direction := "descending" |}
    (example_course "STAT-6130" 100 (example_section "S1" None None None))
    (example_course "FNCE-6130" 300 (example_section "F1" None None None))
  = (- compareCourses {| key := "Average_Price"; direction := "ascending" |}
         (example_course "STAT-6130" 100 (example_section "S1" None None None))
         (example_course "FNCE-6130" 300 (example_section "F1" None None None)))%Z.
Proof.
  apply (proj2 (compareCourses_opposite
                  {| key := "Average_Price"; direction := "descending" |} _ _)).
  discriminate.
Defined.

(** X10: when the comparison is consistent on the filtered list, sorting
    the sorted array again, with the same configuration, gives another array
    with the same contents, on every engine. *)
Theorem sortedCourses_again arraySort filteredCourses sortConfig (h : heap) l arr h' arr2 h2 :
  conforming arraySort ->
  h !! filteredCourses = Some l ->
  consistent (compareCourses sortConfig) l ->
  sortedCoursesOn arraySort filteredCourses sortConfig h = Some (arr, h') ->
  sortedCoursesOn arraySort arr sortConfig h' = Some (arr2, h2) ->
  h2 !! arr2 = h' !! arr /\ arr2 <> arr.
Proof.
  intros Hconf Hl Hc. unfold sortedCoursesOn. rewrite Hl.
  intros [= <- <-].
  set (a := fresh (dom h)).
  set (f := arraySort (compareCourses sortConfig)).
  set (h1 := alter f a (<[a := l]> h)).
  assert (E : h1 !! a = Some (f l)).
  { unfold h1. rewrite lookup_alter_eq, lookup_insert_eq. reflexivity. }
  rewrite E. intros [= <- <-].
  set (a2 := fresh (dom h1)).
  assert (Hne : a2 <> a).
  { intros Ea. apply (is_fresh (dom h1)). fold a2. rewrite Ea.
    apply elem_of_dom. rewrite E. eauto. }
  split; [|exact Hne].
  rewrite lookup_alter_eq, lookup_insert_eq. cbn. f_equal.
  unfold f. rewrite (proj2 (Hconf _ l) Hc).
  assert (Hc' : consistent (compareCourses sortConfig) (sort (compareCourses sortConfig) l)).
  { intros x y z Hx Hy Hz. apply Hc; apply (sort_In (compareCourses sortConfig) l); assumption. }
  rewrite (proj2 (Hconf _ _) Hc').
  apply sort_fixed, sort_ordered, compareCourses_anti.
Qed.

Lemma sortedCourses_again_witness :
  exists arr h' arr2 h2,
    sortedCourses 7 initialSort example_heap = Some (arr, h')
    /\ sortedCourses arr initialSort h' = Some (arr2, h2)
    /\ h2 !! arr2 = h' !! arr.
Proof.
  destruct (sortedCourses 7 initialSort example_heap) as [[arr h']|] eqn:E1;
    [|vm_compute in E1; discriminate E1].
  destruct (sortedCourses arr initialSort h') as [[arr2 h2]|] eqn:E2.
  - exists arr, h', arr2, h2. split; [reflexivity|]. split; [exact E2|].
    refine (proj1 (sortedCourses_again sort 7%nat initialSort example_heap example_filtered
                     arr h' arr2 h2 sort_conforming eq_refl _ E1 E2)).
    apply compareCourses_consistent. intros c Hc. cbn in Hc.
    repeat (destruct Hc as [<-|Hc]; [reflexivity|]). destruct Hc.
  - exfalso. vm_compute in E1. injection E1 as <- <-. vm_compute in E2. discriminate E2.
Defined.

(** X11: a click on a column header sorts by that column; it sorts in
    ascending order unless the list was already sorted by that column in
    ascending order, so repeated clicks on one column alternate the
    direction and the third click restores the configuration of the first. *)
Theorem requestSort_alternates k prev :
  key (requestSort k prev) = k
  /\ (key prev <> k -> direction (requestSort k prev) = "ascending")
  /\ (direction (requestSort k prev) = "ascending" ->
      direction (requestSort k (requestSort k prev)) = "descending")
  /\ (direction (requestSort k prev) = "descending" ->
      direction (requestSort k (requestSort k prev)) = "ascending")
  /\ requestSort k (requestSort k (requestSort k prev)) = requestSort k prev.
Proof.
  unfold requestSort. cbn [key direction]. rewrite String.eqb_refl. cbn [andb].
  split; [reflexivity|]. split.
  - intros Hne. apply String.eqb_neq in Hne. rewrite Hne. reflexivity.
  - destruct (String.eqb (key prev) k && String.eqb (direction prev) "ascending");
      cbn; repeat split; intros; first [reflexivity | discriminate].
Qed.

Lemma requestSort_alternates_witness :
  direction (requestSort "Title" initialSort) = "ascending"
  /\ direction (requestSort "Title" (requestSort "Title" initialSort)) = "descending".
Proof.
  split.
  - apply (proj1 (proj2 (requestSort_alternates "Title" initialSort))). discriminate.
  - apply (proj1 (proj2 (proj2 (requestSort_alternates "Title" initialSort)))). reflexivity.
Defined.

(** ** Filters and search *)

Lemma filter_throwing_None {A : Type} (f : A -> option bool) l :
  filter_throwing f l = None <-> exists x, In x l /\ f x = None.
Proof.
  induction l as [|x t IH]; cbn.
  - split; [discriminate|]. intros (x & [] & _).
  - destruct (f x) as [b|] eqn:E.
    + destruct (filter_throwing f t) as [r|].
      * split; [discriminate|]. intros (y & [<-|Hy] & Hf); [congruence|].
        assert (H : Some r = None) by (apply (proj2 IH); eauto). discriminate H.
      * split; [|reflexivity]. intros _. destruct (proj1 IH eq_refl) as (y & Hy & Hf). eauto.
    + split; [|reflexivity]. intros _. eauto.
Qed.

Lemma filter_throwing_Some {A : Type} (f : A -> option bool) (p : A -> bool) l :
  (forall x, In x l -> f x = Some (p x)) ->
  filter_throwing f l = Some (List.filter p l).
Proof.
  induction l as [|x t IH]; intros H; cbn; [reflexivity|].
  rewrite (H x (or_introl eq_refl)), IH by (intros y Hy; apply H; right; exact Hy).
  reflexivity.
Qed.

Lemma filter_true {A : Type} (p : A -> bool) l :
  (forall x, In x l -> p x = true) -> List.filter p l = l.
Proof.
  induction l as [|x t IH]; intros H; cbn; [reflexivity|].
  rewrite (H x (or_introl eq_refl)), IH by (intros y Hy; apply H; right; exact Hy).
  reflexivity.
Qed.

Section ViewProperties.

Variable numberToString : number -> string.

Lemma filteredCourses_unsearched courses filters :
  filteredCourses numberToString courses filters ""
  = Some (List.filter (matchesFilters numberToString filters) courses).
Proof.
  unfold filteredCourses. apply filter_throwing_Some. intros c _. reflexivity.
Qed.

(** X12: with the filters and the query that [resetFilters] sets, the
    filtered list is the whole catalog, and the search does not throw. *)
Theorem resetFilters_shows_all courses :
  filteredCourses numberToString courses (fst resetFilters) (snd resetFilters) = Some courses.
Proof.
  cbn [resetFilters fst snd]. rewrite filteredCourses_unsearched. f_equal.
  apply filter_true. intros c _. reflexivity.
Qed.

(** X13: filtering throws exactly when the query is not empty and the
    catalog holds a course without a title whose code does not contain the
    query; the filters play no part in it. *)
Theorem filteredCourses_throws courses filters searchQuery :
  filteredCourses numberToString courses filters searchQuery = None
  <-> exists c, In c courses /\ search_throws searchQuery c.
Proof.
  unfold filteredCourses, search_throws. rewrite filter_throwing_None.
  split; intros (c & Hc & H); exists c; (split; [exact Hc|]).
  - unfold matchesSearch in H.
    destruct (String.eqb_spec (toLowerCaseText searchQuery) "") as [E|E]; [discriminate H|].
    destruct (includesText _ _); [discriminate H|].
    destruct (Course.Title c); [discriminate H|]. auto.
  - destruct H as (Hq & Hi & Ht). unfold matchesSearch.
    apply String.eqb_neq in Hq. rewrite Hq, Hi, Ht. reflexivity.
Qed.

End ViewProperties.

(** ** Filter options *)

Lemma setOf_In {A : Type} (eqb : A -> A -> bool) l x :
  (forall a b, eqb a b = true <-> a = b) ->
  In x (setOf eqb l) <-> In x l.
Proof.
  intros Heq. induction l as [|y t IH]; cbn; [reflexivity|].
  rewrite filter_In, IH, negb_true_iff. split.
  - intros [H|[H _]]; auto.
  - intros [H|H]; [auto|].
    destruct (eqb y x) eqn:E; [left; apply Heq, E|right; auto].
Qed.

Lemma setOf_NoDup {A : Type} (eqb : A -> A -> bool) l :
  (forall a b, eqb a b = true <-> a = b) -> NoDup (setOf eqb l).
Proof.
  intros Heq. induction l as [|y t IH]; cbn; [constructor|].
  constructor.
  - rewrite list_elem_of_In, filter_In, negb_true_iff. intros [_ H].
    assert (E : eqb y y = true) by (apply Heq; reflexivity). congruence.
  - apply NoDup_ListNoDup, List.NoDup_filter, NoDup_ListNoDup, IH.
Qed.

Lemma sameValue_eq a b : sameValue a b = true <-> a = b.
Proof.
  destruct a as [x|], b as [y|]; cbn; try (split; congruence).
  rewrite String.eqb_eq. split; congruence.
Qed.

Lemma truthyStrings_In l d : In d (truthyStrings l) <-> d <> "" /\ In (Some d) l.
Proof.
  unfold truthyStrings. rewrite in_flat_map. split.
  - intros (o & Ho & H). destruct o as [[|c s]|]; cbn in H; [destruct H| |destruct H].
    destruct H as [<-|[]]. split; [discriminate|exact Ho].
  - intros [Hd H]. exists (Some d). split; [exact H|].
    destruct d; [congruence|]. left. reflexivity.
Qed.

Lemma truthyStrings_NoDup l : NoDup l -> NoDup (truthyStrings l).
Proof.
  induction l as [|o t IH]; intros H; [constructor|].
  apply NoDup_cons in H as [Ho Ht]. unfold truthyStrings. cbn.
  fold (truthyStrings t). destruct (truthy o) eqn:E; cbn; [|auto].
  constructor; [|auto]. rewrite list_elem_of_In, truthyStrings_In. intros [_ H].
  destruct o as [s|]; [|discriminate E]. cbn in H. apply Ho, list_elem_of_In, H.
Qed.

Lemma compareStrings_anti u v :
  (0 < compareStrings u v)%Z -> (compareStrings v u <= 0)%Z.
Proof.
  unfold compareStrings. destruct (String.ltb u v) eqn:E; [lia|].
  destruct (String.ltb v u); lia.
Qed.

Lemma sort_strings_ascending l : NoDup l -> ascending (sort compareStrings l).
Proof.
  intros Hl i x y Hx Hy.
  pose proof (sort_ordered compareStrings compareStrings_anti l i x y Hx Hy) as Hc.
  assert (Hne : x <> y).
  { intros ->. assert (Hd : NoDup (sort compareStrings l)).
    { apply NoDup_ListNoDup. eapply Permutation_NoDup; [apply sort_perm|].
      apply NoDup_ListNoDup, Hl. }
    pose proof (NoDup_lookup _ _ _ _ Hd Hx Hy). lia. }
  destruct (string_ltb_total x y Hne) as [H|H]; [exact H|].
  unfold compareStrings in Hc. rewrite H in Hc.
  destruct (String.ltb x y); [reflexivity|lia].
Qed.

Lemma sortedOptions_spec values :
  ascending (sortedOptions values)
  /\ forall d, In d (sortedOptions values) <-> d <> "" /\ In (Some d) values.
Proof.
  unfold sortedOptions. split.
  - apply sort_strings_ascending, truthyStrings_NoDup, setOf_NoDup, sameValue_eq.
  - intros d. rewrite sort_In, truthyStrings_In, (setOf_In _ _ _ sameValue_eq). reflexivity.
Qed.

Lemma allSections_field (f : Sec.t -> option string) courses d :
  In (Some d) (List.map f (allSections courses)) <->
  exists c s, In c courses /\ In s (Course.sections c) /\ f s = Some d.
Proof.
  rewrite in_map_iff. unfold allSections. split.
  - intros (s & Hf & Hs). apply in_flat_map in Hs as (c & Hc & Hs). eauto.
  - intros (c & s & Hc & Hs & Hf). exists s. split; [exact Hf|].
    apply in_flat_map. eauto.
Qed.

Lemma field_options (f : Sec.t -> option string) courses :
  ascending (sortedOptions (List.map f (allSections courses)))
  /\ forall d, In d (sortedOptions (List.map f (allSections courses))) <->
       d <> "" /\ exists c s, In c courses /\ In s (Course.sections c) /\ f s = Some d.
Proof.
  destruct (sortedOptions_spec (List.map f (allSections courses))) as [H1 H2].
  split; [exact H1|]. intros d. rewrite H2, allSections_field. reflexivity.
Qed.

(** X14: the day, time and term options are in strictly ascending order,
    so without repetition, and they are exactly the non-empty values that
    some section of the catalog has in that field; the department options are
    in strictly ascending order and are exactly the first four characters of
    the course codes. *)
Theorem filterOptions_spec courses :
  (ascending (uniqueDays courses)
   /\ forall d, In d (uniqueDays courses) <->
        d <> "" /\ exists c s, In c courses /\ In s (Course.sections c) /\ Sec.Days s = Some d)
  /\ (ascending (uniqueTimes courses)
      /\ forall d, In d (uniqueTimes courses) <->
           d <> "" /\ exists c s, In c courses /\ In s (Course.sections c)
                                  /\ Sec.Time s = Some d)
  /\ (ascending (uniqueTerms courses)
      /\ forall d, In d (uniqueTerms courses) <->
           d <> "" /\ exists c s, In c courses /\ In s (Course.sections c)
                                  /\ Sec.Term s = Some d)
  /\ (ascending (depts courses)
      /\ forall d, In d (depts courses) <->
           exists c, In c courses /\ slice_to 4 (Course.Course_Code c) = d).
Proof.
  split; [apply (field_options Sec.Days)|].
  split; [apply (field_options Sec.Time)|].
  split; [apply (field_options Sec.Term)|].
  unfold depts. split.
  - apply sort_strings_ascending, setOf_NoDup. intros a b. apply String.eqb_eq.
  - intros d. rewrite sort_In, (setOf_In _ _ _ String.eqb_eq), in_map_iff.
    split; intros (c & H1 & H2); eauto.
Qed.

Lemma prefix_slice_to n s : String.prefix (slice_to n s) s = true.
Proof.
  revert s. induction n as [|n IH]; intros [|c s]; cbn; try reflexivity.
  rewrite IH. destruct (ascii_dec c c); [reflexivity|congruence].
Qed.

Lemma strictEq_Some o v : strictEq o v = true <-> o = Some v.
Proof.
  destruct o as [s|]; cbn; [|split; discriminate].
  rewrite String.eqb_eq. split; congruence.
Qed.

Lemma lower_latin1_idem c : lower_latin1 (lower_latin1 c) = lower_latin1 c.
Proof.
  destruct c as [[] [] [] [] [] [] [] []]; reflexivity.
Qed.

Lemma lower_latin1_upper c : lower_latin1 (upper_char c) = lower_latin1 c.
Proof.
  destruct c as [[] [] [] [] [] [] [] []]; reflexivity.
Qed.

Lemma toLowerCaseText_idem s : toLowerCaseText (toLowerCaseText s) = toLowerCaseText s.
Proof.
  induction s as [|c s IH]; cbn; [reflexivity|].
  rewrite lower_latin1_idem. f_equal. exact IH.
Qed.

Lemma toLowerCaseText_upper s : toLowerCaseText (toUpperCase s) = toLowerCaseText s.
Proof.
  induction s as [|c s IH]; cbn; [reflexivity|].
  rewrite lower_latin1_upper. f_equal. exact IH.
Qed.

Section OptionProperties.

Variable numberToString : number -> string.

(** X15: choosing an offered day, time or term lists exactly the courses
    that have a section with that value, and choosing an offered department
    lists exactly the courses whose code starts with it; in each case at
    least one course is listed. *)
Theorem offered_option_matches courses d :
  (In d (uniqueDays courses) ->
   exists l, filteredCourses numberToString courses
               (handleFilterChange "day" d noFilters) "" = Some l
     /\ l <> []
     /\ forall c, In c l <->
          In c courses /\ exists s, In s (Course.sections c) /\ Sec.Days s = Some d)
  /\ (In d (uniqueTimes courses) ->
      exists l, filteredCourses numberToString courses
                  (handleFilterChange "time" d noFilters) "" = Some l
        /\ l <> []
        /\ forall c, In c l <->
             In c courses /\ exists s, In s (Course.sections c) /\ Sec.Time s = Some d)
  /\ (In d (uniqueTerms courses) ->
      exists l, filteredCourses numberToString courses
                  (handleFilterChange "term" d noFilters) "" = Some l
        /\ l <> []
        /\ forall c, In c l <->
             In c courses /\ exists s, In s (Course.sections c) /\ Sec.Term s = Some d)
  /\ (In d (depts courses) ->
      exists l, filteredCourses numberToString courses
                  (handleFilterChange "dept" d noFilters) "" = Some l
        /\ l <> []
        /\ forall c, In c l <->
             In c courses /\ (d = "" \/ String.prefix d (Course.Course_Code c) = true)).
Proof.
  pose proof (proj2 (field_options Sec.Days courses)) as Hd.
  pose proof (proj2 (field_options Sec.Time courses)) as Ht.
  pose proof (proj2 (field_options Sec.Term courses)) as Hm.
  assert (Hp : forall d, In d (depts courses) <->
                 exists c, In c courses /\ slice_to 4 (Course.Course_Code c) = d).
  { intros d'. unfold depts. rewrite sort_In, (setOf_In _ _ _ String.eqb_eq), in_map_iff.
    split; intros (c & H1 & H2); eauto. }
  assert (Hfield : forall (f : Sec.t -> option string) filters,
    d <> "" ->
    (forall c, matchesFilters numberToString filters c
               = existsb (fun s => strictEq (f s) d) (Course.sections c)) ->
    (exists c s, In c courses /\ In s (Course.sections c) /\ f s = Some d) ->
    exists l, filteredCourses numberToString courses filters "" = Some l
      /\ l <> []
      /\ forall c, In c l <->
           In c courses /\ exists s, In s (Course.sections c) /\ f s = Some d).
  { intros f filters Hne Hm' (c0 & s0 & Hc0 & Hs0 & Hf0).
    eexists. split; [apply filteredCourses_unsearched|].
    assert (Hin : forall c, In c (List.filter (matchesFilters numberToString filters) courses)
                    <-> In c courses /\ exists s, In s (Course.sections c) /\ f s = Some d).
    { intros c. rewrite filter_In, Hm', existsb_exists.
      split; intros [H1 (s & H2 & H3)]; (split; [exact H1|]); exists s;
        (split; [exact H2|]); apply strictEq_Some; exact H3. }
    split; [|exact Hin].
    intros E. assert (H : In c0 []) by (rewrite <- E; apply Hin; eauto). destruct H. }
  split; [|split; [|split]].
  - intros H. apply Hd in H as [Hne Hex]. apply (Hfield Sec.Days); [exact Hne| |exact Hex].
    intros c. unfold matchesFilters. cbn. destruct d; [congruence|].
    cbn. rewrite !andb_true_r. reflexivity.
  - intros H. apply Ht in H as [Hne Hex]. apply (Hfield Sec.Time); [exact Hne| |exact Hex].
    intros c. unfold matchesFilters. cbn. destruct d; [congruence|].
    cbn. rewrite !andb_true_r. reflexivity.
  - intros H. apply Hm in H as [Hne Hex]. apply (Hfield Sec.Term); [exact Hne| |exact Hex].
    intros c. unfold matchesFilters. cbn. destruct d; [congruence|].
    cbn. rewrite !andb_true_r. reflexivity.
  - intros H. apply Hp in H as (c0 & Hc0 & Hs0).
    eexists. split; [apply filteredCourses_unsearched|].
    assert (Hin : forall c,
      In c (List.filter (matchesFilters numberToString (handleFilterChange "dept" d noFilters))
              courses)
      <-> In c courses /\ (d = "" \/ String.prefix d (Course.Course_Code c) = true)).
    { intros c. rewrite filter_In. unfold matchesFilters. cbn. rewrite !andb_true_r.
      destruct d as [|a d']; cbn [nonempty negb orb].
      - split; intros [H1 _]; auto.
      - split; intros [H1 H2]; (split; [exact H1|]); [auto|].
        destruct H2 as [H2|H2]; [discriminate H2|exact H2]. }
    split; [|exact Hin].
    intros E. assert (H : In c0 []).
    { rewrite <- E. apply Hin. split; [exact Hc0|]. right. rewrite <- Hs0.
      apply prefix_slice_to. }
    destruct H.
Qed.

(** X16: a section that matches the day, time, term and credits filters
    keeps its course in the filtered list, provided the department filter
    accepts the course. *)
Theorem isMatch_keeps_course courses filters c s l :
  filteredCourses numberToString courses filters "" = Some l ->
  In c courses -> In s (Course.sections c) ->
  isMatch numberToString filters s = true ->
  Filters.dept filters = "" \/ String.prefix (Filters.dept filters) (Course.Course_Code c) = true ->
  In c l.
Proof.
  rewrite filteredCourses_unsearched. intros [= <-] Hc Hs Hm Hd.
  apply filter_In. split; [exact Hc|].
  unfold isMatch in Hm. unfold matchesFilters.
  apply andb_true_iff in Hm as [Hm H4]. apply andb_true_iff in Hm as [Hm H3].
  apply andb_true_iff in Hm as [H1 H2].
  assert (Hex : forall (p : Sec.t -> bool) b,
            b || p s = true -> b || existsb p (Course.sections c) = true).
  { intros p b H. apply orb_true_iff in H as [->|H]; [reflexivity|].
    apply orb_true_iff. right. apply existsb_exists. eauto. }
  rewrite (Hex _ _ H1), (Hex _ _ H2), (Hex _ _ H3), (Hex _ _ H4), !andb_true_r.
  destruct Hd as [-> | ->]; [reflexivity|apply orb_true_r].
Qed.

(** X17: the search does not distinguish the case of the query: the query,
    its lower-case form and its form with the letters a-z in upper case give
    the same result. *)
Theorem search_ignores_case courses filters searchQuery :
  filteredCourses numberToString courses filters (toLowerCaseText searchQuery)
  = filteredCourses numberToString courses filters searchQuery
  /\ filteredCourses numberToString courses filters (toUpperCase searchQuery)
     = filteredCourses numberToString courses filters searchQuery.
Proof.
  unfold filteredCourses. rewrite toLowerCaseText_idem, toLowerCaseText_upper.
  split; reflexivity.
Qed.

End OptionProperties.

Lemma offered_option_matches_witness :
  exists l, filteredCourses (fun _ => "") example_catalog
              (handleFilterChange "day" "W" noFilters) "" = Some l
    /\ l <> []
    /\ forall c, In c l <->
         In c example_catalog
         /\ exists s, In s (Course.sections c) /\ Sec.Days s = Some "W".
Proof.
  apply (proj1 (offered_option_matches (fun _ => "") example_catalog "W")).
  vm_compute. right. right. left. reflexivity.
Defined.

Lemma isMatch_keeps_course_witness :
  In (example_course "FNCE-6130" 200
        (example_section "FNCE6130002" (Some "W") (Some "10:00am-11:00am") (Some "Q1")))
     (List.filter
        (matchesFilters (fun _ => "")
           (handleFilterChange "term" "Q1" (handleFilterChange "dept" "FNCE" noFilters)))
        example_catalog).
Proof.
  apply (isMatch_keeps_course (fun _ => "") example_catalog
           (handleFilterChange "term" "Q1" (handleFilterChange "dept" "FNCE" noFilters))
           _
           (example_section "FNCE6130002" (Some "W") (Some "10:00am-11:00am") (Some "Q1"))).
  - apply filteredCourses_unsearched.
  - right. left. reflexivity.
  - left. reflexivity.
  - reflexivity.
  - right. reflexivity.
Defined.

Example search_without_title_throws :
  filteredCourses (fun _ => "")
    [ {| Course.Course_Code := "ACCT-6110"; Course.Title := None;
         Course.course_rating := None; Course.instructor_rating := None;
         Course.difficulty_rating := None; Course.work_rating := None;
         Course.Average_Price := Finite 0; Course.sections := [];
         Course.Terms := ""; Course.Credits := "" |} ]
    noFilters "Finance" = None.
Proof. reflexivity. Qed.

Example search_finds_code :
  option_map (List.map Course.Course_Code)
    (filteredCourses (fun _ => "") example_catalog noFilters "fnce")
  = Some ["FNCE-6130"].
Proof. vm_compute. reflexivity. Qed.

(** ** The catalog as a function of the rows *)

Lemma sectionAt_step prices acc row acc' code id :
  course_step prices acc row = Some acc' ->
  sectionAt acc' code id =
  if targets code id row
  then Some (Sec.push (new_instructor row)
               (match sectionAt acc code id with
                | Some s => s
                | None => new_section row
                end))
  else sectionAt acc code id.
Proof.
  intros Hstep. unfold course_step in Hstep. fold (code_of row) in Hstep.
  unfold targets.
  destruct (nonempty (code_of row)) eqn:Hn; cbn [negb andb] in *.
  2:{ injection Hstep as <-. reflexivity. }
  destruct (String.eqb_spec (code_of row) code) as [E|NE]; cbn [andb].
  2:{ unfold sectionAt.
      destruct (truthy (Row.Section_ID row)).
      - destruct (section_for _ row); [|discriminate]. injection Hstep as <-.
        rewrite lookup_insert_ne by exact NE. reflexivity.
      - injection Hstep as <-. rewrite lookup_insert_ne by exact NE. reflexivity. }
  rewrite E in Hstep.
  assert (Hsec : forall i,
            Entry.sections (match acc !! code with
                            | Some c => c
                            | None => new_course prices code row
                            end) !! i = sectionAt acc code i).
  { intros i. unfold sectionAt. destruct (acc !! code); [reflexivity|apply lookup_empty]. }
  set (course := match acc !! code with Some c => c | None => new_course prices code row end)
    in *.
  destruct (truthy (Row.Section_ID row)) eqn:Ht; cbn [andb].
  2:{ injection Hstep as <-. unfold sectionAt at 1. rewrite lookup_insert_eq. apply Hsec. }
  unfold section_for in Hstep. rewrite Hsec in Hstep.
  set (sid := or_empty (Row.Section_ID row)) in *.
  assert (Hacc : acc' = <[code := Entry.with_sections course
                    (<[sid := Sec.push (new_instructor row)
                                (match sectionAt acc code sid with
                                 | Some s => s
                                 | None => new_section row
                                 end)]> (Entry.sections course))]> acc).
  { destruct (sectionAt acc code sid).
    - injection Hstep as <-. reflexivity.
    - destruct (inherited sid); [discriminate|]. injection Hstep as <-. reflexivity. }
  rewrite Hacc. unfold sectionAt at 1. rewrite lookup_insert_eq.
  cbn [Entry.with_sections Entry.sections].
  destruct (String.eqb_spec sid id) as [<-|Hne].
  - rewrite lookup_insert_eq. reflexivity.
  - rewrite lookup_insert_ne by exact Hne. apply Hsec.
Qed.

Lemma courseInfo_step prices acc row acc' code :
  course_step prices acc row = Some acc' ->
  courseInfo <$> (acc' !! code) =
  if bears code row
  then Some (match acc !! code with
             | Some c => courseInfo c
             | None => courseInfo (new_course prices code row)
             end)
  else courseInfo <$> (acc !! code).
Proof.
  intros Hstep. unfold course_step in Hstep. fold (code_of row) in Hstep.
  unfold bears.
  destruct (nonempty (code_of row)) eqn:Hn; cbn [negb andb] in *.
  2:{ injection Hstep as <-. reflexivity. }
  destruct (String.eqb_spec (code_of row) code) as [E|NE].
  2:{ destruct (truthy (Row.Section_ID row)).
      - destruct (section_for _ row); [|discriminate]. injection Hstep as <-.
        rewrite lookup_insert_ne by exact NE. reflexivity.
      - injection Hstep as <-. rewrite lookup_insert_ne by exact NE. reflexivity. }
  rewrite E in Hstep.
  destruct (truthy (Row.Section_ID row)).
  - destruct (section_for _ row); [|discriminate]. injection Hstep as <-.
    rewrite lookup_insert_eq. destruct (acc !! code); reflexivity.
  - injection Hstep as <-. rewrite lookup_insert_eq. destruct (acc !! code); reflexivity.
Qed.

Lemma course_step_None prices acc row :
  own_sections acc ->
  (course_step prices acc row = None <-> throwing_row row).
Proof.
  intros Hown. unfold throwing_row, course_step. fold (code_of row).
  destruct (code_of row) as [|c0 code'] eqn:Ec; cbn [nonempty negb].
  { split; [discriminate|]. intros [H _]. congruence. }
  set (code := String c0 code') in *.
  assert (Hsec : forall i,
            Entry.sections (match acc !! code with
                            | Some c => c
                            | None => new_course prices code row
                            end) !! i = sectionAt acc code i).
  { intros i. unfold sectionAt. destruct (acc !! code); [reflexivity|apply lookup_empty]. }
  destruct (truthy (Row.Section_ID row)) eqn:Ht.
  - unfold section_for. rewrite Hsec.
    destruct (sectionAt acc code (or_empty (Row.Section_ID row))) as [s|] eqn:Es.
    + split; [discriminate|]. intros [_ Hi]. rewrite (Hown _ _ _ Es) in Hi. discriminate Hi.
    + destruct (inherited (or_empty (Row.Section_ID row))).
      * split; [|reflexivity]. intros _. split; [discriminate|reflexivity].
      * split; [discriminate|]. intros [_ H]. discriminate H.
  - split; [discriminate|]. intros [_ Hi].
    destruct (Row.Section_ID row) as [[|a s]|]; cbn in Ht, Hi; discriminate.
Qed.

Lemma own_sections_step prices acc row acc' :
  own_sections acc -> course_step prices acc row = Some acc' -> own_sections acc'.
Proof.
  intros Hown Hstep code id s Hs.
  rewrite (sectionAt_step _ _ _ _ code id Hstep) in Hs.
  destruct (targets code id row) eqn:Ht; [|eapply Hown; exact Hs].
  destruct (inherited id) eqn:Hi; [|reflexivity]. exfalso.
  assert (Hthrow : throwing_row row).
  { unfold targets in Ht. apply andb_true_iff in Ht as [Ht H4].
    apply andb_true_iff in Ht as [Ht H3]. apply andb_true_iff in Ht as [H1 H2].
    apply String.eqb_eq in H4. split; [|rewrite H4; exact Hi].
    intros E. rewrite E in H1. discriminate H1. }
  apply (course_step_None prices acc row Hown) in Hthrow. congruence.
Qed.

Lemma own_sections_empty : own_sections ∅.
Proof. intros code id s H. unfold sectionAt in H. rewrite lookup_empty in H. discriminate H. Qed.

Lemma reduce_None prices rows : forall acc,
  own_sections acc ->
  (reduce (course_step prices) acc rows = None <-> exists row, In row rows /\ throwing_row row).
Proof.
  induction rows as [|row rows IH]; intros acc Hown; cbn.
  - split; [discriminate|]. intros (r & [] & _).
  - destruct (course_step prices acc row) as [acc'|] eqn:Hstep.
    + rewrite (IH acc' (own_sections_step _ _ _ _ Hown Hstep)). split.
      * intros (r & Hr & Ht). eauto.
      * intros (r & [<-|Hr] & Ht); [|eauto].
        apply (course_step_None prices acc row Hown) in Ht. congruence.
    + split; [|reflexivity]. intros _. exists row. split; [left; reflexivity|].
      apply (course_step_None prices acc row Hown), Hstep.
Qed.

(** X18: the build throws exactly when some row has a non-empty canonical
    code and a section id that names an inherited property; rows with an
    empty code never make it throw. *)
Theorem courseMap_throws prices rows :
  courseMap prices rows = None <-> exists row, In row rows /\ throwing_row row.
Proof.
  apply reduce_None, own_sections_empty.
Qed.

Lemma reduce_sectionAt_Some prices code id rows : forall acc acc' s,
  reduce (course_step prices) acc rows = Some acc' ->
  sectionAt acc code id = Some s ->
  sectionAt acc' code id =
  Some (fold_left (fun s r => Sec.push (new_instructor r) s)
          (List.filter (targets code id) rows) s).
Proof.
  induction rows as [|row rows IH]; intros acc acc' s Hred Hs; cbn in Hred.
  - injection Hred as <-. exact Hs.
  - destruct (course_step prices acc row) as [acc1|] eqn:Hstep; [|discriminate].
    pose proof (sectionAt_step _ _ _ _ code id Hstep) as H1. rewrite Hs in H1.
    cbn [List.filter]. destruct (targets code id row); apply (IH _ _ _ Hred H1).
Qed.

Lemma reduce_sectionAt_None prices code id rows : forall acc acc',
  reduce (course_step prices) acc rows = Some acc' ->
  sectionAt acc code id = None ->
  sectionAt acc' code id = section_of_rows (List.filter (targets code id) rows).
Proof.
  induction rows as [|row rows IH]; intros acc acc' Hred Hs; cbn in Hred.
  - injection Hred as <-. exact Hs.
  - destruct (course_step prices acc row) as [acc1|] eqn:Hstep; [|discriminate].
    pose proof (sectionAt_step _ _ _ _ code id Hstep) as H1. rewrite Hs in H1.
    cbn [List.filter]. destruct (targets code id row).
    + rewrite (reduce_sectionAt_Some _ _ _ _ _ _ _ Hred H1). reflexivity.
    + apply (IH _ _ Hred H1).
Qed.

Lemma reduce_courseInfo_Some prices code rows : forall acc acc' i,
  reduce (course_step prices) acc rows = Some acc' ->
  courseInfo <$> (acc !! code) = Some i ->
  courseInfo <$> (acc' !! code) = Some i.
Proof.
  induction rows as [|row rows IH]; intros acc acc' i Hred Hi; cbn in Hred.
  - injection Hred as <-. exact Hi.
  - destruct (course_step prices acc row) as [acc1|] eqn:Hstep; [|discriminate].
    apply (IH _ _ _ Hred). rewrite (courseInfo_step _ _ _ _ code Hstep).
    destruct (acc !! code) as [c|]; [|discriminate Hi].
    destruct (bears code row); exact Hi.
Qed.

Lemma reduce_courseInfo_None prices code rows : forall acc acc',
  reduce (course_step prices) acc rows = Some acc' ->
  acc !! code = None ->
  courseInfo <$> (acc' !! code)
  = (fun r => courseInfo (new_course prices code r)) <$> List.find (bears code) rows.
Proof.
  induction rows as [|row rows IH]; intros acc acc' Hred Hc; cbn in Hred.
  - injection Hred as <-. rewrite Hc. reflexivity.
  - destruct (course_step prices acc row) as [acc1|] eqn:Hstep; [|discriminate].
    pose proof (courseInfo_step _ _ _ _ code Hstep) as H1. rewrite Hc in H1.
    cbn [List.find]. destruct (bears code row).
    + apply (reduce_courseInfo_Some _ _ _ _ _ _ Hred H1).
    + apply (IH _ _ Hred). destruct (acc1 !! code); [discriminate H1|reflexivity].
Qed.

(** X19: when the build succeeds, the catalog is a function of the rows
    grouped by code and by section id.  It holds a course under a code
    exactly when a row bears that code, with the code, title, ratings and
    price that the first such row gives; it holds a section under an id of a
    course exactly when a row of the course names that id, with the fields
    that the first such row gives and one instructor entry for each such row,
    in the order of the rows. *)
Theorem catalog_of_rows prices rows catalog :
  courseMap prices rows = Some catalog ->
  (forall code,
     courseInfo <$> (catalog !! code)
     = (fun r => courseInfo (new_course prices code r)) <$> List.find (bears code) rows)
  /\ (forall code id,
        sectionAt catalog code id = section_of_rows (List.filter (targets code id) rows)).
Proof.
  unfold courseMap. intros Hred. split.
  - intros code. apply (reduce_courseInfo_None _ _ _ _ _ Hred). apply lookup_empty.
  - intros code id. apply (reduce_sectionAt_None _ _ _ _ _ _ Hred).
    unfold sectionAt. rewrite lookup_empty. reflexivity.
Qed.

Lemma catalog_of_rows_witness :
  exists catalog,
    courseMap (priceMap example_prices) [example_first_row; example_later_row] = Some catalog
    /\ (Sec.instructors <$> sectionAt catalog "ACCT-6110" "ACCT6110001")
       = Some [new_instructor example_first_row; new_instructor example_later_row]
    /\ (Entry.Title <$> (catalog !! "ACCT-6110")) = Some (Row.Title example_first_row).
Proof.
  destruct (courseMap (priceMap example_prices) [example_first_row; example_later_row])
    as [catalog|] eqn:E; [|vm_compute in E; discriminate E].
  destruct (catalog_of_rows _ _ _ E) as [H1 H2].
  exists catalog. split; [reflexivity|]. split.
  - rewrite H2. reflexivity.
  - specialize (H1 "ACCT-6110"). cbn in H1.
    destruct (catalog !! "ACCT-6110") as [c|]; [|discriminate H1].
    cbn in H1. injection H1 as _ Ht _. cbn. f_equal. exact Ht.
Defined.

Lemma push_rows_fields rs : forall s,
  let s' := fold_left (fun s r => Sec.push (new_instructor r) s) rs s in
  Sec.Session_ID s' = Sec.Session_ID s
  /\ Sec.instructors s' = (Sec.instructors s ++ List.map new_instructor rs)%list.
Proof.
  induction rs as [|r rs IH]; intros s; cbn.
  - split; [reflexivity|]. rewrite app_nil_r. reflexivity.
  - destruct (IH (Sec.push (new_instructor r) s)) as [H1 H2]. cbn in H1, H2.
    split; [exact H1|]. rewrite H2, <- app_assoc. reflexivity.
Qed.

Lemma reduce_own_sections prices rows : forall acc acc',
  own_sections acc -> reduce (course_step prices) acc rows = Some acc' -> own_sections acc'.
Proof.
  induction rows as [|row rows IH]; intros acc acc' Hown Hred; cbn in Hred.
  - injection Hred as <-. exact Hown.
  - destruct (course_step prices acc row) as [acc1|] eqn:Hstep; [|discriminate].
    apply (IH acc1 acc' (own_sections_step _ _ _ _ Hown Hstep) Hred).
Qed.

Lemma price_of_not_NaN prices code : price_of prices code <> NaN.
Proof.
  unfold price_of. destruct (prices !! code); [apply or_zero_not_NaN|discriminate].
Qed.

(** X20: in a catalog that was built, every course is stored under its
    own code, which is not empty and is the canonical code of some row, and
    its price is a number, never [NaN]; every section is stored under its own
    id, which is not empty and names no inherited property, and it has at
    least one instructor entry: as many as there are rows that name it. *)
Theorem catalog_invariants prices rows catalog code c :
  courseMap prices rows = Some catalog ->
  catalog !! code = Some c ->
  Entry.Course_Code c = code
  /\ code <> ""
  /\ (exists row, In row rows /\ code_of row = code)
  /\ Entry.Average_Price c <> NaN
  /\ forall id s,
       Entry.sections c !! id = Some s ->
       Sec.Session_ID s = id
       /\ id <> ""
       /\ inherited id = false
       /\ Sec.instructors s <> []
       /\ length (Sec.instructors s) = length (List.filter (targets code id) rows).
Proof.
  unfold courseMap. intros Hred Hc.
  pose proof (reduce_courseInfo_None _ code _ _ _ Hred (lookup_empty _)) as Hi.
  rewrite Hc in Hi. cbn in Hi.
  destruct (List.find (bears code) rows) as [r|] eqn:Hfind; [|discriminate Hi].
  apply find_some in Hfind as [Hin Hb]. unfold bears in Hb.
  apply andb_true_iff in Hb as [Hn He]. apply String.eqb_eq in He.
  cbn in Hi. injection Hi as H1 _ _ _ _ _ H7.
  split; [exact H1|]. split; [intros E; rewrite He, E in Hn; discriminate Hn|].
  split; [eauto|]. split; [rewrite H7; apply price_of_not_NaN|].
  intros id s Hs.
  assert (Hat : sectionAt catalog code id = Some s) by (unfold sectionAt; rewrite Hc; exact Hs).
  pose proof (reduce_own_sections _ _ _ _ own_sections_empty Hred _ _ _ Hat) as Hown.
  rewrite (reduce_sectionAt_None _ code id _ _ _ Hred) in Hat
    by (unfold sectionAt; rewrite lookup_empty; reflexivity).
  destruct (List.filter (targets code id) rows) as [|r0 rs] eqn:Hf; [discriminate Hat|].
  assert (Ht : targets code id r0 = true).
  { assert (H : In r0 (List.filter (targets code id) rows)) by (rewrite Hf; left; reflexivity).
    apply filter_In in H as [_ H]. exact H. }
  unfold targets in Ht. apply andb_true_iff in Ht as [Ht H4].
  apply andb_true_iff in Ht as [_ H3]. apply String.eqb_eq in H4.
  destruct (push_rows_fields (r0 :: rs) (new_section r0)) as [Hid Hins].
  cbn zeta in Hid, Hins. unfold section_of_rows in Hat.
  assert (Hat' : s = fold_left (fun s r => Sec.push (new_instructor r) s) (r0 :: rs) (new_section r0))
    by congruence.
  clear Hat. rewrite Hat', Hid, Hins. cbn [new_section Sec.Session_ID Sec.instructors app].
  split; [exact H4|]. split.
  - intros E. rewrite <- H4 in E.
    destruct (Row.Section_ID r0) as [[|a t]|]; cbn in H3, E; discriminate.
  - split; [exact Hown|]. split; [discriminate|]. rewrite length_map. reflexivity.
Qed.

Lemma catalog_invariants_witness :
  exists catalog c s,
    courseMap (priceMap example_prices) [example_first_row; example_later_row] = Some catalog
    /\ catalog !! "ACCT-6110" = Some c
    /\ Entry.sections c !! "ACCT6110001" = Some s
    /\ Entry.Course_Code c = "ACCT-6110"
    /\ Sec.Session_ID s = "ACCT6110001"
    /\ length (Sec.instructors s) = 2%nat.
Proof.
  destruct (courseMap (priceMap example_prices) [example_first_row; example_later_row])
    as [catalog|] eqn:E; [|vm_compute in E; discriminate E].
  destruct (catalog !! "ACCT-6110") as [c|] eqn:Hc.
  2:{ exfalso. vm_compute in E. injection E as <-. vm_compute in Hc. discriminate Hc. }
  destruct (Entry.sections c !! "ACCT6110001") as [s|] eqn:Hs.
  2:{ exfalso. vm_compute in E. injection E as <-. vm_compute in Hc. injection Hc as <-.
      vm_compute in Hs. discriminate Hs. }
  destruct (catalog_invariants _ _ _ _ _ E Hc) as (H1 & _ & _ & _ & H5).
  destruct (H5 _ _ Hs) as (H6 & _ & _ & _ & H10).
  exists catalog, c, s. repeat split; assumption.
Defined.

Lemma code_char_upper_alnum c : is_alnum c = true -> code_char (upper_char c) = true.
Proof.
  destruct c as [[] [] [] [] [] [] [] []]; vm_compute; intros H;
    first [reflexivity | discriminate H].
Qed.

Lemma code_char_digit c : is_digit c = true -> code_char c = true.
Proof. unfold code_char. intros ->. rewrite orb_true_r. reflexivity. Qed.

Lemma code_char_toUpperCase s :
  forallb is_alnum s = true -> forallb code_char (toUpperCase s) = true.
Proof.
  induction s as [|c s IH]; cbn; [reflexivity|].
  intros H. apply andb_true_iff in H as [Hc Hs]. rewrite (code_char_upper_alnum _ Hc). cbn. auto.
Qed.

Lemma filter_append p a b : filter p (a ++ b) = filter p a ++ filter p b.
Proof.
  induction a as [|c a IH]; cbn; [reflexivity|].
  destruct (p c); cbn; rewrite IH; reflexivity.
Qed.

Lemma filter_all p s : forallb p s = true -> filter p s = s.
Proof.
  induction s as [|c s IH]; cbn; [reflexivity|].
  intros H. apply andb_true_iff in H as [-> H]. rewrite (IH H). reflexivity.
Qed.

Lemma length_toUpperCase s : String.length (toUpperCase s) = String.length s.
Proof. induction s as [|c s IH]; cbn; [reflexivity|]. rewrite IH. reflexivity. Qed.

Lemma append_empty a b : a ++ b = "" -> a = "" /\ b = "".
Proof. destruct a; cbn; [auto|discriminate]. Qed.

(** X21: a canonical code is made of upper-case letters, digits and
    hyphens only, so it never names an inherited property of the objects it
    indexes; and it is empty exactly when the identifier is missing or has no
    letter and no digit.  These are the rows that the build skips. *)
Theorem canonical_code_shape (raw : option string) :
  forallb code_char (getBaseCourseCode raw) = true
  /\ inherited (getBaseCourseCode raw) = false
  /\ (getBaseCourseCode raw = "" <-> filter is_alnum (or_empty raw) = "").
Proof.
  split; [|split; [apply getBaseCourseCode_own_key|]].
  - destruct raw as [s|]; [|reflexivity]. unfold getBaseCourseCode.
    destruct (nonempty s); cbn [negb]; [|reflexivity].
    destruct (Regex.exec code_pattern s) as [m|] eqn:E.
    + destruct (exec_code_some _ _ E)
        as (d & n & -> & -> & pre & t & _ & sep & post & _ & _ & Hd & _ & _ & Hn).
      rewrite !forallb_append. cbn.
      rewrite (code_char_toUpperCase d (forallb_impl _ _ _ alpha_alnum Hd)).
      rewrite (forallb_impl _ _ _ code_char_digit Hn). reflexivity.
    + pose proof (code_char_toUpperCase _ (forallb_filter is_alnum s)) as H.
      destruct (_ =? 8)%nat; [|destruct (_ =? 7)%nat]; [| |exact H].
      * rewrite !forallb_append, forallb_slice_to, forallb_slice_from by exact H. reflexivity.
      * rewrite !forallb_append, forallb_slice_to, forallb_slice_from by exact H. reflexivity.
  - destruct raw as [s|]; [|cbn; tauto]. cbn [or_empty]. unfold getBaseCourseCode.
    destruct s as [|c s]; [cbn; tauto|]. cbn [nonempty negb].
    destruct (Regex.exec code_pattern (String c s)) as [m|] eqn:E.
    + destruct (exec_code_some _ _ E)
        as (d & n & _ & _ & pre & t & Hs & sep & post & -> & Hl & Hd & _ & _ & _).
      split; intros H.
      * apply append_empty in H as [_ H]. discriminate H.
      * exfalso. rewrite Hs, !filter_append in H.
        apply append_empty in H as [_ H]. apply append_empty in H as [H _].
        rewrite (filter_all _ _ (forallb_impl _ _ _ alpha_alnum Hd)) in H.
        rewrite H in Hl. discriminate Hl.
    + set (f := filter is_alnum (String c s)).
      pose proof (length_toUpperCase f) as Hl.
      destruct (String.length (toUpperCase f) =? 8)%nat eqn:E8.
      { apply Nat.eqb_eq in E8. split; intros H.
        - apply append_empty in H as [_ H]. discriminate H.
        - rewrite H in E8. discriminate E8. }
      destruct (String.length (toUpperCase f) =? 7)%nat eqn:E7.
      { apply Nat.eqb_eq in E7. split; intros H.
        - apply append_empty in H as [_ H]. discriminate H.
        - rewrite H in E7. discriminate E7. }
      split; intros H.
      * rewrite H in Hl. destruct f; [reflexivity|discriminate Hl].
      * rewrite H. reflexivity.
Qed.

Lemma filter_sublist {A : Type} (p : A -> bool) l : sublist (List.filter p l) l.
Proof.
  induction l as [|x l IH]; cbn; [constructor|].
  destruct (p x); [apply sublist_skip|apply sublist_cons]; exact IH.
Qed.

Lemma setOf_sublist {A : Type} (eqb : A -> A -> bool) l : sublist (setOf eqb l) l.
Proof.
  induction l as [|x l IH]; cbn; [constructor|].
  apply sublist_skip. etransitivity; [apply filter_sublist|exact IH].
Qed.

Lemma truthyStrings_sublist l : sublist (List.map Some (truthyStrings l)) l.
Proof.
  induction l as [|o l IH]; [constructor|].
  unfold truthyStrings. cbn. fold (truthyStrings l).
  destruct o as [[|c s]|]; cbn; [apply sublist_cons|apply sublist_skip|apply sublist_cons]; exact IH.
Qed.

Lemma join_empty sep l :
  (forall x, In x l -> x <> "") -> join sep l = "" -> l = [].
Proof.
  destruct l as [|x [|y t]]; cbn; intros Hne H; [reflexivity| |].
  - exfalso. apply (Hne x); auto.
  - exfalso. apply (Hne x); [auto|]. destruct x; [reflexivity|discriminate H].
Qed.

(** X22: the term labels of a course are the non-empty terms of its
    sections, each once, and they form a subsequence of the terms of the
    sections; a non-empty term is a label exactly when some section has
    that term, which is the test of the term filter; and the joined text is
    empty exactly when no section has a term. *)
Theorem termLabels_spec (sectionsArray : list Sec.t) :
  NoDup (termLabels sectionsArray)
  /\ sublist (List.map Some (termLabels sectionsArray)) (List.map Sec.Term sectionsArray)
  /\ (forall t, In t (termLabels sectionsArray) <->
        t <> "" /\ existsb (fun s => strictEq (Sec.Term s) t) sectionsArray = true)
  /\ (joinedTerms sectionsArray = "" <->
        forall s, In s sectionsArray -> truthy (Sec.Term s) = false).
Proof.
  assert (Hin : forall t, In t (termLabels sectionsArray) <->
            t <> "" /\ exists s, In s sectionsArray /\ Sec.Term s = Some t).
  { intros t. unfold termLabels.
    rewrite truthyStrings_In, (setOf_In _ _ _ sameValue_eq), in_map_iff.
    split; intros [Ht (s & H1 & H2)]; eauto. }
  split; [apply truthyStrings_NoDup, setOf_NoDup, sameValue_eq|].
  split; [unfold termLabels; etransitivity; [apply truthyStrings_sublist|apply setOf_sublist]|].
  split.
  - intros t. rewrite Hin, existsb_exists.
    split; intros [Ht (s & Hs & H)]; (split; [exact Ht|]); exists s; (split; [exact Hs|]);
      apply strictEq_Some; exact H.
  - unfold joinedTerms. split.
    + intros H s Hs. apply join_empty in H; [|intros x Hx; apply Hin in Hx; tauto].
      destruct (Sec.Term s) as [[|c t]|] eqn:E; try reflexivity.
      exfalso. assert (Hl : In (String c t) (termLabels sectionsArray)).
      { apply Hin. split; [discriminate|]. eauto. }
      rewrite H in Hl. destruct Hl.
    + intros H. destruct (termLabels sectionsArray) as [|x l] eqn:E; [reflexivity|].
      exfalso. assert (Hx : In x (x :: l)) by (left; reflexivity).
      apply Hin in Hx as [Hne (s & Hs & Ht)]. specialize (H s Hs). rewrite Ht in H.
      destruct x; [congruence|discriminate H].
Qed.

Lemma flat_map_map {A B C : Type} (f : B -> list C) (g : A -> B) l :
  flat_map f (List.map g l) = flat_map (fun x => f (g x)) l.
Proof. induction l as [|x l IH]; cbn; [reflexivity|]. rewrite IH. reflexivity. Qed.

Lemma map_flat_map {A B C : Type} (f : B -> C) (g : A -> list B) l :
  List.map f (flat_map g l) = flat_map (fun x => List.map f (g x)) l.
Proof.
  induction l as [|x l IH]; cbn; [reflexivity|]. rewrite List.map_app, IH. reflexivity.
Qed.

Lemma flat_map_flat_map {A B C : Type} (f : B -> list C) (g : A -> list B) l :
  flat_map f (flat_map g l) = flat_map (fun x => flat_map f (g x)) l.
Proof.
  induction l as [|x l IH]; cbn; [reflexivity|]. rewrite flat_map_app, IH. reflexivity.
Qed.

Lemma flat_map_ext_in {A B : Type} (f g : A -> list B) l :
  (forall x, In x l -> f x = g x) -> flat_map f l = flat_map g l.
Proof.
  induction l as [|x l IH]; cbn; intros H; [reflexivity|].
  rewrite (H x), IH by auto. reflexivity.
Qed.

Lemma plus_way p s w :
  In w (Regex.plus p s) ->
  Regex.groups w = [] /\ Regex.consumed w <> "" /\ forallb p (Regex.consumed w) = true.
Proof.
  revert w. induction s as [|c s IH]; intros w H; cbn in H; [destruct H|].
  destruct (p c) eqn:E; [|destruct H].
  apply in_app_iff in H as [H|[<-|[]]].
  - apply in_map_iff in H as (v & <- & Hv). destruct (IH v Hv) as (H1 & H2 & H3).
    cbn. rewrite E, H3. repeat split; [exact H1|discriminate].
  - cbn. rewrite E. repeat split. discriminate.
Qed.

Lemma colon_way s w :
  In w (Regex.run (Regex.One is_colon) s) -> Regex.groups w = [] /\ Regex.consumed w = ":".
Proof.
  destruct s as [|c s]; cbn; [intros []|].
  destruct (is_colon c) eqn:E; [|intros []]. intros [<-|[]]. cbn.
  unfold is_colon in E. apply Ascii.eqb_eq in E. subst c. split; reflexivity.
Qed.

Lemma append_assoc (a b c : string) : (a ++ b) ++ c = a ++ b ++ c.
Proof. induction a as [|x a IH]; cbn; [reflexivity|]. rewrite IH. reflexivity. Qed.

Lemma run_clock_pattern s :
  Regex.run clock_pattern s = List.map merge_fields (Regex.run clock_fields_pattern s).
Proof.
  unfold clock_pattern, clock_fields_pattern.
  cbn [Regex.run].
  rewrite !flat_map_map, map_flat_map, flat_map_flat_map.
  apply flat_map_ext_in. intros a Ha. cbn [Regex.rest].
  rewrite flat_map_map, flat_map_flat_map, List.map_map, map_flat_map.
  apply flat_map_ext_in. intros c Hc. cbn [Regex.rest].
  rewrite flat_map_map, !List.map_map, map_flat_map, !flat_map_map.
  apply flat_map_ext_in. intros b Hb. cbn [Regex.rest Regex.consumed Regex.groups].
  rewrite !List.map_map. apply map_ext_in. intros e He.
  destruct (plus_way _ _ _ Ha) as (Ga & _ & _), (plus_way _ _ _ Hb) as (Gb & _ & _),
    (plus_way _ _ _ He) as (Ge & _ & _), (colon_way _ _ Hc) as (Gc & Cc).
  unfold merge_fields. cbn [Regex.rest Regex.consumed Regex.groups].
  rewrite Ga, Gb, Ge, Gc, Cc. cbn [app]. rewrite !append_assoc. reflexivity.
Qed.

Lemma clock_fields_way s w :
  In w (Regex.run clock_fields_pattern s) ->
  exists h mm p,
    Regex.groups w = [h; mm; p]
    /\ forallb is_digit h = true
    /\ mm <> "" /\ forallb is_digit mm = true.
Proof.
  unfold clock_fields_pattern. cbn [Regex.run].
  rewrite flat_map_map. intros H.
  apply in_flat_map in H as (a & Ha & H). cbn [Regex.rest] in H.
  apply in_map_iff in H as (x & <- & H).
  apply in_flat_map in H as (c & Hc & H).
  apply in_map_iff in H as (y & <- & H).
  rewrite flat_map_map in H. apply in_flat_map in H as (b & Hb & H). cbn [Regex.rest] in H.
  apply in_map_iff in H as (z & <- & H). apply in_map_iff in H as (e & <- & He).
  destruct (plus_way _ _ _ Ha) as (Ga & _ & Da), (plus_way _ _ _ Hb) as (Gb & Nb & Db),
    (plus_way _ _ _ He) as (Ge & _ & _), (colon_way _ _ Hc) as (Gc & _).
  cbn [Regex.rest Regex.consumed Regex.groups]. rewrite Ga, Gb, Ge, Gc. cbn [app].
  eauto 10.
Qed.

Lemma exec_clock_fields t m :
  Regex.exec clock_fields_pattern t = Some m ->
  exists whole h mm p,
    m = [whole; h; mm; p]
    /\ forallb is_digit h = true
    /\ mm <> "" /\ forallb is_digit mm = true
    /\ Regex.exec clock_pattern t = Some [whole; h ++ ":" ++ mm; p].
Proof.
  induction t as [|c t IH]; intros H.
  - cbn in H. discriminate H.
  - cbn [Regex.exec] in H |- *. rewrite run_clock_pattern.
    destruct (Regex.run clock_fields_pattern (String c t)) as [|w ws] eqn:E.
    + cbn [List.map]. exact (IH H).
    + injection H as <-.
      destruct (clock_fields_way (String c t) w) as (h & mm & p & G & Hh & Hn & Hm);
        [rewrite E; left; reflexivity|].
      exists (Regex.consumed w), h, mm, p. rewrite G. repeat split; try assumption.
      cbn [List.map]. unfold merge_fields. rewrite G. reflexivity.
Qed.

Lemma exec_clock_none t :
  Regex.exec clock_fields_pattern t = None -> Regex.exec clock_pattern t = None.
Proof.
  induction t as [|c t IH]; intros H.
  - reflexivity.
  - cbn [Regex.exec] in H |- *. rewrite run_clock_pattern.
    destruct (Regex.run clock_fields_pattern (String c t)) as [|w ws]; [|discriminate H].
    cbn [List.map]. exact (IH H).
Qed.

Lemma digit_not_colon c : is_digit c = true -> Ascii.eqb c ":" = false.
Proof.
  destruct c as [[] [] [] [] [] [] [] []]; vm_compute; intros H;
    first [reflexivity | discriminate H].
Qed.

Lemma split_digits s : forallb is_digit s = true -> split ":" s = [s].
Proof.
  induction s as [|c s IH]; cbn; [reflexivity|].
  intros H. apply andb_true_iff in H as [Hc Hs].
  rewrite (digit_not_colon _ Hc), (IH Hs). reflexivity.
Qed.

Lemma split_clock h mm :
  forallb is_digit h = true -> forallb is_digit mm = true ->
  split ":" (h ++ ":" ++ mm) = [h; mm].
Proof.
  intros Hh Hm. change (":" ++ mm) with (String ":" mm). induction h as [|c h IH]; cbn.
  - rewrite (split_digits _ Hm). reflexivity.
  - cbn in Hh. apply andb_true_iff in Hh as [Hc Hh].
    rewrite (digit_not_colon _ Hc), (IH Hh). reflexivity.
Qed.

(** X23: the calendar and the conflict check read a clock time alike: a
    text without hours, a colon, minutes and a period is midnight for both;
    otherwise both take the same hour, after the same 12-hour adjustment, and
    the same minutes. *)
Theorem formatTime_convertToMinutes (t : string) :
  (formatTime t = "00:00" /\ convertToMinutes t = 0%N)
  \/ exists (hours : N) (minutes : string),
       minutes <> "" /\ forallb is_digit minutes = true
       /\ formatTime t = padStart2 (N_to_string hours) ++ ":" ++ minutes ++ ":00"
       /\ convertToMinutes t = (hours * 60 + Number minutes)%N.
Proof.
  unfold formatTime, convertToMinutes.
  destruct (Regex.exec clock_fields_pattern t) as [m|] eqn:E.
  - right. destruct (exec_clock_fields _ _ E) as (whole & h & mm & p & -> & Hh & Hn & Hm & ->).
    cbv zeta. unfold Regex.group. cbn [nth]. rewrite (split_clock _ _ Hh Hm). cbn [List.map nth].
    eexists _, mm. split; [exact Hn|]. split; [exact Hm|]. split; reflexivity.
  - left. rewrite (exec_clock_none _ E). split; reflexivity.
Qed.

Lemma filter_throwing_In {A : Type} (f : A -> option bool) l r x :
  filter_throwing f l = Some r -> In x r <-> In x l /\ f x = Some true.
Proof.
  revert r. induction l as [|y t IH]; cbn; intros r H.
  - injection H as <-. cbn. tauto.
  - destruct (f y) as [b|] eqn:E; [|discriminate H].
    destruct (filter_throwing f t) as [r'|]; [|discriminate H].
    injection H as <-. specialize (IH r' eq_refl).
    destruct b; cbn; rewrite IH; split.
    + intros [<-|[H1 H2]]; auto.
    + intros [[<-|H1] H2]; auto.
    + intros [H1 H2]; auto.
    + intros [[<-|H1] H2]; [congruence|auto].
Qed.

Lemma find_code courses c :
  In c courses ->
  exists d, List.find (fun x => String.eqb (Course.Course_Code c) (Course.Course_Code x)) courses
            = Some d
    /\ Course.Course_Code d = Course.Course_Code c
    /\ (List.NoDup (List.map Course.Course_Code courses) -> d = c).
Proof.
  induction courses as [|x t IH]; intros H; [destruct H|]. cbn.
  destruct (String.eqb_spec (Course.Course_Code c) (Course.Course_Code x)) as [E|NE].
  - exists x. split; [reflexivity|]. split; [auto|]. intros Hnd.
    destruct H as [H|H]; [exact H|]. exfalso. cbn in Hnd.
    apply List.NoDup_cons_iff in Hnd as [Hx _]. apply Hx.
    rewrite <- E. apply in_map, H.
  - destruct H as [<-|H]; [congruence|].
    destruct (IH H) as (d & H1 & H2 & H3). exists d. split; [exact H1|]. split; [exact H2|].
    intros Hnd. cbn in Hnd. apply List.NoDup_cons_iff in Hnd as [_ Hnd]. auto.
Qed.

Lemma detailCourse_unset courses : detailCourse courses None = None.
Proof. unfold detailCourse. induction courses as [|x t IH]; [reflexivity|exact IH]. Qed.

Section RowProperties.

Variable numberToString : number -> string.

(** X24: a row of the sorted table is a course of the catalog that
    passes the filters and the search; a click on it opens the detail panel
    for a course with the code of the row, and for the very course of the row
    when no two courses of the catalog have the same code.  Before any click
    there is no detail panel. *)
Theorem clicked_row_detail courses filters searchQuery l (h : heap) a sortConfig arr h' rows c :
  filteredCourses numberToString courses filters searchQuery = Some l ->
  h !! a = Some l ->
  sortedCourses a sortConfig h = Some (arr, h') ->
  h' !! arr = Some rows ->
  In c rows ->
  In c courses
  /\ matchesFilters numberToString filters c = true
  /\ matchesSearch (toLowerCaseText searchQuery) c = Some true
  /\ detailCourse courses None = None
  /\ exists d, detailCourse courses (Some (Course.Course_Code c)) = Some d
       /\ Course.Course_Code d = Course.Course_Code c
       /\ (List.NoDup (List.map Course.Course_Code courses) -> d = c).
Proof.
  intros Hf Ha Hs Hr Hc.
  unfold sortedCourses, sortedCoursesOn in Hs. rewrite Ha in Hs. injection Hs as <- <-.
  rewrite lookup_alter_eq, lookup_insert_eq in Hr. injection Hr as <-.
  apply sort_In in Hc.
  unfold filteredCourses in Hf. apply (filter_throwing_In _ _ _ c Hf) in Hc as [Hin Hm].
  destruct (matchesSearch (toLowerCaseText searchQuery) c) as [found|]; [|discriminate Hm].
  injection Hm as Hm. apply andb_true_iff in Hm as [-> Hm].
  split; [exact Hin|]. split; [exact Hm|]. split; [reflexivity|].
  split; [apply detailCourse_unset|]. apply find_code, Hin.
Qed.

End RowProperties.

Lemma clicked_row_detail_witness :
  exists d,
    detailCourse example_filtered (Some "STAT-6130") = Some d
    /\ Course.Course_Code d = "STAT-6130".
Proof.
  destruct (sortedCourses 7 initialSort example_heap) as [[arr h']|] eqn:Hs;
    [|vm_compute in Hs; discriminate Hs].
  destruct (h' !! arr) as [rows|] eqn:Hr;
    [|exfalso; vm_compute in Hs; injection Hs as <- <-; vm_compute in Hr; discriminate Hr].
  assert (Hc : In (example_course "STAT-6130" 100 (example_section "S1" None None None)) rows).
  { vm_compute in Hs. injection Hs as <- <-. vm_compute in Hr. injection Hr as <-.
    right. right. right. left. reflexivity. }
  destruct (clicked_row_detail (fun _ => "") example_filtered noFilters "" example_filtered
              example_heap 7%nat initialSort arr h' rows _ eq_refl eq_refl Hs Hr Hc)
    as (_ & _ & _ & _ & d & H1 & H2 & _).
  exists d. split; [exact H1|exact H2].
Defined.

(** X25: in a catalog that was built, a section named by one row shows
    the instructor name resolved from that row, and a section named by
    several rows shows "Multiple Instructors"; no section is without an
    instructor entry, so the "N/A" of the selection list is never chosen for
    it. *)
Theorem instructorText_of_rows prices rows catalog code id s :
  courseMap prices rows = Some catalog ->
  sectionAt catalog code id = Some s ->
  match List.filter (targets code id) rows with
  | [] => False
  | [r] => instructorText s = getLastName (Row.Instructor r) (Row.Instructor_last r)
  | _ :: _ :: _ => instructorText s = "Multiple Instructors"
  end.
Proof.
  unfold courseMap. intros Hred Hat.
  rewrite (reduce_sectionAt_None _ code id _ _ _ Hred) in Hat
    by (unfold sectionAt; rewrite lookup_empty; reflexivity).
  destruct (List.filter (targets code id) rows) as [|r0 rs]; [discriminate Hat|].
  unfold section_of_rows in Hat.
  assert (Hs : s = fold_left (fun s r => Sec.push (new_instructor r) s) (r0 :: rs) (new_section r0))
    by congruence.
  destruct (push_rows_fields (r0 :: rs) (new_section r0)) as [_ Hins]. cbn zeta in Hins.
  unfold instructorText. rewrite Hs, Hins. cbn [new_section Sec.instructors app List.map].
  destruct rs as [|r1 rs]; reflexivity.
Qed.

Lemma instructorText_of_rows_witness :
  exists catalog s,
    courseMap (priceMap example_prices) [example_first_row; example_later_row] = Some catalog
    /\ sectionAt catalog "ACCT-6110" "ACCT6110001" = Some s
    /\ instructorText s = "Multiple Instructors".
Proof.
  destruct (courseMap (priceMap example_prices) [example_first_row; example_later_row])
    as [catalog|] eqn:E; [|vm_compute in E; discriminate E].
  destruct (sectionAt catalog "ACCT-6110" "ACCT6110001") as [s|] eqn:Hs.
  2:{ exfalso. vm_compute in E. injection E as <-. vm_compute in Hs. discriminate Hs. }
  exists catalog, s. split; [reflexivity|]. split; [exact Hs|].
  exact (instructorText_of_rows _ _ _ _ _ _ E Hs).
Defined.

(** ** A second click reverses the table *)

Section Reversal.

Context {A : Type} (lt : A -> A -> bool) (up down : A -> A -> Z).

Hypothesis lt_asym : forall x y, lt x y = true -> lt y x = false.
Hypothesis lt_trans : forall x y z, lt x y = true -> lt y z = true -> lt x z = true.
Hypothesis up_past : forall x y, (0 <? up x y)%Z = lt y x.
Hypothesis down_past : forall x y, (0 <? down x y)%Z = lt x y.

Lemma insert_past (cmp : A -> A -> Z) x l1 l2 :
  Forall (fun y => (0 <? cmp x y)%Z = true) l1 ->
  insert cmp x (l1 ++ l2) = (l1 ++ insert cmp x l2)%list.
Proof.
  induction 1 as [|y l1 Hy _ IH]; cbn; [reflexivity|]. rewrite Hy, IH. reflexivity.
Qed.

Lemma insert_stop (cmp : A -> A -> Z) x l :
  Forall (fun y => (0 <? cmp x y)%Z = false) l -> insert cmp x l = x :: l.
Proof.
  destruct 1 as [|y l Hy _]; cbn; [reflexivity|]. rewrite Hy. reflexivity.
Qed.

(** A list in strictly ascending order splits around a new element into
    the elements below it and the elements above it. *)
Lemma ascending_split x l :
  StronglySorted (fun a b => lt a b = true) l ->
  Forall (fun y => lt x y = true \/ lt y x = true) l ->
  exists lo hi, l = (lo ++ hi)%list
    /\ Forall (fun y => lt y x = true) lo
    /\ Forall (fun y => lt x y = true) hi.
Proof.
  induction l as [|y t IH]; intros Hs Hc.
  - exists [], []. repeat split; constructor.
  - apply StronglySorted_inv in Hs as [Hs Hy]. apply Forall_cons_iff in Hc as [Hxy Hc].
    destruct (lt x y) eqn:E.
    + exists [], (y :: t). split; [reflexivity|]. split; [constructor|].
      constructor; [exact E|]. rewrite List.Forall_forall in Hy |- *.
      intros z Hz. apply (lt_trans x y z E), Hy, Hz.
    + destruct Hxy as [Hxy|Hyx]; [congruence|].
      destruct (IH Hs Hc) as (lo & hi & -> & Hlo & Hhi).
      exists (y :: lo), hi. split; [reflexivity|]. split; [constructor; assumption|exact Hhi].
Qed.

Lemma insert_up_split x lo hi :
  Forall (fun y => lt y x = true) lo -> Forall (fun y => lt x y = true) hi ->
  insert up x (lo ++ hi) = (lo ++ x :: hi)%list.
Proof.
  intros Hlo Hhi. rewrite insert_past, insert_stop; [reflexivity| |].
  - eapply List.Forall_impl; [|exact Hhi]. intros y Hy. cbn in Hy. rewrite up_past.
    apply lt_asym, Hy.
  - eapply List.Forall_impl; [|exact Hlo]. intros y Hy. cbn in Hy. rewrite up_past. exact Hy.
Qed.

Lemma insert_down_split x lo hi :
  Forall (fun y => lt y x = true) lo -> Forall (fun y => lt x y = true) hi ->
  insert down x (rev hi ++ rev lo) = (rev hi ++ x :: rev lo)%list.
Proof.
  intros Hlo Hhi. rewrite insert_past, insert_stop; [reflexivity| |].
  - apply List.Forall_rev. eapply List.Forall_impl; [|exact Hlo]. intros y Hy. cbn in Hy.
    rewrite down_past. apply lt_asym, Hy.
  - apply List.Forall_rev. eapply List.Forall_impl; [|exact Hhi]. intros y Hy. cbn in Hy.
    rewrite down_past. exact Hy.
Qed.

Lemma split_sorted x lo hi :
  StronglySorted (fun a b => lt a b = true) (lo ++ hi) ->
  Forall (fun y => lt y x = true) lo -> Forall (fun y => lt x y = true) hi ->
  StronglySorted (fun a b => lt a b = true) (lo ++ x :: hi).
Proof.
  induction lo as [|y lo IH]; cbn; intros Hs Hlo Hhi.
  - constructor; assumption.
  - apply StronglySorted_inv in Hs as [Hs Hy]. apply Forall_cons_iff in Hlo as [Hyx Hlo].
    constructor; [apply IH; assumption|].
    apply Forall_app in Hy as [H1 H2]. apply Forall_app. split; [exact H1|].
    constructor; assumption.
Qed.

Lemma sort_reversed l :
  ForallOrdPairs (fun a b => lt a b = true \/ lt b a = true) l ->
  StronglySorted (fun a b => lt a b = true) (sort up l)
  /\ sort down l = rev (sort up l).
Proof.
  induction 1 as [|x t Hx _ IH]; cbn; [split; [constructor|reflexivity]|].
  destruct IH as [Hs Hr].
  assert (Hc : Forall (fun y => lt x y = true \/ lt y x = true) (sort up t)).
  { rewrite List.Forall_forall in Hx |- *. intros y Hy. apply Hx.
    apply (Permutation_in _ (Permutation_sym (sort_perm up t))), Hy. }
  destruct (ascending_split x _ Hs Hc) as (lo & hi & E & Hlo & Hhi).
  rewrite Hr, E in *. rewrite insert_up_split by assumption. split.
  - apply split_sorted; assumption.
  - rewrite rev_app_distr, insert_down_split by assumption.
    rewrite rev_app_distr. cbn [rev]. rewrite <- app_assoc. reflexivity.
Qed.

End Reversal.

Lemma compareCourses_up k a b :
  (0 <? compareCourses {| key := k; direction := "ascending" |} a b)%Z = less k b a.
Proof.
  unfold compareCourses. cbn [key direction String.eqb].
  destruct (less k a b) eqn:E; [rewrite (less_asym _ _ _ E); reflexivity|].
  destruct (less k b a); reflexivity.
Qed.

Lemma compareCourses_down k a b :
  (0 <? compareCourses {| key := k; direction := "descending" |} a b)%Z = less k a b.
Proof.
  unfold compareCourses. cbn [key direction].
  destruct (less k a b) eqn:E; [reflexivity|].
  destruct (less k b a); reflexivity.
Qed.

(** X26: when no two courses tie under the sort key, a second click on
    the same column header shows the table in the reverse order of the first
    click. *)
Theorem second_click_reverses k prev l :
  no_ties k l ->
  sort (compareCourses (requestSort k (requestSort k prev))) l
  = rev (sort (compareCourses (requestSort k prev)) l).
Proof.
  intros Hl.
  destruct (sort_reversed (less k) (compareCourses {| key := k; direction := "ascending" |})
              (compareCourses {| key := k; direction := "descending" |})
              (less_asym k) (less_trans k) (compareCourses_up k) (compareCourses_down k) l Hl)
    as [_ H].
  unfold requestSort. cbn [key direction]. rewrite String.eqb_refl. cbn [andb].
  destruct (String.eqb (key prev) k && String.eqb (direction prev) "ascending"); cbn.
  - rewrite H, rev_involutive. reflexivity.
  - exact H.
Qed.

Lemma second_click_reverses_witness :
  sort (compareCourses (requestSort "Course_Code" (requestSort "Course_Code" initialSort)))
    example_filtered
  = rev (sort (compareCourses (requestSort "Course_Code" initialSort)) example_filtered).
Proof.
  apply second_click_reverses. unfold no_ties, example_filtered.
  repeat first [apply FOP_cons | apply FOP_nil | apply List.Forall_cons | apply List.Forall_nil];
    vm_compute; auto.
Defined.

(** ** Instances of the equivalences *)

Lemma toggleSession_selection_witness :
  In (example_section "FNCE6130002" (Some "W") (Some "10:00am-11:00am") (Some "Q1"))
     (List.map Selected.section
        (selectedList example_catalog (toggleSession "FNCE6130002" ∅))).
Proof.
  apply (proj2 (toggleSession_selection example_catalog ∅ "FNCE6130002" _)).
  split; [right; left; reflexivity|reflexivity].
Defined.

Lemma filteredCourses_throws_witness :
  filteredCourses (fun _ => "")
    [ {| Course.Course_Code := "ACCT-6110"; Course.Title := None;
         Course.course_rating := None; Course.instructor_rating := None;
         Course.difficulty_rating := None; Course.work_rating := None;
         Course.Average_Price := Finite 0; Course.sections := [];
         Course.Terms := ""; Course.Credits := "" |} ]
    noFilters "Finance" = None.
Proof.
  apply (proj2 (filteredCourses_throws (fun _ => "") _ noFilters "Finance")).
  eexists. split; [left; reflexivity|]. repeat split. discriminate.
Defined.

Lemma courseMap_throws_witness :
  courseMap (priceMap example_prices)
    [example_first_row;
     example_row (Some "ACCT 6110") (Some "constructor") (Some "Smith, John") Absent] = None.
Proof.
  apply (proj2 (courseMap_throws _ _)).
  eexists. split; [right; left; reflexivity|]. split; [discriminate|reflexivity].
Defined.
